(** * IMX500 MobileNet SSD output-tensor decoder

    A shallow embedding of [post_processing_stages/imx500_mobilenet.cpp]
    and the properties of its decode path: header de-striping, layout
    planning, tensor-body dequantisation and reordering, and the SSD
    detection interpretation.

    Conventions of the embedding.
    - Every C++ integer is a [Z]; an operation that wraps in C++ has its
      wrap-around written out with [wrap].
    - A [float] is an IEEE-754 binary32 value ([spec_float] with 24 bits of
      precision and exponent bound 128); arithmetic rounds to nearest even.
    - The raw inference buffer is a [list byte]; a pointer into it is the
      [Z] offset from its start.  The target is little-endian.
    - What C++ leaves undefined (a read or write outside an object, an
      integer division by zero, a float-to-integer conversion out of range)
      and what terminates the program (an uncaught [std::out_of_range], a
      failed [assert]) is a [Fault]. *)

From Stdlib Require Import ZArith Lia Bool Strings.String Strings.Byte.
From Stdlib Require Import Floats.SpecFloat.
From stdpp Require Import base tactics option list.

Local Open Scope Z_scope.

(* ================================================================== *)
(** ** Machine integers *)

Definition wrap (w z : Z) : Z := z mod 2 ^ w.
Definition wrap8 : Z -> Z := wrap 8.
Definition wrap16 : Z -> Z := wrap 16.
Definition wrap32 : Z -> Z := wrap 32.

(** Conversion of a value to a signed integer type of [w] bits. *)
Definition to_signed (w z : Z) : Z :=
  let u := wrap w z in if u <? 2 ^ (w - 1) then u else u - 2 ^ w.

Definition UINT32_MAX : Z := 4294967295.
Definition sizeof_float : Z := 4.
Definition sizeof_uint32 : Z := 4.

Definition u8 (b : byte) : Z := Z.of_N (Byte.to_N b).

(** The byte whose value is [z mod 256]. *)
Definition byte_of_Z (z : Z) : byte :=
  match Byte.of_N (Z.to_N (z mod 256)) with
  | Some b => b
  | None => x00%byte
  end.

(* ================================================================== *)
(** ** Faults and the two monads *)

Inductive fault : Set :=
| DivisionByZero      (* integer division by zero *)
| OutOfBoundsRead     (* read through a pointer or operator[] outside the object *)
| OutOfBoundsWrite    (* write through a pointer or operator[] outside the object *)
| OutOfRange          (* std::out_of_range thrown by vector::at, never caught *)
| FloatToIntRange     (* float-to-integer conversion of an unrepresentable value *)
| AssertionFailed.    (* assert() *)

Inductive result (A : Type) : Type :=
| Ret (a : A)
| Fault (f : fault).
Arguments Ret {A} a.
Arguments Fault {A} f.

Definition rbind {A B} (m : result A) (k : A -> result B) : result B :=
  match m with
  | Ret a => k a
  | Fault f => Fault f
  end.

Declare Scope result_scope.
Delimit Scope result_scope with result.
Notation "x <- m ;; k" := (rbind m (fun x => k))
  (at level 20, m at level 99, k at level 200, only parsing) : result_scope.
Notation "' p <- m ;; k" := (rbind m (fun x => match x with p => k end))
  (at level 20, p pattern, m at level 99, k at level 200, only parsing) : result_scope.

(** Unsigned division as C++ has it: undefined for a zero divisor. *)
Definition udiv (a b : Z) : result Z :=
  if b =? 0 then Fault DivisionByZero else Ret (a / b).

(** Raw pointer read [src[i]]. *)
Definition loadb (buf : list byte) (p : Z) : result byte :=
  if p <? 0 then Fault OutOfBoundsRead
  else match buf !! Z.to_nat p with
       | Some b => Ret b
       | None => Fault OutOfBoundsRead
       end.

Definition load (buf : list byte) (p : Z) : result Z :=
  match loadb buf p with
  | Ret b => Ret (u8 b)
  | Fault f => Fault f
  end.

Section Vectors.
Context {A : Type}.

(** [v.at(i)]: checked, throws. *)
Definition vec_at (v : list A) (i : Z) : result A :=
  if i <? 0 then Fault OutOfRange
  else match v !! Z.to_nat i with
       | Some a => Ret a
       | None => Fault OutOfRange
       end.

(** [v[i]] as an rvalue: unchecked. *)
Definition vec_get (v : list A) (i : Z) : result A :=
  if i <? 0 then Fault OutOfBoundsRead
  else match v !! Z.to_nat i with
       | Some a => Ret a
       | None => Fault OutOfBoundsRead
       end.

(** [v[i] = a]: unchecked. *)
Definition vec_set (v : list A) (i : Z) (a : A) : result (list A) :=
  if i <? 0 then Fault OutOfBoundsWrite
  else if (Z.to_nat i <? length v)%nat then Ret (<[Z.to_nat i := a]> v)
  else Fault OutOfBoundsWrite.

(** [v[i].field = ...]: unchecked read-modify-write of one element. *)
Definition vec_upd (v : list A) (i : Z) (f : A -> A) : result (list A) :=
  if i <? 0 then Fault OutOfBoundsWrite
  else match v !! Z.to_nat i with
       | Some a => Ret (<[Z.to_nat i := f a]> v)
       | None => Fault OutOfBoundsWrite
       end.
End Vectors.

(* ================================================================== *)
(** ** Binary32 arithmetic *)

Definition float : Set := spec_float.

Definition fprec : Z := 24.
Definition femax : Z := 128.

Definition fzero : float := S754_zero false.
(** Conversion of an integer to [float]. *)
Definition float_of_Z (z : Z) : float := binary_normalize fprec femax z 0 false.
Definition fmul : float -> float -> float := SFmul fprec femax.
Definition fdiv : float -> float -> float := SFdiv fprec femax.
Definition flt : float -> float -> bool := SFltb.
Definition fle : float -> float -> bool := SFleb.

(** Truncation toward zero of a finite value. *)
Definition ftrunc (x : float) : option Z :=
  match x with
  | S754_zero _ => Some 0
  | S754_finite s m e =>
      let mag := if 0 <=? e then Zpos m * 2 ^ e else Zpos m / 2 ^ (- e) in
      Some (if s then - mag else mag)
  | _ => None
  end.

(** [std::ceil] of a finite value, as an integer. *)
Definition fceil (x : float) : option Z :=
  match x with
  | S754_zero _ => Some 0
  | S754_finite s m e =>
      if 0 <=? e then Some (if s then - (Zpos m * 2 ^ e) else Zpos m * 2 ^ e)
      else if s then Some (- (Zpos m / 2 ^ (- e)))
      else Some ((Zpos m + 2 ^ (- e) - 1) / 2 ^ (- e))
  | _ => None
  end.

(** [round]: to the nearest integer, halfway cases away from zero. *)
Definition fround (x : float) : option Z :=
  match x with
  | S754_zero _ => Some 0
  | S754_finite s m e =>
      let mag := if 0 <=? e then Zpos m * 2 ^ e
                 else (2 * Zpos m + 2 ^ (- e)) / 2 ^ (- e + 1) in
      Some (if s then - mag else mag)
  | _ => None
  end.

(** Conversion of an integral value to an unsigned type of [w] bits:
    defined only when the value is representable. *)
Definition to_unsigned (w : Z) (v : option Z) : result Z :=
  match v with
  | Some z => if (0 <=? z) && (z <? 2 ^ w) then Ret z else Fault FloatToIntRange
  | None => Fault FloatToIntRange
  end.

(* ================================================================== *)
(** ** Data structures of the source *)

Definition PplTotalDetections : Z := 10.
Definition PplDnnOutputTensorSize : Z := 61.

Definition TYPE_SIGNED : Z := 0.
Definition TYPE_UNSIGNED : Z := 1.

Record DnnHeader : Set := {
  frameValid : Z;
  frameCount : Z;
  maxLineLen : Z;
  apParamSize : Z;
  networkId : Z;
  tensorType : Z
}.

Record Dimensions : Set := {
  ordinal : Z;
  size : Z;
  serializationIndex : Z;
  padding : Z
}.

Record OutputTensorApParams : Set := {
  id : Z;
  name : string;
  numDimensions : Z;
  bitsPerElement : Z;
  vecDim : list Dimensions;
  shift : Z;
  scale : float;
  format : Z
}.

Record OutputTensorInfo : Set := {
  address : list float;
  totalSize : Z;
  tensorNum : Z;
  tensorDataNum : list Z
}.

Record Bbox : Set := { xMin : float; yMin : float; xMax : float; yMax : float }.

Record ObjectDetectionSsdOutputTensor : Set := {
  numDetections : Z;
  bboxes : list Bbox;
  scores : list float;
  classes : list float
}.

Record PplBbox : Set := { mXmin : Z; mYmin : Z; mXmax : Z; mYmax : Z }.

Record ObjectDetectionSsdData : Set := {
  dNumDetections : Z;
  vBbox : list PplBbox;
  vScores : list float;
  vClasses : list Z
}.

(** [Detection] of [object_detect.hpp]: category, name, confidence and the
    box as x, y, width, height. *)
Record Detection : Set := {
  category : Z;
  det_name : string;
  confidence : float;
  box_x : Z;
  box_y : Z;
  box_w : Z;
  box_h : Z
}.

Record Size : Set := { width : Z; height : Z }.

Record MobileNet : Set := {
  stream_size : Size;                 (* stream_->configuration().size *)
  dnnHeader_ : DnnHeader;
  apParams_ : list byte;
  networkType_ : string;
  outputApParams_ : list OutputTensorApParams;
  outputBodyInfo_ : OutputTensorInfo;
  maxDetections_ : Z;
  threshold_ : float;
  classes_ : list string
}.

Definition set_dnnHeader (h : DnnHeader) (t : MobileNet) : MobileNet :=
  {| stream_size := stream_size t; dnnHeader_ := h; apParams_ := apParams_ t;
     networkType_ := networkType_ t; outputApParams_ := outputApParams_ t;
     outputBodyInfo_ := outputBodyInfo_ t; maxDetections_ := maxDetections_ t;
     threshold_ := threshold_ t; classes_ := classes_ t |}.

Definition set_apParams (a : list byte) (t : MobileNet) : MobileNet :=
  {| stream_size := stream_size t; dnnHeader_ := dnnHeader_ t; apParams_ := a;
     networkType_ := networkType_ t; outputApParams_ := outputApParams_ t;
     outputBodyInfo_ := outputBodyInfo_ t; maxDetections_ := maxDetections_ t;
     threshold_ := threshold_ t; classes_ := classes_ t |}.

Definition set_networkType (s : string) (t : MobileNet) : MobileNet :=
  {| stream_size := stream_size t; dnnHeader_ := dnnHeader_ t; apParams_ := apParams_ t;
     networkType_ := s; outputApParams_ := outputApParams_ t;
     outputBodyInfo_ := outputBodyInfo_ t; maxDetections_ := maxDetections_ t;
     threshold_ := threshold_ t; classes_ := classes_ t |}.

Definition set_outputApParams (l : list OutputTensorApParams) (t : MobileNet) : MobileNet :=
  {| stream_size := stream_size t; dnnHeader_ := dnnHeader_ t; apParams_ := apParams_ t;
     networkType_ := networkType_ t; outputApParams_ := l;
     outputBodyInfo_ := outputBodyInfo_ t; maxDetections_ := maxDetections_ t;
     threshold_ := threshold_ t; classes_ := classes_ t |}.

Definition set_outputBodyInfo (i : OutputTensorInfo) (t : MobileNet) : MobileNet :=
  {| stream_size := stream_size t; dnnHeader_ := dnnHeader_ t; apParams_ := apParams_ t;
     networkType_ := networkType_ t; outputApParams_ := outputApParams_ t;
     outputBodyInfo_ := i; maxDetections_ := maxDetections_ t;
     threshold_ := threshold_ t; classes_ := classes_ t |}.

(** The object together with the error log: the messages handed to
    [LOG_ERROR] and [LOG(1, ...)], oldest first. *)
Record World : Set := { self : MobileNet; errlog : list string }.

(** A statement of a function returning [R]: it falls through with a value,
    executes [return], or faults. *)
Inductive outcome (R A : Type) : Type :=
| Val (a : A) (w : World)
| Rtn (r : R) (w : World)
| Crash (f : fault).
Arguments Val {R A} a w.
Arguments Rtn {R A} r w.
Arguments Crash {R A} f.

Definition M (R A : Type) : Type := World -> outcome R A.

Definition mret {R A} (a : A) : M R A := fun w => Val a w.

Definition mbind {R A B} (m : M R A) (k : A -> M R B) : M R B :=
  fun w => match m w with
           | Val a w' => k a w'
           | Rtn r w' => Rtn r w'
           | Crash f => Crash f
           end.

(** [return r;] *)
Definition return_ {R A} (r : R) : M R A := fun w => Rtn r w.

Definition lift {R A} (x : result A) : M R A :=
  fun w => match x with
           | Ret a => Val a w
           | Fault f => Crash f
           end.

Definition this {R} : M R MobileNet := fun w => Val (self w) w.

Definition modify {R} (f : MobileNet -> MobileNet) : M R unit :=
  fun w => Val tt {| self := f (self w); errlog := errlog w |}.

Definition LOG_ERROR {R} (msg : string) : M R unit :=
  fun w => Val tt {| self := self w; errlog := errlog w ++ [msg] |}.

(** Running the body of a function returning [R]: what it returns and the
    world it leaves, or the fault. *)
Definition exec {R} (body : M R R) (w : World) : result (R * World) :=
  match body w with
  | Val r w' => Ret (r, w')
  | Rtn r w' => Ret (r, w')
  | Crash f => Fault f
  end.

(** A call: the callee's [return] ends the callee only. *)
Definition call {R R'} (body : M R R) : M R' R :=
  fun w => match exec body w with
           | Ret (r, w') => Val r w'
           | Fault f => Crash f
           end.

Declare Scope m_scope.
Delimit Scope m_scope with M.
Notation "x <- m ;; k" := (mbind m (fun x => k))
  (at level 20, m at level 99, k at level 200, only parsing) : m_scope.
Notation "' p <- m ;; k" := (mbind m (fun x => match x with p => k end))
  (at level 20, p pattern, m at level 99, k at level 200, only parsing) : m_scope.
Notation "m ;;; k" := (mbind m (fun _ => k))
  (at level 100, k at level 200, right associativity, only parsing) : m_scope.

(* ================================================================== *)
(** ** parseHeader *)

Definition DnnHeaderSize : Z := 12.
Definition MipiPhSize : Z := 0.

(** The structure copy through the cast pointer: the ten bytes of a
    [DnnHeader], fields at their natural alignment, 16-bit fields low byte
    first. *)
Definition read_DnnHeader (buf : list byte) (src : Z) : result DnnHeader :=
  (b0 <- load buf src;;
   b1 <- load buf (src + 1);;
   b2 <- load buf (src + 2);;
   b3 <- load buf (src + 3);;
   b4 <- load buf (src + 4);;
   b5 <- load buf (src + 5);;
   b6 <- load buf (src + 6);;
   b7 <- load buf (src + 7);;
   b8 <- load buf (src + 8);;
   pad <- load buf (src + 9);;
   Ret {| frameValid := b0; frameCount := b1;
          maxLineLen := b2 + 256 * b3;
          apParamSize := b4 + 256 * b5;
          networkId := b6 + 256 * b7;
          tensorType := b8 |})%result.

(** The copy loop, over the values [js] of [j] still to come; [src] and [i]
    are the loop's moving line pointer and cursor. *)
Fixpoint copyApParams (buf : list byte) (stride : Z) (js : list nat)
    (src i : Z) (ap : list byte) : result (list byte) :=
  match js with
  | [] => Ret ap
  | j :: js' =>
      let wrapped := negb (stride =? 0) && (stride <=? i) in
      let src' := if wrapped then src + (stride + MipiPhSize) else src in
      let i' := if wrapped then 0 else i in
      (b <- loadb buf (src' + i');;
       ap' <- vec_set ap (Z.of_nat j) b;;
       copyApParams buf stride js' src' (wrap32 (i' + 1)) ap')%result
  end.

Definition parseHeader (buf : list byte) (src stride : Z) : M Z Z :=
  (h <- lift (read_DnnHeader buf src);;
   modify (set_dnnHeader h);;;
   if frameValid h =? 0 then return_ (-1)
   else
     t <- this;;
     let n := Z.to_nat (apParamSize h) in
     ap <- lift (copyApParams buf stride (seq 0 n) src DnnHeaderSize
                   (resize n x00%byte (apParams_ t)));;
     modify (set_apParams ap);;;
     return_ 0)%M.

(* ================================================================== *)
(** ** parseApParams *)

(** Modelled from the spec: the generated reader
    [apParams.flatbuffers_generated.h] is not part of the sources.  The spec
    (4.2) describes the blob as a serialized table of networks, each with an
    id and a list of output-tensor descriptors; the records below are what
    the accessors the source calls ([networks], [id], [type],
    [outputTensors], [numOfDimensions], [dimensions], [bitsPerElement],
    [shift], [scale], [format]) return.  [numOfDimensions] is a field of its
    own, independent of the length of [dimensions]. *)
Record FBDimension : Set := {
  fbd_id : Z;
  fbd_size : Z;
  fbd_serializationIndex : Z;
  fbd_padding : Z
}.

Record FBOutputTensor : Set := {
  fbt_id : Z;
  fbt_name : string;
  fbt_numOfDimensions : Z;
  fbt_dimensions : list FBDimension;
  fbt_bitsPerElement : Z;
  fbt_shift : Z;
  fbt_scale : float;
  fbt_format : Z
}.

Record FBNetwork : Set := {
  fbn_id : Z;
  fbn_type : string;
  fbn_outputTensors : list FBOutputTensor
}.

Definition FBApParams : Set := list FBNetwork.

(** [Vector::Get(k)]: unchecked. *)
Definition fb_Get {A} (v : list A) (k : nat) : result A :=
  match v !! k with
  | Some a => Ret a
  | None => Fault OutOfBoundsRead
  end.

Fixpoint parseDimensions (dims : list FBDimension) (ks : list nat)
    (vecDim : list Dimensions) : M Z (list Dimensions) :=
  match ks with
  | [] => mret vecDim
  | k :: ks' =>
      (d <- lift (fb_Get dims k);;
       let dim := {| ordinal := wrap8 (fbd_id d);
                     size := wrap16 (fbd_size d);
                     serializationIndex := wrap8 (fbd_serializationIndex d);
                     padding := wrap8 (fbd_padding d) |} in
       if negb (padding dim =? 0) then
         LOG_ERROR "Error in AP Params, Non-Zero padding for Dimension";;;
         return_ (-1)
       else parseDimensions dims ks' (vecDim ++ [dim]))%M
  end.

Definition push_outputApParams (p : OutputTensorApParams) (t : MobileNet) : MobileNet :=
  set_outputApParams (outputApParams_ t ++ [p]) t.

Fixpoint parseOutputTensors (ts : list FBOutputTensor) : M Z unit :=
  match ts with
  | [] => mret tt
  | fbOutputTensor :: ts' =>
      (vd <- parseDimensions (fbt_dimensions fbOutputTensor)
               (seq 0 (Z.to_nat (fbt_numOfDimensions fbOutputTensor))) [];;
       modify (push_outputApParams
                 {| id := wrap8 (fbt_id fbOutputTensor);
                    name := fbt_name fbOutputTensor;
                    numDimensions := wrap16 (fbt_numOfDimensions fbOutputTensor);
                    bitsPerElement := wrap8 (fbt_bitsPerElement fbOutputTensor);
                    vecDim := vd;
                    shift := wrap16 (fbt_shift fbOutputTensor);
                    scale := fbt_scale fbOutputTensor;
                    format := wrap8 (fbt_format fbOutputTensor) |});;;
       parseOutputTensors ts')%M
  end.

(** The loop over the networks: a network with another id is skipped, the
    first one that matches is read and ends the loop. *)
Fixpoint parseNetworks (ns : list FBNetwork) : M Z unit :=
  match ns with
  | [] => mret tt
  | fbNetwork :: ns' =>
      (t <- this;;
       if negb (fbn_id fbNetwork =? networkId (dnnHeader_ t)) then parseNetworks ns'
       else
         modify (set_networkType (fbn_type fbNetwork));;;
         parseOutputTensors (fbn_outputTensors fbNetwork))%M
  end.

Section Decoder.

(** [apParams::fb::GetFBApParams]: the table a schema blob denotes. *)
Variable GetFBApParams : list byte -> FBApParams.

Definition parseApParams : M Z Z :=
  (t <- this;;
   let fbApParams := GetFBApParams (apParams_ t) in
   modify (set_outputApParams []);;;
   parseNetworks fbApParams;;;
   return_ 0)%M.

End Decoder.

(* ================================================================== *)
(** ** populateOutputBodyInfo *)

(** The inner loop: the running product over the dimensions still to come. *)
Fixpoint dimensionProduct (dims : list Dimensions) (totalDimensionSize : Z) : M Z Z :=
  match dims with
  | [] => mret totalDimensionSize
  | dim :: dims' =>
      (q <- lift (udiv UINT32_MAX (size dim));;
       if q <=? totalDimensionSize then
         LOG_ERROR "Invalid totalDimensionSize";;;
         return_ (-1)
       else dimensionProduct dims' (wrap32 (totalDimensionSize * size dim)))%M
  end.

(** The outer loop: the running total over the descriptors still to come. *)
Fixpoint totalOutputSize (aps : list OutputTensorApParams) (totalOutSize : Z) : M Z Z :=
  match aps with
  | [] => mret totalOutSize
  | ap :: aps' =>
      (totalDimensionSize <- dimensionProduct (vecDim ap) 1;;
       if wrap32 (UINT32_MAX - totalDimensionSize) <=? totalOutSize then
         LOG_ERROR "Invalid totalOutSize";;;
         return_ (-1)
       else totalOutputSize aps' (wrap32 (totalOutSize + totalDimensionSize)))%M
  end.

Definition populateOutputBodyInfo : M Z Z :=
  (t <- this;;
   totalOutSize <- totalOutputSize (outputApParams_ t) 0;;
   if totalOutSize =? 0 then
     LOG_ERROR "Invalid output tensor info (totalOutSize is 0)";;;
     return_ (-1)
   else if UINT32_MAX / sizeof_float <=? totalOutSize then
     LOG_ERROR "Invalid output tensor info";;;
     return_ (-1)
   else
     modify (set_outputBodyInfo
               {| address := replicate (Z.to_nat totalOutSize) fzero;
                  totalSize := 0; tensorNum := 0; tensorDataNum := [] |});;;
     let numOutputTensors := wrap32 (Z.of_nat (length (outputApParams_ t))) in
     if numOutputTensors =? 0 then
       LOG_ERROR "Invalid numOutputTensors (0)";;;
       return_ (-1)
     else if UINT32_MAX / sizeof_uint32 <=? numOutputTensors then
       LOG_ERROR "Invalid numOutputTensors";;;
       return_ (-1)
     else
       modify (set_outputBodyInfo
                 {| address := replicate (Z.to_nat totalOutSize) fzero;
                    totalSize := totalOutSize;
                    tensorNum := numOutputTensors;
                    tensorDataNum := replicate (Z.to_nat numOutputTensors) 0 |});;;
       return_ 0)%M.

(* ================================================================== *)
(** ** parseOutputTensorBody: element extraction *)

(** [getVal8<T>(src, param)] with [T] = [int8_t] or [uint8_t]. *)
Definition getVal8 (T_signed : bool) (buf : list byte) (src : Z)
    (param : OutputTensorApParams) : result float :=
  (b <- load buf src;;
   let temp := if T_signed then to_signed 8 b else wrap8 b in
   Ret (fmul (float_of_Z (temp - shift param)) (scale param)))%result.

(** The macros: both put [MSB] above [LSB]. *)
Definition bytes_to_uint16 (MSB LSB : Z) : Z :=
  Z.lor (Z.shiftl (Z.land (wrap16 (wrap8 MSB)) 255) 8) (Z.land (wrap8 LSB) 255).
Definition bytes_to_int16 (MSB LSB : Z) : Z :=
  Z.lor (Z.shiftl (Z.land (to_signed 16 (wrap8 MSB)) 255) 8) (Z.land (wrap8 LSB) 255).

(** One 16-bit element at [src]: the macro is applied to the byte at
    [src + 1] and the byte at [src], and its value stored in an [int16_t] or
    a [uint16_t]. *)
Definition getVal16 (is_signed : bool) (buf : list byte) (src : Z)
    (param : OutputTensorApParams) : result float :=
  (hi <- load buf (src + 1);;
   lo <- load buf src;;
   let temp := if is_signed then to_signed 16 (bytes_to_int16 (to_signed 8 hi) (to_signed 8 lo))
               else wrap16 (bytes_to_uint16 (wrap8 hi) (wrap8 lo)) in
   Ret (fmul (float_of_Z (temp - shift param)) (scale param)))%result.

Section Extraction.
Variable buf : list byte.
Variable param : OutputTensorApParams.
Variable maxLineLen_ : Z.          (* this->dnnHeader_.maxLineLen *)
Variable stride : Z.
Variable offset : Z.
Variable outputTensorSize : Z.

Let is_signed : bool := format param =? TYPE_SIGNED.

(** The [while (lineIndex < maxLineLen)] loop of the 8-bit branch; it
    returns [elementIndex] and [tmpDst].  [lineIndex] grows by one in
    every round, so [maxLineLen] rounds of [fuel] are never used up. *)
Fixpoint scanLine8 (fuel : nat) (src lineIndex elementIndex : Z)
    (tmpDst : list float) : result (Z * list float) :=
  match fuel with
  | O => Ret (elementIndex, tmpDst)
  | S fuel' =>
      if lineIndex <? maxLineLen_ then
        (v <- getVal8 is_signed buf (src + lineIndex) param;;
         tmpDst' <- vec_set tmpDst (wrap32 (offset + elementIndex)) v;;
         let elementIndex' := wrap32 (elementIndex + 1) in
         if elementIndex' =? outputTensorSize then Ret (elementIndex', tmpDst')
         else scanLine8 fuel' src (lineIndex + 1) elementIndex' tmpDst')%result
      else Ret (elementIndex, tmpDst)
  end.

(** The [for (i = 0; i < numLines; i++)] loop of the 8-bit branch, over
    the [lines] rounds still to come. *)
Fixpoint scanLines8 (lines : nat) (src elementIndex : Z)
    (tmpDst : list float) : result (list float) :=
  match lines with
  | O => Ret tmpDst
  | S lines' =>
      ('(elementIndex', tmpDst') <-
         scanLine8 (Z.to_nat maxLineLen_) src 0 elementIndex tmpDst;;
       if elementIndex' =? outputTensorSize then Ret tmpDst'
       else scanLines8 lines' (src + stride) elementIndex' tmpDst')%result
  end.

(** The same two loops of the 16-bit branch: the cursor moves by two and
    the scan ends at [outputTensorSize >> 1] elements. *)
Fixpoint scanLine16 (fuel : nat) (src lineIndex elementIndex : Z)
    (tmpDst : list float) : result (Z * list float) :=
  match fuel with
  | O => Ret (elementIndex, tmpDst)
  | S fuel' =>
      if lineIndex <? maxLineLen_ then
        (v <- getVal16 is_signed buf (src + lineIndex) param;;
         tmpDst' <- vec_set tmpDst (wrap32 (offset + elementIndex)) v;;
         let elementIndex' := wrap32 (elementIndex + 1) in
         if Z.shiftr outputTensorSize 1 <=? elementIndex' then Ret (elementIndex', tmpDst')
         else scanLine16 fuel' src (lineIndex + 2) elementIndex' tmpDst')%result
      else Ret (elementIndex, tmpDst)
  end.

Fixpoint scanLines16 (lines : nat) (src elementIndex : Z)
    (tmpDst : list float) : result (list float) :=
  match lines with
  | O => Ret tmpDst
  | S lines' =>
      ('(elementIndex', tmpDst') <-
         scanLine16 (Z.to_nat maxLineLen_) src 0 elementIndex tmpDst;;
       if Z.shiftr outputTensorSize 1 <=? elementIndex' then Ret tmpDst'
       else scanLines16 lines' (src + stride) elementIndex' tmpDst')%result
  end.
End Extraction.

(* ================================================================== *)
(** ** parseOutputTensorBody: reordering *)

Definition DimensionMax : Z := 3.

(** [for (j = start; j > 0; j--) coef *= actualDim.at(j - 1).size]. *)
Fixpoint coefLoop (actualDim : list Dimensions) (j : nat) (coef : Z) : result Z :=
  match j with
  | O => Ret coef
  | S j' =>
      (d <- vec_at actualDim (Z.of_nat j');;
       coefLoop actualDim j' (wrap32 (coef * size d)))%result
  end.

(** The preparation loop over the values [ivals] of [i] still to come.  The
    boolean tells whether the loop was left through [LOG_ERROR; break]. *)
Fixpoint sortPrep (serializedDim actualDim : list Dimensions) (ivals : list nat)
    (loopCnt coef : list Z) : result (list Z * list Z * bool) :=
  match ivals with
  | [] => Ret (loopCnt, coef, false)
  | i :: ivals' =>
      if DimensionMax <=? Z.of_nat i then Ret (loopCnt, coef, true)
      else
        (sd <- vec_at serializedDim (Z.of_nat i);;
         loopCnt' <- vec_set loopCnt (Z.of_nat i) (size sd);;
         c0 <- vec_get coef (Z.of_nat i);;
         c <- coefLoop actualDim (Z.to_nat (serializationIndex sd)) c0;;
         coef' <- vec_set coef (Z.of_nat i) c;;
         sortPrep serializedDim actualDim ivals' loopCnt' coef')%result
  end.

Section SortExecution.
Variable tmpDst : list float.
Variable offset : Z.
Variables c2 c1 c0 : Z.             (* coef[2], coef[1], coef[0] *)

(** The three nested loops; each returns [src_index] and [dst]. *)
Fixpoint sortLoopK (ks : list nat) (i j : Z) (src_index : Z) (dst : list float)
    : result (Z * list float) :=
  match ks with
  | [] => Ret (src_index, dst)
  | k :: ks' =>
      let dst_index := wrap32 (wrap32 (wrap32 (c2 * i) + wrap32 (c1 * j))
                               + wrap32 (c0 * Z.of_nat k)) in
      (v <- vec_get tmpDst (wrap32 (offset + src_index));;
       dst' <- vec_set dst (wrap32 (offset + dst_index)) v;;
       sortLoopK ks' i j (wrap32 (src_index + 1)) dst')%result
  end.

Fixpoint sortLoopJ (n0 : nat) (js : list nat) (i : Z) (src_index : Z)
    (dst : list float) : result (Z * list float) :=
  match js with
  | [] => Ret (src_index, dst)
  | j :: js' =>
      ('(src_index', dst') <- sortLoopK (seq 0 n0) i (Z.of_nat j) src_index dst;;
       sortLoopJ n0 js' i src_index' dst')%result
  end.

Fixpoint sortLoopI (n1 n0 : nat) (ivals : list nat) (src_index : Z)
    (dst : list float) : result (Z * list float) :=
  match ivals with
  | [] => Ret (src_index, dst)
  | i :: ivals' =>
      ('(src_index', dst') <- sortLoopJ n0 (seq 0 n1) (Z.of_nat i) src_index dst;;
       sortLoopI n1 n0 ivals' src_index' dst')%result
  end.
End SortExecution.

Definition sortExec (tmpDst : list float) (offset : Z) (loopCnt coef : list Z)
    (dst : list float) : result (list float) :=
  (n0 <- vec_get loopCnt 0;; n1 <- vec_get loopCnt 1;; n2 <- vec_get loopCnt 2;;
   c0 <- vec_get coef 0;; c1 <- vec_get coef 1;; c2 <- vec_get coef 2;;
   '(_, dst') <- sortLoopI tmpDst offset c2 c1 c0 (Z.to_nat n1) (Z.to_nat n0)
                   (seq 0 (Z.to_nat n2)) 0 dst;;
   Ret dst')%result.

(** [memcpy(dst + offset, tmpDst.data() + offset, n * sizeof(float))]: the
    [n] floats from index [offset] on. *)
Definition memcpy_floats (dst tmpDst : list float) (offset n : Z) : result (list float) :=
  if (offset <? 0) || (n <? 0) then Fault OutOfBoundsWrite
  else if Z.of_nat (length tmpDst) <? offset + n then Fault OutOfBoundsRead
  else if Z.of_nat (length dst) <? offset + n then Fault OutOfBoundsWrite
  else Ret (take (Z.to_nat offset) dst
              ++ take (Z.to_nat n) (drop (Z.to_nat offset) tmpDst)
              ++ drop (Z.to_nat (offset + n)) dst).

(* ================================================================== *)
(** ** parseOutputTensorBody *)

(** Entry [tensorIdx] of the parallel vectors [offsets], [srcArr],
    [numLinesVec], [outSizes], [serializedDims] and [actualDims]. *)
Record TensorPlan : Set := {
  tp_offset : Z;
  tp_src : Z;
  tp_numLines : Z;
  tp_outSize : Z;
  tp_serializedDim : list Dimensions;
  tp_actualDim : list Dimensions
}.

Definition zeroDim : Dimensions :=
  {| ordinal := 0; size := 0; serializationIndex := 0; padding := 0 |}.

Definition set_size (s : Z) (d : Dimensions) : Dimensions :=
  {| ordinal := ordinal d; size := s;
     serializationIndex := serializationIndex d; padding := padding d |}.

Definition set_serializationIndex (s : Z) (d : Dimensions) : Dimensions :=
  {| ordinal := ordinal d; size := size d;
     serializationIndex := s; padding := padding d |}.

Definition set_tensorDataNum (l : list Z) (t : MobileNet) : MobileNet :=
  set_outputBodyInfo
    {| address := address (outputBodyInfo_ t); totalSize := totalSize (outputBodyInfo_ t);
       tensorNum := tensorNum (outputBodyInfo_ t); tensorDataNum := l |} t.

Definition set_address (a : list float) (t : MobileNet) : MobileNet :=
  set_outputBodyInfo
    {| address := a; totalSize := totalSize (outputBodyInfo_ t);
       tensorNum := tensorNum (outputBodyInfo_ t);
       tensorDataNum := tensorDataNum (outputBodyInfo_ t) |} t.

(** The loop over the dimensions of one tensor in the first pass; it
    returns [tensorOutSize], [serializedDim] and [actualDim]. *)
Fixpoint planDims (param : OutputTensorApParams) (idxs : list nat) (tensorOutSize : Z)
    (serializedDim actualDim : list Dimensions)
    : M Z (Z * list Dimensions * list Dimensions) :=
  match idxs with
  | [] => mret (tensorOutSize, serializedDim, actualDim)
  | idx :: idxs' =>
      (d <- lift (vec_at (vecDim param) (Z.of_nat idx));;
       actualDim1 <- lift (vec_upd actualDim (Z.of_nat idx) (set_size (size d)));;
       serializedDim1 <-
         lift (vec_upd serializedDim (serializationIndex d) (set_size (size d)));;
       let tensorOutSize' := wrap32 (tensorOutSize * size d) in
       q1 <- lift (udiv UINT32_MAX (bitsPerElement param));;
       q <- lift (udiv q1 8);;
       if q <=? tensorOutSize' then
         LOG_ERROR "Invalid output tensor info";;;
         return_ (-1)
       else
         actualDim2 <-
           lift (vec_upd actualDim1 (Z.of_nat idx)
                   (set_serializationIndex (serializationIndex d)));;
         serializedDim2 <-
           lift (vec_upd serializedDim1 (serializationIndex d)
                   (set_serializationIndex (wrap8 (Z.of_nat idx))));;
         planDims param idxs' tensorOutSize' serializedDim2 actualDim2)%M
  end.

(** [(uint16_t)std::ceil(tensorOutSize / (float)maxLineLen)]. *)
Definition numLinesOf (tensorOutSize maxLineLen_ : Z) : result Z :=
  to_unsigned 16 (fceil (fdiv (float_of_Z tensorOutSize) (float_of_Z maxLineLen_))).

(** The first pass over the tensors [tensorIdxs] still to come, from the
    running [src1] and [offset]; it returns the plans in tensor order. *)
Fixpoint planTensors (stride : Z) (tensorIdxs : list nat) (src1 offset : Z)
    (plans : list TensorPlan) : M Z (list TensorPlan) :=
  match tensorIdxs with
  | [] => mret plans
  | tensorIdx :: tensorIdxs' =>
      (t <- this;;
       param <- lift (vec_at (outputApParams_ t) (Z.of_nat tensorIdx));;
       let n := Z.to_nat (numDimensions param) in
       '(tensorOutSize, serializedDim, actualDim) <-
          planDims param (seq 0 n) (bitsPerElement param / 8)
            (replicate n zeroDim) (replicate n zeroDim);;
       numLines <- lift (numLinesOf tensorOutSize (maxLineLen (dnnHeader_ t)));;
       let plan := {| tp_offset := offset; tp_src := src1; tp_numLines := numLines;
                      tp_outSize := tensorOutSize;
                      tp_serializedDim := serializedDim; tp_actualDim := actualDim |} in
       let src1' := src1 + wrap32 (numLines * stride) in
       tensorDataNum_ <- lift (udiv tensorOutSize (bitsPerElement param / 8));;
       let offset' := wrap32 (offset + tensorDataNum_) in
       tdn <- lift (vec_set (tensorDataNum (outputBodyInfo_ t)) (Z.of_nat tensorIdx)
                      tensorDataNum_);;
       modify (set_tensorDataNum tdn);;;
       if totalSize (outputBodyInfo_ t) <? offset' then
         LOG_ERROR "Error in parsing output tensor offset > output_size";;;
         return_ (-1)
       else planTensors stride tensorIdxs' src1' offset' (plans ++ [plan]))%M
  end.

(** The ordering of the tensor indices: the two nested loops that swap
    [idxs[i]] and [idxs[j]] whenever the first has more lines. *)
Definition numLinesAt (plans : list TensorPlan) (tensorIdx : Z) : result Z :=
  (p <- vec_get plans tensorIdx;; Ret (tp_numLines p))%result.

Fixpoint orderInner (plans : list TensorPlan) (i : nat) (js : list nat)
    (idxs : list Z) : result (list Z) :=
  match js with
  | [] => Ret idxs
  | j :: js' =>
      (a <- vec_get idxs (Z.of_nat i);;
       b <- vec_get idxs (Z.of_nat j);;
       na <- numLinesAt plans a;;
       nb <- numLinesAt plans b;;
       if nb <? na then
         idxs1 <- vec_set idxs (Z.of_nat i) b;;
         idxs2 <- vec_set idxs1 (Z.of_nat j) a;;
         orderInner plans i js' idxs2
       else orderInner plans i js' idxs)%result
  end.

Fixpoint orderOuter (plans : list TensorPlan) (ivals : list nat)
    (idxs : list Z) : result (list Z) :=
  match ivals with
  | [] => Ret idxs
  | i :: ivals' =>
      (idxs' <- orderInner plans i (seq 0 (length idxs)) idxs;;
       orderOuter plans ivals' idxs')%result
  end.

Definition orderTensors (plans : list TensorPlan) (n : nat) : result (list Z) :=
  let idxs := Z.of_nat <$> seq 0 n in
  orderOuter plans (seq 0 (length idxs)) idxs.

(** [sortingRequired]: some dimension is serialized out of its place. *)
Fixpoint sortingRequiredLoop (param : OutputTensorApParams) (idxs : list nat)
    (sortingRequired : bool) : result bool :=
  match idxs with
  | [] => Ret sortingRequired
  | idx :: idxs' =>
      (d <- vec_at (vecDim param) (Z.of_nat idx);;
       sortingRequiredLoop param idxs'
         (if negb (serializationIndex d =? ordinal d) then true else sortingRequired))%result
  end.

(** The body of the task started for one tensor.  The tasks share [tmpDst],
    which is passed along, and [dst], which points into
    [outputBodyInfo_.address]. *)
Definition tensorTask (buf : list byte) (stride : Z) (plans : list TensorPlan)
    (tensorIdx src offset : Z) (tmpDst : list float)
    : M (Z * list float) (Z * list float) :=
  (plan <- lift (vec_get plans tensorIdx);;
   let outputTensorSize := tp_outSize plan in
   let numLines := tp_numLines plan in
   t <- this;;
   param <- lift (vec_get (outputApParams_ t) tensorIdx);;
   let serializedDim := tp_serializedDim plan in
   let actualDim := tp_actualDim plan in
   sortingRequired <-
     lift (sortingRequiredLoop param (seq 0 (Z.to_nat (numDimensions param))) false);;
   if outputTensorSize =? 0 then
     LOG_ERROR "Invalid output tensorsize (0)";;;
     return_ (-1, tmpDst)
   else
     tmpDst' <-
       (if bitsPerElement param =? 8 then
          lift (scanLines8 buf param (maxLineLen (dnnHeader_ t)) stride offset
                  outputTensorSize (Z.to_nat numLines) src 0 tmpDst)
        else if bitsPerElement param =? 16 then
          lift (scanLines16 buf param (maxLineLen (dnnHeader_ t)) stride offset
                  outputTensorSize (Z.to_nat numLines) src 0 tmpDst)
        else
          LOG_ERROR "Invalid bitsPerElement value";;;
          return_ (-1, tmpDst));;
     let dst := address (outputBodyInfo_ t) in
     if sortingRequired then
       '(loopCnt, coef, tooMany) <-
          lift (sortPrep serializedDim actualDim (seq 0 (Z.to_nat (numDimensions param)))
                  [1; 1; 1] [1; 1; 1]);;
       (if tooMany : bool then LOG_ERROR "numDimensions value is 3 or higher" else mret tt);;;
       dst' <- lift (sortExec tmpDst' offset loopCnt coef dst);;
       modify (set_address dst');;;
       return_ (0, tmpDst')
     else
       dst' <-
         (if bitsPerElement param =? 8 then
            lift (memcpy_floats dst tmpDst' offset outputTensorSize)
          else if bitsPerElement param =? 16 then
            lift (memcpy_floats dst tmpDst' offset (Z.shiftr outputTensorSize 1))
          else
            LOG_ERROR "Invalid bitsPerElement value";;;
            return_ (-1, tmpDst'));;
       modify (set_address dst');;;
       return_ (0, tmpDst'))%M.

(** The tasks, in the order they are started, and the sum of what they
    return. *)
Fixpoint runTasks (buf : list byte) (stride : Z) (plans : list TensorPlan)
    (idxs : list Z) (tmpDst : list float) (ret : Z) : M Z Z :=
  match idxs with
  | [] => mret ret
  | tensorIdx :: idxs' =>
      (plan <- lift (vec_get plans tensorIdx);;
       '(r, tmpDst') <- call (tensorTask buf stride plans (to_signed 32 tensorIdx)
                                (tp_src plan) (to_signed 32 (tp_offset plan)) tmpDst);;
       runTasks buf stride plans idxs' tmpDst' (to_signed 32 (ret + r)))%M
  end.

Definition parseOutputTensorBody (buf : list byte) (src stride : Z) : M Z Z :=
  (t <- this;;
   if UINT32_MAX / sizeof_float <? totalSize (outputBodyInfo_ t) then
     LOG_ERROR "totalSize is greater than maximum size";;;
     return_ (-1)
   else
     let tmpDst := replicate (Z.to_nat (totalSize (outputBodyInfo_ t))) fzero in
     let n := length (outputApParams_ t) in
     plans <- planTensors stride (seq 0 n) src 0 [];;
     idxs <- lift (orderTensors plans n);;
     ret <- runTasks buf stride plans idxs tmpDst 0;;
     return_ ret)%M.

(* ================================================================== *)
(** ** The detection interpreter *)

Definition emptyOutputTensor : ObjectDetectionSsdOutputTensor :=
  {| numDetections := 0; bboxes := []; scores := []; classes := [] |}.

Definition emptySsdData : ObjectDetectionSsdData :=
  {| dNumDetections := 0; vBbox := []; vScores := []; vClasses := [] |}.

Definition push_bbox (b : Bbox) (o : ObjectDetectionSsdOutputTensor) :=
  {| numDetections := numDetections o; bboxes := bboxes o ++ [b];
     scores := scores o; classes := classes o |}.
Definition push_class (c : float) (o : ObjectDetectionSsdOutputTensor) :=
  {| numDetections := numDetections o; bboxes := bboxes o;
     scores := scores o; classes := classes o ++ [c] |}.
Definition push_score (s : float) (o : ObjectDetectionSsdOutputTensor) :=
  {| numDetections := numDetections o; bboxes := bboxes o;
     scores := scores o ++ [s]; classes := classes o |}.
Definition set_numDetections (n : Z) (o : ObjectDetectionSsdOutputTensor) :=
  {| numDetections := n; bboxes := bboxes o; scores := scores o; classes := classes o |}.

(** The functions below return the status together with [output], which
    the source fills through a reference. *)
Definition SsdRet : Set := Z * ObjectDetectionSsdOutputTensor.

Fixpoint extractBoxes (data : list float) (totalDetections count : Z) (ivals : list nat)
    (output : ObjectDetectionSsdOutputTensor) : result ObjectDetectionSsdOutputTensor :=
  match ivals with
  | [] => Ret output
  | i :: ivals' =>
      let i_ := Z.of_nat i in
      (y0 <- vec_at data (wrap32 (count + i_));;
       x0 <- vec_at data (wrap32 (wrap32 (count + i_) + wrap32 (1 * totalDetections)));;
       y1 <- vec_at data (wrap32 (wrap32 (count + i_) + wrap32 (2 * totalDetections)));;
       x1 <- vec_at data (wrap32 (wrap32 (count + i_) + wrap32 (3 * totalDetections)));;
       extractBoxes data totalDetections count ivals'
         (push_bbox {| xMin := x0; yMin := y0; xMax := x1; yMax := y1 |} output))%result
  end.

(** The class and score loops: [push] is the [push_back] of the field. *)
Fixpoint extractField (push : float -> ObjectDetectionSsdOutputTensor ->
                              ObjectDetectionSsdOutputTensor)
    (data : list float) (ivals : list nat) (count : Z)
    (output : ObjectDetectionSsdOutputTensor)
    : M SsdRet (Z * ObjectDetectionSsdOutputTensor) :=
  match ivals with
  | [] => mret (count, output)
  | _ :: ivals' =>
      if PplDnnOutputTensorSize <? count then
        (LOG_ERROR "Invalid count index";;;
         return_ (-1, output))%M
      else
        (v <- lift (vec_at data count);;
         extractField push data ivals' (wrap32 (count + 1)) (push v output))%M
  end.

Definition createObjectDetectionSsdData (output : ObjectDetectionSsdOutputTensor)
    (data : list float) (totalDetections : Z) : M SsdRet SsdRet :=
  (let count := 0 in
   if PplDnnOutputTensorSize <? wrap32 (count + wrap32 (totalDetections * 4)) then
     LOG_ERROR "Invalid count index";;;
     return_ (-1, output)
   else
     let n := Z.to_nat totalDetections in
     output1 <- lift (extractBoxes data totalDetections count (seq 0 n) output);;
     let count1 := wrap32 (count + wrap32 (totalDetections * 4)) in
     '(count2, output2) <- extractField push_class data (seq 0 n) count1 output1;;
     '(count3, output3) <- extractField push_score data (seq 0 n) count2 output2;;
     if PplDnnOutputTensorSize <? count3 then
       LOG_ERROR "Invalid count index";;;
       return_ (-1, output3)
     else
       v <- lift (vec_at data count3);;
       numDetections0 <- lift (to_unsigned 32 (ftrunc v));;
       numDetections1 <-
         (if totalDetections <? numDetections0 then
            LOG_ERROR "Unexpected value for numDetections";;;
            mret totalDetections
          else mret numDetections0);;
       return_ (0, set_numDetections numDetections1 output3))%M.

(** One pixel coordinate: [(uint16_t)(round(v * (extent - 1)))]. *)
Definition toPixel (v : float) (extent : Z) : result Z :=
  to_unsigned 16 (fround (fmul v (float_of_Z (wrap32 (extent - 1))))).

Definition push_detection (s : float) (b : PplBbox) (c : Z) (d : ObjectDetectionSsdData) :=
  {| dNumDetections := dNumDetections d; vBbox := vBbox d ++ [b];
     vScores := vScores d ++ [s]; vClasses := vClasses d ++ [c] |}.

(** The filter loop of [analyseObjectDetectionSsdOutput]. *)
Fixpoint filterDetections (tensor : ObjectDetectionSsdOutputTensor) (threshold : float)
    (dim : Size) (ivals : list nat) (data : ObjectDetectionSsdData)
    : result ObjectDetectionSsdData :=
  match ivals with
  | [] => Ret data
  | i :: ivals' =>
      (s <- vec_get (scores tensor) (Z.of_nat i);;
       if flt s threshold then filterDetections tensor threshold dim ivals' data
       else
         b <- vec_get (bboxes tensor) (Z.of_nat i);;
         x0 <- toPixel (xMin b) (width dim);;
         y0 <- toPixel (yMin b) (height dim);;
         x1 <- toPixel (xMax b) (width dim);;
         y1 <- toPixel (yMax b) (height dim);;
         c <- vec_get (classes tensor) (Z.of_nat i);;
         c8 <- to_unsigned 8 (ftrunc c);;
         filterDetections tensor threshold dim ivals'
           (push_detection s {| mXmin := x0; mYmin := y0; mXmax := x1; mYmax := y1 |}
              c8 data))%result
  end.

Definition analyseObjectDetectionSsdOutput (tensor : ObjectDetectionSsdOutputTensor)
    (maxDetections : Z) (threshold : float) (dim : Size)
    : result ObjectDetectionSsdData :=
  (data <- filterDetections tensor threshold dim
             (seq 0 (Z.to_nat (numDetections tensor))) emptySsdData;;
   let n := wrap32 (Z.of_nat (length (vClasses data))) in
   if maxDetections <? n then
     Ret {| dNumDetections := maxDetections;
            vBbox := take (Z.to_nat maxDetections) (vBbox data);
            vScores := take (Z.to_nat maxDetections) (vScores data);
            vClasses := take (Z.to_nat maxDetections) (vClasses data) |}
   else
     Ret {| dNumDetections := n; vBbox := vBbox data;
            vScores := vScores data; vClasses := vClasses data |})%result.

Definition processOutputTensor : M ObjectDetectionSsdData ObjectDetectionSsdData :=
  (t <- this;;
   if negb (totalSize (outputBodyInfo_ t) =? PplDnnOutputTensorSize) then
     LOG_ERROR "Invalid totalSize";;;
     return_ emptySsdData
   else
     '(ret, output) <- call (createObjectDetectionSsdData emptyOutputTensor
                               (address (outputBodyInfo_ t)) PplTotalDetections);;
     if negb (ret =? 0) then
       LOG_ERROR "Failed to create SSD data";;;
       return_ emptySsdData
     else
       data <- lift (analyseObjectDetectionSsdOutput output (maxDetections_ t)
                       (threshold_ t) (stream_size t));;
       return_ data)%M.

(* ================================================================== *)
(** ** Process *)

(** What [Process] sees of the completed request: the
    [Imx500OutputTensor] control of its metadata, and the entry
    ["object_detect.results"] of its post-processing metadata. *)
Record CompletedRequest : Set := {
  Imx500OutputTensor : option (list byte);
  object_detect_results : option (list Detection)
}.

Definition set_results (d : list Detection) (r : CompletedRequest) : CompletedRequest :=
  {| Imx500OutputTensor := Imx500OutputTensor r; object_detect_results := Some d |}.

(** The loop that builds the [Detection]s. *)
Fixpoint makeDetections (classes : list string) (data : ObjectDetectionSsdData)
    (ivals : list nat) (detections : list Detection) : result (list Detection) :=
  match ivals with
  | [] => Ret detections
  | i :: ivals' =>
      (c <- vec_get (vClasses data) (Z.of_nat i);;
       if negb (c <? Z.of_nat (length classes)) then Fault AssertionFailed
       else
         n <- vec_get classes c;;
         s <- vec_get (vScores data) (Z.of_nat i);;
         b <- vec_get (vBbox data) (Z.of_nat i);;
         makeDetections classes data ivals'
           (detections ++ [ {| category := c; det_name := n; confidence := s;
                               box_x := mXmin b; box_y := mYmin b;
                               box_w := mXmax b - mXmin b;
                               box_h := mYmax b - mYmin b |} ]))%result
  end.

Section Stage.

Variable GetFBApParams : list byte -> FBApParams.

(** [Process] returns its boolean together with the request, which the
    source changes through a reference. *)
Definition Process (completed_request : CompletedRequest)
    : M (bool * CompletedRequest) (bool * CompletedRequest) :=
  match Imx500OutputTensor completed_request with
  | None =>
      (LOG_ERROR "No output tensor found in metadata!";;;
       return_ (false, completed_request))%M
  | Some buf =>
      (let src := 0 in
       let stride := 4064 in
       ret <- call (parseHeader buf src stride);;
       if negb (ret =? 0) then
         LOG_ERROR "Header param parsing failed!";;;
         return_ (false, completed_request)
       else
       ret <- call (parseApParams GetFBApParams);;
       if negb (ret =? 0) then
         LOG_ERROR "AP param parsing failed!";;;
         return_ (false, completed_request)
       else
       ret <- call populateOutputBodyInfo;;
       if negb (ret =? 0) then
         LOG_ERROR "Failed to populate OutputBodyInfo!";;;
         return_ (false, completed_request)
       else
       ret <- call (parseOutputTensorBody buf (src + stride) stride);;
       if negb (ret =? 0) then
         LOG_ERROR "Output tensor body parsing failed!";;;
         return_ (false, completed_request)
       else
       data <- call processOutputTensor;;
       if negb (dNumDetections data =? 0) then
         t <- this;;
         detections <- lift (makeDetections (classes_ t) data
                               (seq 0 (Z.to_nat (dNumDetections data))) []);;
         return_ (false, set_results detections completed_request)
       else
         return_ (false, completed_request))%M
  end.

End Stage.

(* ================================================================== *)
(** * Properties *)

(** ** Memory and vector accesses inside their object *)

Lemma loadb_Ret (buf : list byte) (p : Z) (b : byte) :
  0 <= p -> buf !! Z.to_nat p = Some b -> loadb buf p = Ret b.
Proof.
  intros Hp Hb. unfold loadb.
  destruct (Z.ltb_spec p 0) as [?|_]; [lia|]. now rewrite Hb.
Qed.

Lemma loadb_inv (buf : list byte) (p : Z) (b : byte) :
  loadb buf p = Ret b -> 0 <= p /\ buf !! Z.to_nat p = Some b.
Proof.
  unfold loadb. destruct (Z.ltb_spec p 0) as [?|?]; [discriminate|].
  destruct (buf !! Z.to_nat p) eqn:E; [|discriminate].
  intros [= ->]. split; [lia|reflexivity].
Qed.

Lemma load_Ret (buf : list byte) (p : Z) (b : byte) :
  loadb buf p = Ret b -> load buf p = Ret (u8 b).
Proof. intros H. unfold load. now rewrite H. Qed.

Lemma u8_range (b : byte) : 0 <= u8 b < 256.
Proof.
  unfold u8. pose proof (Byte.to_N_bounded b) as H.
  split; lia.
Qed.

Section VectorFacts.
Context {A : Type}.
Implicit Types (v : list A) (i : Z) (a : A).

Lemma vec_set_Ret v i a :
  0 <= i -> (Z.to_nat i < length v)%nat ->
  vec_set v i a = Ret (<[Z.to_nat i := a]> v).
Proof.
  intros Hi Hlt. unfold vec_set.
  destruct (Z.ltb_spec i 0) as [?|_]; [lia|].
  destruct (Nat.ltb_spec (Z.to_nat i) (length v)) as [_|?]; [reflexivity|lia].
Qed.

Lemma vec_set_inv v i a v' :
  vec_set v i a = Ret v' ->
  0 <= i /\ (Z.to_nat i < length v)%nat /\ v' = <[Z.to_nat i := a]> v.
Proof.
  unfold vec_set. destruct (Z.ltb_spec i 0) as [?|?]; [discriminate|].
  destruct (Nat.ltb_spec (Z.to_nat i) (length v)) as [?|?]; [|discriminate].
  intros [= <-]. split; [lia|split; [assumption|reflexivity]].
Qed.

Lemma vec_get_Ret v i a :
  0 <= i -> v !! Z.to_nat i = Some a -> vec_get v i = Ret a.
Proof.
  intros Hi Ha. unfold vec_get.
  destruct (Z.ltb_spec i 0) as [?|_]; [lia|]. now rewrite Ha.
Qed.

Lemma vec_get_inv v i a :
  vec_get v i = Ret a -> 0 <= i /\ v !! Z.to_nat i = Some a.
Proof.
  unfold vec_get. destruct (Z.ltb_spec i 0) as [?|?]; [discriminate|].
  destruct (v !! Z.to_nat i) eqn:E; [|discriminate].
  intros [= ->]. split; [lia|reflexivity].
Qed.

Lemma vec_at_Ret v i a :
  0 <= i -> v !! Z.to_nat i = Some a -> vec_at v i = Ret a.
Proof.
  intros Hi Ha. unfold vec_at.
  destruct (Z.ltb_spec i 0) as [?|_]; [lia|]. now rewrite Ha.
Qed.

Lemma vec_at_inv v i a :
  vec_at v i = Ret a -> 0 <= i /\ v !! Z.to_nat i = Some a.
Proof.
  unfold vec_at. destruct (Z.ltb_spec i 0) as [?|?]; [discriminate|].
  destruct (v !! Z.to_nat i) eqn:E; [|discriminate].
  intros [= ->]. split; [lia|reflexivity].
Qed.
End VectorFacts.

Lemma wrap32_small (z : Z) : 0 <= z < 2 ^ 32 -> wrap32 z = z.
Proof. intros H. unfold wrap32, wrap. now apply Z.mod_small. Qed.

Lemma wrap32_range (z : Z) : 0 <= wrap32 z < 2 ^ 32.
Proof. unfold wrap32, wrap. apply Z.mod_pos_bound. lia. Qed.

(* ================================================================== *)
(** ** The header parser de-stripes the schema *)

(** The copy loop, started at [j0] with the cursor at linear offset
    [DnnHeaderSize + j0] of the buffer at [base], reads the bytes at the
    linear offsets [DnnHeaderSize + j] in turn. *)
Lemma copyApParams_linear (buf : list byte) (stride base : Z) :
  0 < stride < 2 ^ 32 -> 0 <= base ->
  forall (n j0 : nat) (src i : Z) (ap : list byte),
    0 <= i <= stride ->
    src + i = base + DnnHeaderSize + Z.of_nat j0 ->
    base + DnnHeaderSize + Z.of_nat j0 + Z.of_nat n <= Z.of_nat (length buf) ->
    (j0 + n <= length ap)%nat ->
    exists ap',
      copyApParams buf stride (seq j0 n) src i ap = Ret ap' /\
      length ap' = length ap /\
      (forall j, (j0 <= j < j0 + n)%nat ->
         ap' !! j = buf !! Z.to_nat (base + DnnHeaderSize + Z.of_nat j)) /\
      (forall j, (j < j0)%nat -> ap' !! j = ap !! j).
Proof.
  intros Hstride Hbase. unfold DnnHeaderSize.
  induction n as [|n IH]; intros j0 src i ap Hi Hsum Hbuf Hap.
  - exists ap. cbn. split; [reflexivity|]. split; [reflexivity|].
    split; [intros j Hj; lia|reflexivity].
  - cbn [seq copyApParams].
    set (wrapped := negb (stride =? 0) && (stride <=? i)).
    set (src' := if wrapped then src + (stride + MipiPhSize) else src).
    set (i' := if wrapped then 0 else i).
    assert (Hi' : 0 <= i' < stride /\ src' + i' = base + 12 + Z.of_nat j0).
    { subst wrapped src' i'. unfold MipiPhSize.
      destruct (Z.eqb_spec stride 0) as [?|_]; [lia|].
      destruct (Z.leb_spec stride i); cbn; lia. }
    destruct Hi' as [Hi' Hsum'].
    destruct (lookup_lt_is_Some_2 buf (Z.to_nat (base + 12 + Z.of_nat j0))) as [b Hb]; [lia|].
    rewrite Hsum'. rewrite (loadb_Ret _ _ b) by (assumption || lia). cbn [rbind].
    rewrite vec_set_Ret by lia. cbn [rbind]. rewrite Nat2Z.id.
    rewrite wrap32_small by lia.
    destruct (IH (S j0) src' (i' + 1) (<[j0 := b]> ap)) as (ap' & Hrun & Hlen & Hnew & Hold).
    + lia.
    + lia.
    + lia.
    + rewrite length_insert. lia.
    + exists ap'. split; [exact Hrun|]. rewrite length_insert in Hlen.
      split; [exact Hlen|]. split.
      * intros j Hj. destruct (decide (j = j0)) as [->|Hne].
        -- rewrite Hold by lia. rewrite list_lookup_insert_eq by lia. now rewrite Hb.
        -- apply Hnew. lia.
      * intros j Hj. rewrite Hold by lia. apply list_lookup_insert_ne. lia.
Qed.

Lemma load_range (buf : list byte) (p z : Z) :
  load buf p = Ret z -> 0 <= z < 256.
Proof.
  unfold load. destruct (loadb buf p) as [b|]; [|discriminate].
  intros [= <-]. apply u8_range.
Qed.

(** A header that was read has fields of the width of their types. *)
Lemma read_DnnHeader_range (buf : list byte) (src : Z) (h : DnnHeader) :
  read_DnnHeader buf src = Ret h ->
  0 <= frameValid h < 256 /\ 0 <= maxLineLen h < 65536 /\
  0 <= apParamSize h < 65536 /\ 0 <= networkId h < 65536.
Proof.
  unfold read_DnnHeader, rbind.
  repeat match goal with
         | |- context [load buf ?p] =>
             let E := fresh "E" in
             destruct (load buf p) eqn:E; [apply load_range in E|discriminate]
         end.
  intros [= <-]. cbn. lia.
Qed.

(** C3. For a stride above 12 and a valid frame whose header announces a
    schema of [N] bytes, [parseHeader] succeeds and byte [j] of the
    recovered schema is the buffer byte at line [(12 + j) / stride], offset
    [(12 + j) mod stride]: the bytes from offset 12 of the first line on,
    and after each wrap the bytes from offset 0 of the next line. *)
Theorem parseHeader_destripes (buf : list byte) (src stride : Z) (w : World)
    (h : DnnHeader) :
  12 < stride < 2 ^ 32 ->
  0 <= src ->
  read_DnnHeader buf src = Ret h ->
  frameValid h <> 0 ->
  src + 12 + apParamSize h <= Z.of_nat (length buf) ->
  exists w',
    exec (parseHeader buf src stride) w = Ret (0, w') /\
    errlog w' = errlog w /\
    dnnHeader_ (self w') = h /\
    Z.of_nat (length (apParams_ (self w'))) = apParamSize h /\
    forall j, 0 <= j < apParamSize h ->
      let line := (12 + j) / stride in
      let off := (12 + j) mod stride in
      apParams_ (self w') !! Z.to_nat j = buf !! Z.to_nat (src + line * stride + off).
Proof.
  intros Hstride Hsrc Hh Hvalid Hlen.
  pose proof (read_DnnHeader_range _ _ _ Hh) as (_ & _ & Hsize & _).
  destruct (copyApParams_linear buf stride src ltac:(lia) Hsrc
              (Z.to_nat (apParamSize h)) 0%nat src DnnHeaderSize
              (resize (Z.to_nat (apParamSize h)) x00%byte (apParams_ (self w))))
    as (ap & Hrun & Hlen' & Hnew & _).
  - unfold DnnHeaderSize; lia.
  - unfold DnnHeaderSize; lia.
  - unfold DnnHeaderSize; lia.
  - rewrite length_resize. lia.
  - exists {| self := set_apParams ap (set_dnnHeader h (self w)); errlog := errlog w |}.
    split.
    { unfold exec, parseHeader, mbind, lift, modify, this, return_. rewrite Hh. cbn.
      destruct (Z.eqb_spec (frameValid h) 0) as [?|_]; [contradiction|].
      cbn. rewrite Hrun. reflexivity. }
    cbn [self errlog apParams_ set_apParams dnnHeader_ set_dnnHeader].
    split; [reflexivity|]. split; [reflexivity|]. split.
    { rewrite Hlen', length_resize. lia. }
    intros j Hj. rewrite Hnew by lia. unfold DnnHeaderSize.
    f_equal. f_equal.
    pose proof (Z.div_mod (12 + j) stride ltac:(lia)). lia.
Qed.

(* ================================================================== *)
(** ** The layout planner *)

(** The element count of a descriptor and the total of a descriptor list,
    as mathematical integers. *)
Definition trueProduct (dims : list Dimensions) : Z :=
  foldr (fun d p => size d * p) 1 dims.

Definition trueTotal (aps : list OutputTensorApParams) : Z :=
  foldr (fun ap t => trueProduct (vecDim ap) + t) 0 aps.

Definition nonzeroDims (dims : list Dimensions) : Prop :=
  Forall (fun d => 0 < size d) dims.

Definition nonzeroParams (aps : list OutputTensorApParams) : Prop :=
  Forall (fun ap => nonzeroDims (vecDim ap)) aps.

(** The world after [LOG_ERROR msg]. *)
Definition logged (w : World) (msg : string) : World :=
  {| self := self w; errlog := errlog w ++ [msg] |}.

Lemma trueProduct_pos (dims : list Dimensions) :
  nonzeroDims dims -> 1 <= trueProduct dims.
Proof.
  induction 1 as [|d dims Hd _ IH].
  - unfold trueProduct; cbn. lia.
  - change (trueProduct (d :: dims)) with (size d * trueProduct dims). nia.
Qed.

Lemma trueTotal_nonneg (aps : list OutputTensorApParams) :
  nonzeroParams aps -> 0 <= trueTotal aps.
Proof.
  induction 1 as [|ap aps Hap _ IH].
  - unfold trueTotal; cbn. lia.
  - change (trueTotal (ap :: aps)) with (trueProduct (vecDim ap) + trueTotal aps).
    pose proof (trueProduct_pos _ Hap). lia.
Qed.

Lemma trueTotal_ge (aps : list OutputTensorApParams) (ap : OutputTensorApParams) :
  nonzeroParams aps -> ap ∈ aps -> trueProduct (vecDim ap) <= trueTotal aps.
Proof.
  induction 1 as [|ap' aps Hap Haps IH]; intros Hin.
  - inversion Hin.
  - change (trueTotal (ap' :: aps)) with (trueProduct (vecDim ap') + trueTotal aps).
    pose proof (trueProduct_pos _ Hap). pose proof (trueTotal_nonneg _ Haps).
    apply elem_of_cons in Hin as [->|Hin]; [lia|]. specialize (IH Hin). lia.
Qed.

(** The guarded product never wraps: it ends with the exact product, below
    [UINT32_MAX], or with the error return. *)
Lemma dimensionProduct_cases (dims : list Dimensions) :
  nonzeroDims dims ->
  forall (acc : Z) (w : World), 1 <= acc <= UINT32_MAX ->
    (dimensionProduct dims acc w = Val (acc * trueProduct dims) w /\
     acc * trueProduct dims <= UINT32_MAX) \/
    dimensionProduct dims acc w = Rtn (-1) (logged w "Invalid totalDimensionSize").
Proof.
  unfold UINT32_MAX.
  induction 1 as [|d dims Hd Hdims IH]; intros acc w Hacc.
  - left. change (trueProduct []) with 1. cbn. rewrite Z.mul_1_r. split; [reflexivity|lia].
  - change (trueProduct (d :: dims)) with (size d * trueProduct dims).
    cbn [dimensionProduct].
    unfold mbind, lift, udiv.
    destruct (Z.eqb_spec (size d) 0) as [?|_]; [lia|].
    destruct (Z.leb_spec (UINT32_MAX / size d) acc) as [Hge|Hlt].
    + right. reflexivity.
    + unfold UINT32_MAX in Hlt.
      pose proof (Z.mul_div_le 4294967295 (size d) Hd) as Hmul.
      assert (Hprod : 1 <= acc * size d <= 4294967295) by nia.
      rewrite wrap32_small by lia.
      destruct (IH (acc * size d) w Hprod) as [[Hrun Hle]|Hrun].
      * left.
        replace (acc * (size d * trueProduct dims)) with (acc * size d * trueProduct dims) by ring.
        split; assumption.
      * right. exact Hrun.
Qed.

Lemma totalOutputSize_cases (aps : list OutputTensorApParams) :
  nonzeroParams aps ->
  forall (acc : Z) (w : World), 0 <= acc <= UINT32_MAX ->
    (totalOutputSize aps acc w = Val (acc + trueTotal aps) w /\
     acc + trueTotal aps <= UINT32_MAX) \/
    (exists msg,
        (msg = "Invalid totalDimensionSize" \/ msg = "Invalid totalOutSize")%string /\
        totalOutputSize aps acc w = Rtn (-1) (logged w msg)).
Proof.
  induction 1 as [|ap aps Hap Haps IH]; intros acc w Hacc.
  - left. change (trueTotal []) with 0. cbn. rewrite Z.add_0_r. split; [reflexivity|lia].
  - change (trueTotal (ap :: aps)) with (trueProduct (vecDim ap) + trueTotal aps).
    cbn [totalOutputSize]. unfold mbind.
    pose proof (trueProduct_pos _ Hap) as Hpos.
    destruct (dimensionProduct_cases _ Hap 1 w ltac:(unfold UINT32_MAX; lia))
      as [[Hrun Hle]|Hrun]; rewrite Hrun.
    + rewrite Z.mul_1_l in *. unfold UINT32_MAX in *.
      rewrite (wrap32_small (4294967295 - _)) by lia.
      destruct (Z.leb_spec (4294967295 - trueProduct (vecDim ap)) acc) as [Hge|Hlt].
      * right. exists "Invalid totalOutSize"%string. split; [now right|reflexivity].
      * rewrite wrap32_small by lia.
        destruct (IH (acc + trueProduct (vecDim ap)) w ltac:(lia)) as [[Hrun' Hle']|Hrun'].
        -- left. rewrite Z.add_assoc. split; assumption.
        -- right. exact Hrun'.
    + right. exists "Invalid totalDimensionSize"%string. split; [now left|reflexivity].
Qed.

(** Overflow safety of the planner on descriptors without a zero size: an
    element count or a total beyond [UINT32_MAX] ends the planner with the
    error return, after one of the two overflow messages and before
    anything is stored. *)
Lemma populateOutputBodyInfo_overflow (w : World) :
  let aps := outputApParams_ (self w) in
  nonzeroParams aps ->
  (exists ap, ap ∈ aps /\ UINT32_MAX < trueProduct (vecDim ap)) \/
    UINT32_MAX < trueTotal aps ->
  exists msg,
    (msg = "Invalid totalDimensionSize" \/ msg = "Invalid totalOutSize")%string /\
    exec populateOutputBodyInfo w = Ret (-1, logged w msg).
Proof.
  intros aps Hnz Hover.
  assert (Htot : UINT32_MAX < trueTotal aps).
  { destruct Hover as [(ap & Hin & Hap)|?]; [|assumption].
    pose proof (trueTotal_ge _ _ Hnz Hin). lia. }
  destruct (totalOutputSize_cases aps Hnz 0 w ltac:(unfold UINT32_MAX; lia))
    as [[_ Hle]|(msg & Hmsg & Hrun)]; [lia|].
  exists msg. split; [exact Hmsg|].
  unfold exec, populateOutputBodyInfo, mbind, this. fold aps. now rewrite Hrun.
Qed.

(** Whenever the planner succeeds on such descriptors, the total it stores
    is the exact sum of the exact element counts. *)
Lemma populateOutputBodyInfo_exact (w w' : World) :
  let aps := outputApParams_ (self w) in
  nonzeroParams aps ->
  exec populateOutputBodyInfo w = Ret (0, w') ->
  totalSize (outputBodyInfo_ (self w')) = trueTotal aps /\
  0 < trueTotal aps < UINT32_MAX / sizeof_float /\
  address (outputBodyInfo_ (self w')) = replicate (Z.to_nat (trueTotal aps)) fzero /\
  outputApParams_ (self w') = aps /\
  errlog w' = errlog w.
Proof.
  intros aps Hnz.
  unfold exec, populateOutputBodyInfo, mbind at 1, this. fold aps.
  unfold mbind at 1.
  destruct (totalOutputSize_cases aps Hnz 0 w ltac:(unfold UINT32_MAX; lia))
    as [[Hrun Hle]|(msg & Hmsg & Hrun)]; rewrite Hrun; [|discriminate].
  rewrite Z.add_0_l in *.
  destruct (Z.eqb_spec (trueTotal aps) 0) as [?|Hne]; [discriminate|].
  destruct (Z.leb_spec (UINT32_MAX / sizeof_float) (trueTotal aps)) as [?|Hlt];
    [discriminate|].
  unfold mbind, modify, LOG_ERROR, return_. cbn [self errlog].
  destruct (wrap32 (Z.of_nat (length aps)) =? 0); [discriminate|].
  destruct (UINT32_MAX / sizeof_uint32 <=? wrap32 (Z.of_nat (length aps))); [discriminate|].
  intros [= <-]. cbn.
  pose proof (trueTotal_nonneg _ Hnz). repeat split; try reflexivity; lia.
Qed.

(* ================================================================== *)
(** ** Dequantisation of the tensor bodies *)

(** The value the source computes from a raw sample. *)
Definition dequantize (param : OutputTensorApParams) (raw : Z) : float :=
  fmul (float_of_Z (raw - shift param)) (scale param).

(** A source byte as an [int8_t] or a [uint8_t]. *)
Definition raw8 (is_signed : bool) (b : byte) : Z :=
  if is_signed then to_signed 8 (u8 b) else u8 b.

Lemma wrap8_u8 (b : byte) : wrap8 (u8 b) = u8 b.
Proof. unfold wrap8, wrap. apply Z.mod_small. apply u8_range. Qed.

Lemma getVal8_Ret (T_signed : bool) (buf : list byte) (p : Z) (b : byte)
    (param : OutputTensorApParams) :
  0 <= p -> buf !! Z.to_nat p = Some b ->
  getVal8 T_signed buf p param = Ret (dequantize param (raw8 T_signed b)).
Proof.
  intros Hp Hb. unfold getVal8.
  rewrite (load_Ret _ _ b) by now apply loadb_Ret.
  cbn [rbind]. unfold dequantize, raw8. now rewrite wrap8_u8.
Qed.

Section Scan8.
Variable buf : list byte.
Variable param : OutputTensorApParams.
Variable mll stride offset outSize : Z.

Hypothesis Hmll : 0 <= mll.
Hypothesis Hstride : 0 <= stride.
Hypothesis Hoffset : 0 <= offset.
Hypothesis HoutSize : 0 < outSize.
Hypothesis Hnowrap : offset + outSize < 2 ^ 32.

Let sgn : bool := format param =? TYPE_SIGNED.

(** The sample stored in the byte at [p], dequantised. *)
Definition sample8 (p : Z) : option float :=
  (fun b => dequantize param (raw8 sgn b)) <$> buf !! Z.to_nat p.

(** One line: from cursor [li] and element [e], the loop decodes the next
    [cnt] bytes of the line into the next [cnt] elements, where [cnt] is
    what is left of the line or of the tensor, whichever is less. *)
Lemma scanLine8_spec (fuel : nat) :
  forall (src li e : Z) (tmp : list float),
    0 <= src -> 0 <= li -> 0 <= e < outSize ->
    mll - li <= Z.of_nat fuel ->
    offset + outSize <= Z.of_nat (length tmp) ->
    let cnt := Z.max 0 (Z.min (mll - li) (outSize - e)) in
    (forall k, 0 <= k < cnt -> src + li + k < Z.of_nat (length buf)) ->
    exists tmp',
      scanLine8 buf param mll offset outSize fuel src li e tmp = Ret (e + cnt, tmp') /\
      length tmp' = length tmp /\
      (forall k, 0 <= k < cnt ->
         is_Some (sample8 (src + li + k)) /\
         tmp' !! Z.to_nat (offset + e + k) = sample8 (src + li + k)) /\
      (forall i : nat, ~ (offset + e <= Z.of_nat i < offset + e + cnt) ->
         tmp' !! i = tmp !! i).
Proof.
  induction fuel as [|fuel' IH]; intros src li e tmp Hsrc Hli He Hfuel Htmp cnt Hbuf.
  - assert (cnt = 0) by lia. exists tmp. cbn. replace (e + cnt) with e by lia.
    split; [reflexivity|]. split; [reflexivity|]. split; [intros; lia|reflexivity].
  - cbn [scanLine8]. destruct (Z.ltb_spec li mll) as [Hlt|Hge].
    + assert (Hcnt : 1 <= cnt) by lia.
      destruct (lookup_lt_is_Some_2 buf (Z.to_nat (src + li))) as [b Hb].
      { specialize (Hbuf 0). lia. }
      rewrite (getVal8_Ret _ _ _ b) by (lia || assumption). cbn [rbind].
      rewrite (wrap32_small (offset + e)) by lia.
      rewrite vec_set_Ret by lia. cbn [rbind].
      rewrite (wrap32_small (e + 1)) by lia.
      set (v := dequantize param (raw8 (format param =? TYPE_SIGNED) b)).
      set (tmp1 := <[Z.to_nat (offset + e) := v]> tmp).
      assert (Hv : sample8 (src + li) = Some v).
      { unfold sample8. now rewrite Hb. }
      destruct (Z.eqb_spec (e + 1) outSize) as [Hlast|Hmore].
      * assert (cnt = 1) by lia. exists tmp1. replace (e + cnt) with (e + 1) by lia.
        split; [reflexivity|]. split; [apply length_insert|]. split.
        -- intros k Hk. assert (k = 0) as -> by lia. rewrite !Z.add_0_r.
           rewrite Hv. split; [eauto|]. subst tmp1. apply list_lookup_insert_eq. lia.
        -- intros i Hi. subst tmp1. apply list_lookup_insert_ne. lia.
      * destruct (IH src (li + 1) (e + 1) tmp1) as (tmp' & Hrun & Hlen & Hnew & Hold).
        -- lia.
        -- lia.
        -- lia.
        -- lia.
        -- subst tmp1. rewrite length_insert. lia.
        -- intros k Hk. specialize (Hbuf (k + 1)). lia.
        -- exists tmp'.
           replace (e + 1 + Z.max 0 (Z.min (mll - (li + 1)) (outSize - (e + 1))))
             with (e + cnt) in Hrun by lia.
           split; [exact Hrun|]. split.
           { rewrite Hlen. apply length_insert. }
           split.
           ++ intros k Hk. destruct (Z.eq_dec k 0) as [->|Hk0].
              ** rewrite !Z.add_0_r, Hv. split; [eauto|].
                 rewrite Hold by lia. subst tmp1. apply list_lookup_insert_eq. lia.
              ** specialize (Hnew (k - 1) ltac:(lia)).
                 replace (src + (li + 1) + (k - 1)) with (src + li + k) in Hnew by lia.
                 replace (offset + (e + 1) + (k - 1)) with (offset + e + k) in Hnew by lia.
                 exact Hnew.
           ++ intros i Hi. rewrite Hold by lia. subst tmp1.
              apply list_lookup_insert_ne. lia.
    + assert (cnt = 0) by lia. exists tmp. replace (e + cnt) with e by lia.
      split; [reflexivity|]. split; [reflexivity|]. split; [intros; lia|reflexivity].
Qed.

(** Where element [k] of a tensor whose lines start at [src] is stored:
    [maxLineLen] elements to a line, the lines [stride] bytes apart. *)
Definition pos8 (src k : Z) : Z := src + (k / mll) * stride + k mod mll.

Lemma pos8_first_line (src k : Z) : 0 <= k < mll -> pos8 src k = src + 0 + k.
Proof.
  intros Hk. unfold pos8. rewrite Z.div_small, Z.mod_small by lia. lia.
Qed.

Lemma pos8_next_line (src k : Z) :
  0 < mll -> pos8 src (k + mll) = pos8 (src + stride) k.
Proof.
  intros Hpos. unfold pos8.
  replace (k + mll) with (k + 1 * mll) by lia.
  rewrite Z.div_add, Z.mod_add by lia. lia.
Qed.

Lemma pos8_nonneg (src k : Z) : 0 <= src -> 0 <= k -> 0 <= pos8 src k.
Proof.
  intros Hsrc Hk. unfold pos8.
  destruct (Z.eq_dec mll 0) as [->|Hne].
  - rewrite Z.div_0_r, Z.mod_0_r. lia.
  - pose proof (Z.div_pos k mll Hk ltac:(lia)).
    pose proof (Z.mod_pos_bound k mll ltac:(lia)). nia.
Qed.

(** All lines: from element [e] at the start of a line, [lines] rounds
    decode the next [total] elements, where [total] is what [lines] lines
    hold or what is left of the tensor, whichever is less. *)
Lemma scanLines8_spec (lines : nat) :
  forall (src e : Z) (tmp : list float),
    0 <= src -> 0 <= e < outSize ->
    offset + outSize <= Z.of_nat (length tmp) ->
    let total := Z.max 0 (Z.min (Z.of_nat lines * mll) (outSize - e)) in
    (forall k, 0 <= k < total -> pos8 src k < Z.of_nat (length buf)) ->
    exists tmp',
      scanLines8 buf param mll stride offset outSize lines src e tmp = Ret tmp' /\
      length tmp' = length tmp /\
      (forall k, 0 <= k < total ->
         is_Some (sample8 (pos8 src k)) /\
         tmp' !! Z.to_nat (offset + e + k) = sample8 (pos8 src k)) /\
      (forall i : nat, ~ (offset + e <= Z.of_nat i < offset + e + total) ->
         tmp' !! i = tmp !! i).
Proof.
  induction lines as [|lines' IH]; intros src e tmp Hsrc He Htmp total Hbuf.
  - assert (total = 0) by lia. exists tmp. cbn.
    split; [reflexivity|]. split; [reflexivity|]. split; [intros; lia|reflexivity].
  - cbn [scanLines8].
    assert (Hlines : Z.of_nat (S lines') * mll = Z.of_nat lines' * mll + mll) by lia.
    assert (Hrest : 0 <= Z.of_nat lines' * mll) by nia.
    set (cnt := Z.max 0 (Z.min (mll - 0) (outSize - e))).
    destruct (scanLine8_spec (Z.to_nat mll) src 0 e tmp) as (tmp1 & Hrun & Hlen & Hnew & Hold);
      [lia..| |].
    { fold cnt. intros k Hk. specialize (Hbuf k ltac:(lia)).
      rewrite pos8_first_line in Hbuf by lia. exact Hbuf. }
    fold cnt in Hrun, Hnew, Hold. rewrite Hrun. cbn [rbind].
    destruct (Z.eqb_spec (e + cnt) outSize) as [Hlast|Hmore].
    + assert (total = cnt) by lia. exists tmp1.
      split; [reflexivity|]. split; [exact Hlen|]. split.
      * intros k Hk. rewrite pos8_first_line by lia. apply Hnew. lia.
      * intros i Hi. apply Hold. lia.
    + assert (Hcnt : cnt = mll) by lia.
      destruct (IH (src + stride) (e + cnt) tmp1) as (tmp' & Hrun' & Hlen' & Hnew' & Hold');
        [lia..| |].
      { intros k Hk. rewrite <- pos8_next_line by lia. apply Hbuf. lia. }
      set (total' := Z.max 0 (Z.min (Z.of_nat lines' * mll) (outSize - (e + cnt)))) in *.
      assert (Htotal : total = cnt + total') by lia.
      exists tmp'. split; [exact Hrun'|]. split; [congruence|]. split.
      * intros k Hk. destruct (Z.lt_ge_cases k cnt) as [Hk1|Hk2].
        -- rewrite pos8_first_line by lia. rewrite Hold' by lia. apply Hnew. lia.
        -- assert (Hmllpos : 0 < mll) by lia.
           specialize (Hnew' (k - mll) ltac:(lia)).
           rewrite <- pos8_next_line in Hnew' by lia.
           replace (k - mll + mll) with k in Hnew' by lia.
           replace (offset + (e + cnt) + (k - mll)) with (offset + e + k) in Hnew' by lia.
           exact Hnew'.
      * intros i Hi. rewrite Hold' by lia. apply Hold. lia.
Qed.
End Scan8.

(** C7. The 8-bit branch: every element the scan covers is decoded from
    its own source byte as [(raw - shift) * scale], where [raw] is the byte
    taken as [int8_t] when the descriptor's format is [TYPE_SIGNED] and as
    [uint8_t] otherwise.  Element [k] comes from line [k / maxLineLen],
    byte [k mod maxLineLen]; the scan covers the [numLines * maxLineLen]
    first elements of the tensor. *)
Theorem scanLines8_dequantizes (buf : list byte) (param : OutputTensorApParams)
    (mll stride offset outSize src : Z) (numLines : nat) (tmpDst : list float) :
  0 <= mll -> 0 <= stride -> 0 <= src -> 0 <= offset -> 0 < outSize ->
  offset + outSize < 2 ^ 32 ->
  offset + outSize <= Z.of_nat (length tmpDst) ->
  let total := Z.min (Z.of_nat numLines * mll) outSize in
  (forall k, 0 <= k < total ->
     src + (k / mll) * stride + k mod mll < Z.of_nat (length buf)) ->
  exists tmpDst',
    scanLines8 buf param mll stride offset outSize numLines src 0 tmpDst = Ret tmpDst' /\
    length tmpDst' = length tmpDst /\
    (forall k, 0 <= k < total ->
       exists b : byte,
         buf !! Z.to_nat (src + (k / mll) * stride + k mod mll) = Some b /\
         let raw := if format param =? TYPE_SIGNED then to_signed 8 (u8 b) else u8 b in
         tmpDst' !! Z.to_nat (offset + k)
           = Some (fmul (float_of_Z (raw - shift param)) (scale param))) /\
    (forall i : nat, ~ (offset <= Z.of_nat i < offset + total) ->
       tmpDst' !! i = tmpDst !! i).
Proof.
  intros Hmll Hstride Hsrc Hoffset HoutSize Hnowrap Htmp total Hbuf.
  assert (Hnn : 0 <= Z.of_nat numLines * mll) by nia.
  destruct (scanLines8_spec buf param mll stride offset outSize
              Hmll Hstride Hoffset HoutSize Hnowrap numLines src 0 tmpDst)
    as (tmp' & Hrun & Hlen & Hnew & Hold); [lia..| |].
  { intros k Hk. apply Hbuf. lia. }
  exists tmp'. split; [exact Hrun|]. split; [exact Hlen|]. split.
  - intros k Hk. destruct (Hnew k ltac:(lia)) as [[v Hv] Hk'].
    unfold sample8, pos8 in Hv, Hk'.
    destruct (buf !! Z.to_nat (src + k / mll * stride + k mod mll)) as [b|] eqn:Hb;
      [|discriminate].
    exists b. split; [reflexivity|].
    rewrite Z.add_0_r in Hk'. exact Hk'.
  - intros i Hi. apply Hold. lia.
Qed.

(** ** The 16-bit samples *)

Lemma lor_shiftl8 (hi lo : Z) :
  0 <= lo < 256 -> Z.lor (Z.shiftl hi 8) lo = lo + 256 * hi.
Proof.
  intros Hlo.
  assert (Hland : Z.land (Z.shiftl hi 8) lo = 0).
  { apply Z.bits_inj'. intros n Hn. rewrite Z.land_spec, Z.bits_0.
    destruct (Z.lt_ge_cases n 8) as [Hlow|Hhigh].
    - now rewrite Z.shiftl_spec_low by lia.
    - rewrite (Z.bits_above_log2 lo n); [apply andb_false_r|lia|].
      destruct (Z.eq_dec lo 0) as [->|Hne]; [cbn; lia|].
      apply Z.log2_lt_pow2; [lia|].
      pose proof (Z.pow_le_mono_r 2 8 n ltac:(lia) Hhigh). lia. }
  rewrite <- Z.lxor_lor, <- Z.add_nocarry_lxor by exact Hland.
  rewrite Z.shiftl_mul_pow2 by lia. lia.
Qed.

Lemma land_255 (z : Z) : 0 <= z < 256 -> Z.land z 255 = z.
Proof.
  intros Hz. change 255 with (Z.ones 8). rewrite Z.land_ones by lia.
  apply Z.mod_small. lia.
Qed.

Lemma wrap8_to_signed8 (z : Z) : 0 <= z < 256 -> wrap8 (to_signed 8 z) = z.
Proof.
  intros Hz. unfold to_signed, wrap8, wrap.
  rewrite (Z.mod_small z) by lia.
  destruct (z <? 2 ^ (8 - 1)).
  - apply Z.mod_small. lia.
  - replace (z - 2 ^ 8) with (z + (-1) * 2 ^ 8) by lia.
    rewrite Z.mod_add by lia. apply Z.mod_small. lia.
Qed.

(** Both macros put their first argument eight bits above the second. *)
Lemma bytes_to_uint16_value (hi lo : Z) :
  0 <= hi < 256 -> 0 <= lo < 256 -> bytes_to_uint16 hi lo = lo + 256 * hi.
Proof.
  intros Hhi Hlo. unfold bytes_to_uint16, wrap16, wrap8, wrap.
  rewrite (Z.mod_small hi), (Z.mod_small lo) by lia.
  rewrite (Z.mod_small hi) by lia.
  rewrite !land_255 by lia. now apply lor_shiftl8.
Qed.

Lemma bytes_to_int16_value (hi lo : Z) :
  0 <= hi < 256 -> 0 <= lo < 256 ->
  bytes_to_int16 (to_signed 8 hi) (to_signed 8 lo) = lo + 256 * hi.
Proof.
  intros Hhi Hlo. unfold bytes_to_int16. rewrite !wrap8_to_signed8 by lia.
  assert (Hs : to_signed 16 hi = hi).
  { unfold to_signed, wrap. rewrite Z.mod_small by lia.
    destruct (Z.ltb_spec hi (2 ^ (16 - 1))); lia. }
  rewrite Hs, !land_255 by lia. now apply lor_shiftl8.
Qed.

(** Two source bytes, the low one first, as an [int16_t] or a [uint16_t]. *)
Definition raw16 (is_signed : bool) (b0 b1 : byte) : Z :=
  let v := u8 b0 + 256 * u8 b1 in
  if is_signed then to_signed 16 v else v.

Lemma getVal16_Ret (is_signed : bool) (buf : list byte) (p : Z) (b0 b1 : byte)
    (param : OutputTensorApParams) :
  0 <= p -> buf !! Z.to_nat p = Some b0 -> buf !! Z.to_nat (p + 1) = Some b1 ->
  getVal16 is_signed buf p param = Ret (dequantize param (raw16 is_signed b0 b1)).
Proof.
  intros Hp Hb0 Hb1. unfold getVal16.
  rewrite (load_Ret _ _ b1) by (apply loadb_Ret; [lia|assumption]).
  rewrite (load_Ret _ _ b0) by (apply loadb_Ret; [lia|assumption]).
  cbn [rbind]. unfold dequantize, raw16.
  pose proof (u8_range b0). pose proof (u8_range b1).
  destruct is_signed.
  - now rewrite bytes_to_int16_value.
  - rewrite !wrap8_u8, bytes_to_uint16_value by assumption.
    unfold wrap16, wrap. rewrite Z.mod_small by lia. reflexivity.
Qed.

(** The rounds left in a line of the 16-bit scan when the cursor is at
    [li]: the cursor moves by two. *)
Definition roundsLeft16 (mll li : Z) : Z := Z.max 0 ((mll - li + 1) / 2).

Lemma roundsLeft16_step (mll li : Z) :
  li < mll ->
  1 <= roundsLeft16 mll li /\ roundsLeft16 mll (li + 2) = roundsLeft16 mll li - 1.
Proof.
  intros Hlt. unfold roundsLeft16. Z.to_euclidean_division_equations. lia.
Qed.

Lemma roundsLeft16_nonneg (mll li : Z) : 0 <= roundsLeft16 mll li.
Proof. unfold roundsLeft16. lia. Qed.

Lemma roundsLeft16_done (mll li : Z) : mll <= li -> roundsLeft16 mll li = 0.
Proof.
  intros Hge. unfold roundsLeft16. Z.to_euclidean_division_equations. lia.
Qed.

Lemma roundsLeft16_start (mll : Z) :
  0 <= mll ->
  roundsLeft16 mll 0 = (mll + 1) / 2 /\ 0 <= (mll + 1) / 2 <= mll.
Proof.
  intros Hmll. unfold roundsLeft16. Z.to_euclidean_division_equations. lia.
Qed.

Section Scan16.
Variable buf : list byte.
Variable param : OutputTensorApParams.
Variable mll stride offset outSize : Z.

Let half : Z := Z.shiftr outSize 1.     (* elements of the tensor *)
Let per : Z := (mll + 1) / 2.           (* elements of a line *)

Hypothesis Hmll : 0 <= mll.
Hypothesis Hstride : 0 <= stride.
Hypothesis Hoffset : 0 <= offset.
Hypothesis Hhalf : 0 < half.
Hypothesis Hnowrap : offset + half < 2 ^ 32.

Let sgn : bool := format param =? TYPE_SIGNED.

(** The sample stored in the bytes at [p] and [p + 1], dequantised. *)
Definition sample16 (p : Z) : option float :=
  match buf !! Z.to_nat p, buf !! Z.to_nat (p + 1) with
  | Some b0, Some b1 => Some (dequantize param (raw16 sgn b0 b1))
  | _, _ => None
  end.

Lemma scanLine16_spec (fuel : nat) :
  forall (src li e : Z) (tmp : list float),
    0 <= src -> 0 <= li -> 0 <= e < half ->
    let rem := roundsLeft16 mll li in
    rem <= Z.of_nat fuel ->
    offset + half <= Z.of_nat (length tmp) ->
    let cnt := Z.min rem (half - e) in
    (forall k, 0 <= k < cnt -> src + li + 2 * k + 1 < Z.of_nat (length buf)) ->
    exists tmp',
      scanLine16 buf param mll offset outSize fuel src li e tmp = Ret (e + cnt, tmp') /\
      length tmp' = length tmp /\
      (forall k, 0 <= k < cnt ->
         is_Some (sample16 (src + li + 2 * k)) /\
         tmp' !! Z.to_nat (offset + e + k) = sample16 (src + li + 2 * k)) /\
      (forall i : nat, ~ (offset + e <= Z.of_nat i < offset + e + cnt) ->
         tmp' !! i = tmp !! i).
Proof.
  induction fuel as [|fuel' IH]; intros src li e tmp Hsrc Hli He rem Hfuel Htmp cnt Hbuf;
    pose proof (roundsLeft16_nonneg mll li) as Hrem0; fold rem in Hrem0.
  - assert (cnt = 0) by lia. exists tmp. cbn. replace (e + cnt) with e by lia.
    split; [reflexivity|]. split; [reflexivity|]. split; [intros; lia|reflexivity].
  - cbn [scanLine16]. fold half. destruct (Z.ltb_spec li mll) as [Hlt|Hge].
    + destruct (roundsLeft16_step mll li Hlt) as [Hrem Hrem']. fold rem in Hrem, Hrem'.
      assert (Hcnt : 1 <= cnt) by lia.
      destruct (lookup_lt_is_Some_2 buf (Z.to_nat (src + li))) as [b0 Hb0].
      { specialize (Hbuf 0). lia. }
      destruct (lookup_lt_is_Some_2 buf (Z.to_nat (src + li + 1))) as [b1 Hb1].
      { specialize (Hbuf 0). lia. }
      rewrite (getVal16_Ret _ _ _ b0 b1) by (lia || assumption). cbn [rbind].
      rewrite (wrap32_small (offset + e)) by lia.
      rewrite vec_set_Ret by lia. cbn [rbind].
      rewrite (wrap32_small (e + 1)) by lia.
      set (v := dequantize param (raw16 (format param =? TYPE_SIGNED) b0 b1)).
      set (tmp1 := <[Z.to_nat (offset + e) := v]> tmp).
      assert (Hv : sample16 (src + li) = Some v).
      { unfold sample16. now rewrite Hb0, Hb1. }
      destruct (Z.leb_spec half (e + 1)) as [Hlast|Hmore].
      * assert (cnt = 1) by lia. exists tmp1. replace (e + cnt) with (e + 1) by lia.
        split; [reflexivity|]. split; [apply length_insert|]. split.
        -- intros k Hk. assert (k = 0) as -> by lia. rewrite Z.mul_0_r, !Z.add_0_r.
           rewrite Hv. split; [eauto|]. subst tmp1. apply list_lookup_insert_eq. lia.
        -- intros i Hi. subst tmp1. apply list_lookup_insert_ne. lia.
      * destruct (IH src (li + 2) (e + 1) tmp1) as (tmp' & Hrun & Hlen & Hnew & Hold).
        -- lia.
        -- lia.
        -- lia.
        -- lia.
        -- subst tmp1. rewrite length_insert. lia.
        -- intros k Hk. specialize (Hbuf (k + 1)). lia.
        -- exists tmp'. rewrite Hrem' in Hrun, Hnew, Hold.
           replace (e + 1 + Z.min (rem - 1) (half - (e + 1)))
             with (e + cnt) in Hrun by lia.
           split; [exact Hrun|]. split.
           { rewrite Hlen. apply length_insert. }
           split.
           ++ intros k Hk. destruct (Z.eq_dec k 0) as [->|Hk0].
              ** rewrite Z.mul_0_r, !Z.add_0_r, Hv. split; [eauto|].
                 rewrite Hold by lia. subst tmp1. apply list_lookup_insert_eq. lia.
              ** specialize (Hnew (k - 1) ltac:(lia)).
                 replace (src + (li + 2) + 2 * (k - 1)) with (src + li + 2 * k) in Hnew by lia.
                 replace (offset + (e + 1) + (k - 1)) with (offset + e + k) in Hnew by lia.
                 exact Hnew.
           ++ intros i Hi. rewrite Hold by lia. subst tmp1.
              apply list_lookup_insert_ne. lia.
    + pose proof (roundsLeft16_done mll li Hge) as Hrem. fold rem in Hrem.
      assert (cnt = 0) by lia. exists tmp.
      replace (e + cnt) with e by lia.
      split; [reflexivity|]. split; [reflexivity|]. split; [intros; lia|reflexivity].
Qed.

(** Where element [k] of a 16-bit tensor whose lines start at [src] is
    stored: [(maxLineLen + 1) / 2] elements to a line. *)
Definition pos16 (src k : Z) : Z := src + (k / per) * stride + 2 * (k mod per).

Lemma pos16_first_line (src k : Z) : 0 <= k < per -> pos16 src k = src + 0 + 2 * k.
Proof.
  intros Hk. unfold pos16. rewrite Z.div_small, Z.mod_small by lia. lia.
Qed.

Lemma pos16_next_line (src k : Z) :
  0 < per -> pos16 src (k + per) = pos16 (src + stride) k.
Proof.
  intros Hpos. unfold pos16.
  replace (k + per) with (k + 1 * per) by lia.
  rewrite Z.div_add, Z.mod_add by lia. lia.
Qed.

Lemma scanLines16_spec (lines : nat) :
  forall (src e : Z) (tmp : list float),
    0 <= src -> 0 <= e < half ->
    offset + half <= Z.of_nat (length tmp) ->
    let total := Z.max 0 (Z.min (Z.of_nat lines * per) (half - e)) in
    (forall k, 0 <= k < total -> pos16 src k + 1 < Z.of_nat (length buf)) ->
    exists tmp',
      scanLines16 buf param mll stride offset outSize lines src e tmp = Ret tmp' /\
      length tmp' = length tmp /\
      (forall k, 0 <= k < total ->
         is_Some (sample16 (pos16 src k)) /\
         tmp' !! Z.to_nat (offset + e + k) = sample16 (pos16 src k)) /\
      (forall i : nat, ~ (offset + e <= Z.of_nat i < offset + e + total) ->
         tmp' !! i = tmp !! i).
Proof.
  destruct (roundsLeft16_start mll Hmll) as [Hrem0 Hper]. fold per in Hrem0, Hper.
  induction lines as [|lines' IH]; intros src e tmp Hsrc He Htmp total Hbuf.
  - assert (total = 0) by lia. exists tmp. cbn.
    split; [reflexivity|]. split; [reflexivity|]. split; [intros; lia|reflexivity].
  - cbn [scanLines16]. fold half.
    assert (Hlines : Z.of_nat (S lines') * per = Z.of_nat lines' * per + per) by lia.
    assert (Hrest : 0 <= Z.of_nat lines' * per) by nia.
    set (cnt := Z.min per (half - e)).
    destruct (scanLine16_spec (Z.to_nat mll) src 0 e tmp) as (tmp1 & Hrun & Hlen & Hnew & Hold);
      [lia..| |].
    { rewrite Hrem0. fold cnt. intros k Hk. specialize (Hbuf k ltac:(lia)).
      rewrite pos16_first_line in Hbuf by lia. lia. }
    rewrite Hrem0 in Hrun, Hnew, Hold. fold cnt in Hrun, Hnew, Hold.
    rewrite Hrun. cbn [rbind].
    destruct (Z.leb_spec half (e + cnt)) as [Hlast|Hmore].
    + assert (total = cnt) by lia. exists tmp1.
      split; [reflexivity|]. split; [exact Hlen|]. split.
      * intros k Hk. rewrite pos16_first_line by lia. apply Hnew. lia.
      * intros i Hi. apply Hold. lia.
    + assert (Hcnt : cnt = per) by lia.
      destruct (IH (src + stride) (e + cnt) tmp1) as (tmp' & Hrun' & Hlen' & Hnew' & Hold');
        [lia..| |].
      { intros k Hk.
        destruct (Z.eq_dec per 0) as [Hz|Hnz]; [nia|].
        rewrite <- pos16_next_line by lia. apply Hbuf. lia. }
      set (total' := Z.max 0 (Z.min (Z.of_nat lines' * per) (half - (e + cnt)))) in *.
      assert (Htotal : total = cnt + total') by lia.
      exists tmp'. split; [exact Hrun'|]. split; [congruence|]. split.
      * intros k Hk. destruct (Z.lt_ge_cases k cnt) as [Hk1|Hk2].
        -- rewrite pos16_first_line by lia. rewrite Hold' by lia. apply Hnew. lia.
        -- assert (Hperpos : 0 < per) by lia.
           specialize (Hnew' (k - per) ltac:(lia)).
           rewrite <- pos16_next_line in Hnew' by lia.
           replace (k - per + per) with k in Hnew' by lia.
           replace (offset + (e + cnt) + (k - per)) with (offset + e + k) in Hnew' by lia.
           exact Hnew'.
      * intros i Hi. rewrite Hold' by lia. apply Hold. lia.
Qed.
End Scan16.

(** C8. The 16-bit branch: every element the scan covers is assembled
    from two consecutive source bytes, the low byte first, as
    [byte0 + 256 * byte1], taken as [int16_t] when the descriptor's format is
    [TYPE_SIGNED] and as [uint16_t] otherwise, and then dequantised as
    [(value - shift) * scale].  Element [k] comes from line [k / per], bytes
    [2 * (k mod per)] and the next, with [per = (maxLineLen + 1) / 2]
    elements to a line. *)
Theorem scanLines16_assembles (buf : list byte) (param : OutputTensorApParams)
    (mll stride offset outSize src : Z) (numLines : nat) (tmpDst : list float) :
  0 <= mll -> 0 <= stride -> 0 <= src -> 0 <= offset ->
  let half := Z.shiftr outSize 1 in
  let per := (mll + 1) / 2 in
  0 < half ->
  offset + half < 2 ^ 32 ->
  offset + half <= Z.of_nat (length tmpDst) ->
  let total := Z.min (Z.of_nat numLines * per) half in
  (forall k, 0 <= k < total ->
     src + (k / per) * stride + 2 * (k mod per) + 1 < Z.of_nat (length buf)) ->
  exists tmpDst',
    scanLines16 buf param mll stride offset outSize numLines src 0 tmpDst = Ret tmpDst' /\
    length tmpDst' = length tmpDst /\
    (forall k, 0 <= k < total ->
       exists b0 b1 : byte,
         let p := src + (k / per) * stride + 2 * (k mod per) in
         buf !! Z.to_nat p = Some b0 /\
         buf !! Z.to_nat (p + 1) = Some b1 /\
         let v := u8 b0 + 256 * u8 b1 in
         let raw := if format param =? TYPE_SIGNED then to_signed 16 v else v in
         tmpDst' !! Z.to_nat (offset + k)
           = Some (fmul (float_of_Z (raw - shift param)) (scale param))) /\
    (forall i : nat, ~ (offset <= Z.of_nat i < offset + total) ->
       tmpDst' !! i = tmpDst !! i).
Proof.
  intros Hmll Hstride Hsrc Hoffset half per Hhalf Hnowrap Htmp total Hbuf.
  destruct (roundsLeft16_start mll Hmll) as [_ Hper]. fold per in Hper.
  assert (Hnn : 0 <= Z.of_nat numLines * per) by nia.
  destruct (scanLines16_spec buf param mll stride offset outSize
              Hmll Hstride Hoffset Hhalf Hnowrap numLines src 0 tmpDst)
    as (tmp' & Hrun & Hlen & Hnew & Hold); [lia..| |].
  { intros k Hk. apply Hbuf. fold half per in Hk. lia. }
  fold half per in Hnew, Hold.
  exists tmp'. split; [exact Hrun|]. split; [exact Hlen|]. split.
  - intros k Hk. destruct (Hnew k ltac:(lia)) as [[v Hv] Hk'].
    unfold sample16, pos16 in Hv, Hk'. fold per in Hv, Hk'.
    destruct (buf !! Z.to_nat (src + k / per * stride + 2 * (k mod per))) as [b0|] eqn:Hb0;
      [|discriminate].
    destruct (buf !! Z.to_nat (src + k / per * stride + 2 * (k mod per) + 1)) as [b1|] eqn:Hb1;
      [|discriminate].
    exists b0, b1. cbn zeta. rewrite Hb0, Hb1. split; [reflexivity|]. split; [reflexivity|].
    rewrite Z.add_0_r in Hk'. exact Hk'.
  - intros i Hi. apply Hold. lia.
Qed.

(* ================================================================== *)
(** ** Reordering *)

Section SortLoops.
Variable tmp : list float.
Variable offset c2 c1 c0 : Z.
Variable n2 n1 n0 : nat.            (* loopCnt[2], loopCnt[1], loopCnt[0] *)

(** The destination index of the serialized coordinates [i], [j], [k]. *)
Definition dstIndex (i j k : Z) : Z := c2 * i + c1 * j + c0 * k.

Definition inRange (i j k : Z) : Prop :=
  0 <= i < Z.of_nat n2 /\ 0 <= j < Z.of_nat n1 /\ 0 <= k < Z.of_nat n0.

Hypothesis Hoffset : 0 <= offset.
Hypothesis Hc2 : 0 <= c2.
Hypothesis Hc1 : 0 <= c1.
Hypothesis Hc0 : 0 <= c0.
Hypothesis Htmp :
  offset + Z.of_nat n2 * Z.of_nat n1 * Z.of_nat n0 <= Z.of_nat (length tmp).
Hypothesis Hwrap : offset + Z.of_nat n2 * Z.of_nat n1 * Z.of_nat n0 < 2 ^ 32.
(** No two coordinates share a destination. *)
Hypothesis Hinj : forall i j k i' j' k',
  inRange i j k -> inRange i' j' k' ->
  dstIndex i j k = dstIndex i' j' k' -> i = i' /\ j = j' /\ k = k'.

(** A destination array in which every destination lies. *)
Definition fits (dst : list float) : Prop :=
  Z.of_nat (length dst) < 2 ^ 32 /\
  forall i j k, inRange i j k -> offset + dstIndex i j k < Z.of_nat (length dst).

Lemma dstIndex_nonneg (i j k : Z) : 0 <= i -> 0 <= j -> 0 <= k ->
  0 <= c2 * i /\ 0 <= c1 * j /\ 0 <= c0 * k.
Proof. intros. repeat split; nia. Qed.

(** The innermost loop, from coordinate [k0] and source index [s], copies
    the next [n] elements of [tmpDst] to their destinations. *)
Lemma sortLoopK_spec (i j : Z) (n : nat) :
  0 <= i < Z.of_nat n2 -> 0 <= j < Z.of_nat n1 ->
  forall (k0 : nat) (s : Z) (dst : list float),
    (k0 + n <= n0)%nat ->
    0 <= s -> offset + s + Z.of_nat n <= Z.of_nat (length tmp) ->
    offset + s + Z.of_nat n < 2 ^ 32 ->
    fits dst ->
    exists dst',
      sortLoopK tmp offset c2 c1 c0 (seq k0 n) i j s dst = Ret (s + Z.of_nat n, dst') /\
      length dst' = length dst /\
      (forall t, 0 <= t < Z.of_nat n ->
         dst' !! Z.to_nat (offset + dstIndex i j (Z.of_nat k0 + t))
           = tmp !! Z.to_nat (offset + s + t)) /\
      (forall x : nat,
         (forall t, 0 <= t < Z.of_nat n ->
            Z.of_nat x <> offset + dstIndex i j (Z.of_nat k0 + t)) ->
         dst' !! x = dst !! x).
Proof.
  intros Hi Hj.
  induction n as [|n IH]; intros k0 s dst Hk0 Hs Hrd Hrdw [Hlen Hfit].
  - exists dst. cbn. rewrite Z.add_0_r.
    split; [reflexivity|]. split; [reflexivity|]. split; [intros; lia|reflexivity].
  - cbn [seq sortLoopK].
    destruct (dstIndex_nonneg i j (Z.of_nat k0)) as (Hp2 & Hp1 & Hp0); [lia..|].
    pose proof (Hfit i j (Z.of_nat k0) ltac:(unfold inRange; lia)) as Hd0.
    unfold dstIndex in Hd0.
    rewrite (wrap32_small (c2 * i)), (wrap32_small (c1 * j)),
      (wrap32_small (c0 * Z.of_nat k0)) by lia.
    rewrite (wrap32_small (c2 * i + c1 * j)) by lia.
    rewrite (wrap32_small (c2 * i + c1 * j + c0 * Z.of_nat k0)) by lia.
    rewrite (wrap32_small (offset + s)) by lia.
    rewrite (wrap32_small (offset + _)) by lia.
    destruct (lookup_lt_is_Some_2 tmp (Z.to_nat (offset + s))) as [v Hv]; [lia|].
    rewrite (vec_get_Ret _ _ v) by (lia || assumption). cbn [rbind].
    rewrite vec_set_Ret by lia. cbn [rbind].
    rewrite (wrap32_small (s + 1)) by lia.
    fold (dstIndex i j (Z.of_nat k0)) in *.
    assert (Hdpos : 0 <= dstIndex i j (Z.of_nat k0)) by (unfold dstIndex; lia).
    set (d0 := offset + dstIndex i j (Z.of_nat k0)) in *.
    assert (Hd0' : 0 <= d0) by (subst d0; lia).
    assert (Hdistinct : forall t, 0 < t < Z.of_nat (S n) ->
              dstIndex i j (Z.of_nat k0 + t) <> dstIndex i j (Z.of_nat k0)).
    { intros t Ht Heq. apply Hinj in Heq; unfold inRange; lia. }
    destruct (IH (S k0) (s + 1) (<[Z.to_nat d0 := v]> dst))
      as (dst' & Hrun & Hlen' & Hnew & Hold).
    + lia.
    + lia.
    + lia.
    + lia.
    + split; rewrite length_insert; assumption.
    + exists dst'. replace (s + 1 + Z.of_nat n) with (s + Z.of_nat (S n)) in Hrun by lia.
      split; [exact Hrun|]. split; [now rewrite Hlen', length_insert|]. split.
      * intros t Ht. destruct (Z.eq_dec t 0) as [->|Hne].
        -- rewrite !Z.add_0_r. fold d0. rewrite Hold.
           ++ rewrite list_lookup_insert_eq by lia. now rewrite Hv.
           ++ intros t' Ht'. subst d0.
              specialize (Hdistinct (t' + 1) ltac:(lia)).
              replace (Z.of_nat (S k0) + t') with (Z.of_nat k0 + (t' + 1)) by lia. lia.
        -- specialize (Hnew (t - 1) ltac:(lia)).
           replace (Z.of_nat (S k0) + (t - 1)) with (Z.of_nat k0 + t) in Hnew by lia.
           replace (offset + (s + 1) + (t - 1)) with (offset + s + t) in Hnew by lia.
           exact Hnew.
      * intros x Hx. rewrite Hold.
        -- apply list_lookup_insert_ne. specialize (Hx 0 ltac:(lia)).
           rewrite Z.add_0_r in Hx. subst d0. lia.
        -- intros t Ht. specialize (Hx (t + 1) ltac:(lia)).
           replace (Z.of_nat (S k0) + t) with (Z.of_nat k0 + (t + 1)) by lia. exact Hx.
Qed.

(** The middle loop, from coordinate [j0] and source index [s], copies
    the next [m] rows of [n0] elements. *)
Lemma sortLoopJ_spec (i : Z) (m : nat) :
  0 <= i < Z.of_nat n2 ->
  forall (j0 : nat) (s : Z) (dst : list float),
    (j0 + m <= n1)%nat ->
    0 <= s ->
    offset + s + Z.of_nat m * Z.of_nat n0 <= Z.of_nat (length tmp) ->
    offset + s + Z.of_nat m * Z.of_nat n0 < 2 ^ 32 ->
    fits dst ->
    exists dst',
      sortLoopJ tmp offset c2 c1 c0 n0 (seq j0 m) i s dst
        = Ret (s + Z.of_nat m * Z.of_nat n0, dst') /\
      length dst' = length dst /\
      (forall u t, 0 <= u < Z.of_nat m -> 0 <= t < Z.of_nat n0 ->
         dst' !! Z.to_nat (offset + dstIndex i (Z.of_nat j0 + u) t)
           = tmp !! Z.to_nat (offset + s + u * Z.of_nat n0 + t)) /\
      (forall x : nat,
         (forall u t, 0 <= u < Z.of_nat m -> 0 <= t < Z.of_nat n0 ->
            Z.of_nat x <> offset + dstIndex i (Z.of_nat j0 + u) t) ->
         dst' !! x = dst !! x).
Proof.
  intros Hi.
  induction m as [|m IH]; intros j0 s dst Hj0 Hs Hrd Hrdw Hfit.
  - exists dst. cbn. rewrite Z.add_0_r.
    split; [reflexivity|]. split; [reflexivity|]. split; [intros; lia|reflexivity].
  - cbn [seq sortLoopJ].
    assert (Hm : Z.of_nat (S m) * Z.of_nat n0 = Z.of_nat n0 + Z.of_nat m * Z.of_nat n0) by lia.
    assert (Hmn : 0 <= Z.of_nat m * Z.of_nat n0) by nia.
    destruct (sortLoopK_spec i (Z.of_nat j0) n0 Hi ltac:(lia) 0%nat s dst)
      as (dst1 & Hrun1 & Hlen1 & Hnew1 & Hold1); [lia..|assumption|].
    rewrite Hrun1. cbn [rbind].
    destruct (IH (S j0) (s + Z.of_nat n0) dst1) as (dst' & Hrun & Hlen & Hnew & Hold).
    + lia.
    + lia.
    + lia.
    + lia.
    + destruct Hfit as [Hl Hf]. split; rewrite Hlen1; assumption.
    + exists dst'.
      replace (s + Z.of_nat n0 + Z.of_nat m * Z.of_nat n0)
        with (s + Z.of_nat (S m) * Z.of_nat n0) in Hrun by lia.
      split; [exact Hrun|]. split; [congruence|]. split.
      * intros u t Hu Ht. destruct (Z.eq_dec u 0) as [->|Hne].
        -- rewrite Z.add_0_r, Z.mul_0_l, Z.add_0_r. rewrite Hold.
           ++ specialize (Hnew1 t Ht). rewrite Z.add_0_l in Hnew1. exact Hnew1.
           ++ intros u' t' Hu' Ht' Heq.
              assert (Hpos : 0 <= dstIndex i (Z.of_nat j0) t).
              { destruct (dstIndex_nonneg i (Z.of_nat j0) t) as (? & ? & ?); [lia..|].
                unfold dstIndex. lia. }
              assert (Heq' : dstIndex i (Z.of_nat j0) t = dstIndex i (Z.of_nat (S j0) + u') t')
                by lia.
              apply Hinj in Heq'; unfold inRange; lia.
        -- specialize (Hnew (u - 1) t ltac:(lia) Ht).
           replace (Z.of_nat (S j0) + (u - 1)) with (Z.of_nat j0 + u) in Hnew by lia.
           replace (offset + (s + Z.of_nat n0) + (u - 1) * Z.of_nat n0 + t)
             with (offset + s + u * Z.of_nat n0 + t) in Hnew by lia.
           exact Hnew.
      * intros x Hx. rewrite Hold.
        -- apply Hold1. intros t Ht. specialize (Hx 0 t ltac:(lia) Ht).
           rewrite Z.add_0_r in Hx. rewrite Z.add_0_l. exact Hx.
        -- intros u t Hu Ht. specialize (Hx (u + 1) t ltac:(lia) Ht).
           replace (Z.of_nat (S j0) + u) with (Z.of_nat j0 + (u + 1)) by lia. exact Hx.
Qed.

(** The outer loop, from coordinate [i0] and source index [s], copies the
    next [m] planes of [n1] rows. *)
Lemma sortLoopI_spec (m : nat) :
  forall (i0 : nat) (s : Z) (dst : list float),
    (i0 + m <= n2)%nat ->
    0 <= s ->
    offset + s + Z.of_nat m * Z.of_nat n1 * Z.of_nat n0 <= Z.of_nat (length tmp) ->
    offset + s + Z.of_nat m * Z.of_nat n1 * Z.of_nat n0 < 2 ^ 32 ->
    fits dst ->
    exists dst',
      sortLoopI tmp offset c2 c1 c0 n1 n0 (seq i0 m) s dst
        = Ret (s + Z.of_nat m * Z.of_nat n1 * Z.of_nat n0, dst') /\
      length dst' = length dst /\
      (forall u v t, 0 <= u < Z.of_nat m -> 0 <= v < Z.of_nat n1 -> 0 <= t < Z.of_nat n0 ->
         dst' !! Z.to_nat (offset + dstIndex (Z.of_nat i0 + u) v t)
           = tmp !! Z.to_nat (offset + s + (u * Z.of_nat n1 + v) * Z.of_nat n0 + t)) /\
      (forall x : nat,
         (forall u v t, 0 <= u < Z.of_nat m -> 0 <= v < Z.of_nat n1 -> 0 <= t < Z.of_nat n0 ->
            Z.of_nat x <> offset + dstIndex (Z.of_nat i0 + u) v t) ->
         dst' !! x = dst !! x).
Proof.
  induction m as [|m IH]; intros i0 s dst Hi0 Hs Hrd Hrdw Hfit.
  - exists dst. cbn. rewrite Z.add_0_r.
    split; [reflexivity|]. split; [reflexivity|]. split; [intros; lia|reflexivity].
  - cbn [seq sortLoopI].
    set (plane := Z.of_nat n1 * Z.of_nat n0) in *.
    assert (Hplane : 0 <= plane) by (subst plane; nia).
    assert (Hm : Z.of_nat (S m) * Z.of_nat n1 * Z.of_nat n0 = plane + Z.of_nat m * plane)
      by (subst plane; lia).
    assert (Hm' : Z.of_nat m * Z.of_nat n1 * Z.of_nat n0 = Z.of_nat m * plane)
      by (subst plane; lia).
    assert (Hmn : 0 <= Z.of_nat m * plane) by nia.
    rewrite Hm in *. rewrite Hm' in *.
    destruct (sortLoopJ_spec (Z.of_nat i0) n1 ltac:(lia) 0%nat s dst)
      as (dst1 & Hrun1 & Hlen1 & Hnew1 & Hold1); [fold plane; lia..|assumption|].
    fold plane in Hrun1. rewrite Hrun1. cbn [rbind].
    destruct (IH (S i0) (s + plane) dst1) as (dst' & Hrun & Hlen & Hnew & Hold).
    + lia.
    + lia.
    + lia.
    + lia.
    + destruct Hfit as [Hl Hf]. split; rewrite Hlen1; assumption.
    + exists dst'.
      replace (s + plane + Z.of_nat m * plane) with (s + (plane + Z.of_nat m * plane))
        in Hrun by lia.
      split; [exact Hrun|]. split; [congruence|]. split.
      * intros u v t Hu Hv Ht. destruct (Z.eq_dec u 0) as [->|Hne].
        -- rewrite Z.add_0_r, Z.mul_0_l, Z.add_0_l. rewrite Hold.
           ++ specialize (Hnew1 v t Hv Ht). rewrite Z.add_0_l in Hnew1. exact Hnew1.
           ++ intros u' v' t' Hu' Hv' Ht' Heq.
              assert (Hpos : 0 <= dstIndex (Z.of_nat i0) v t).
              { destruct (dstIndex_nonneg (Z.of_nat i0) v t) as (? & ? & ?); [lia..|].
                unfold dstIndex. lia. }
              assert (Heq' : dstIndex (Z.of_nat i0) v t
                             = dstIndex (Z.of_nat (S i0) + u') v' t') by lia.
              apply Hinj in Heq'; unfold inRange; lia.
        -- specialize (Hnew (u - 1) v t ltac:(lia) Hv Ht).
           replace (Z.of_nat (S i0) + (u - 1)) with (Z.of_nat i0 + u) in Hnew by lia.
           replace (offset + (s + plane) + ((u - 1) * Z.of_nat n1 + v) * Z.of_nat n0 + t)
             with (offset + s + (u * Z.of_nat n1 + v) * Z.of_nat n0 + t) in Hnew
             by (subst plane; lia).
           exact Hnew.
      * intros x Hx. rewrite Hold.
        -- apply Hold1. intros v t Hv Ht. specialize (Hx 0 v t ltac:(lia) Hv Ht).
           rewrite Z.add_0_r in Hx. rewrite Z.add_0_l. exact Hx.
        -- intros u v t Hu Hv Ht. specialize (Hx (u + 1) v t ltac:(lia) Hv Ht).
           replace (Z.of_nat (S i0) + u) with (Z.of_nat i0 + (u + 1)) by lia. exact Hx.
Qed.

(** The sort execution as a whole: the element at the serialized
    position [(i * n1 + j) * n0 + k] goes to the destination index
    [coef[2] * i + coef[1] * j + coef[0] * k]; the rest of the destination
    is left as it was. *)
Lemma sortExec_spec (dst : list float) :
  fits dst ->
  exists dst',
    sortExec tmp offset [Z.of_nat n0; Z.of_nat n1; Z.of_nat n2] [c0; c1; c2] dst
      = Ret dst' /\
    length dst' = length dst /\
    (forall i j k, inRange i j k ->
       dst' !! Z.to_nat (offset + dstIndex i j k)
         = tmp !! Z.to_nat (offset + ((i * Z.of_nat n1 + j) * Z.of_nat n0 + k))) /\
    (forall x : nat,
       (forall i j k, inRange i j k -> Z.of_nat x <> offset + dstIndex i j k) ->
       dst' !! x = dst !! x).
Proof.
  intros Hfit.
  destruct (sortLoopI_spec n2 0%nat 0 dst) as (dst' & Hrun & Hlen & Hnew & Hold);
    [lia..|assumption|].
  exists dst'. split.
  { unfold sortExec.
    change (vec_get [Z.of_nat n0; Z.of_nat n1; Z.of_nat n2] 0) with (Ret (Z.of_nat n0)).
    change (vec_get [Z.of_nat n0; Z.of_nat n1; Z.of_nat n2] 1) with (Ret (Z.of_nat n1)).
    change (vec_get [Z.of_nat n0; Z.of_nat n1; Z.of_nat n2] 2) with (Ret (Z.of_nat n2)).
    change (vec_get [c0; c1; c2] 0) with (Ret c0).
    change (vec_get [c0; c1; c2] 1) with (Ret c1).
    change (vec_get [c0; c1; c2] 2) with (Ret c2).
    cbn [rbind]. rewrite !Nat2Z.id, Hrun. reflexivity. }
  split; [exact Hlen|]. split.
  - intros i j k (Hi & Hj & Hk). specialize (Hnew i j k Hi Hj Hk).
    rewrite Z.add_0_l in Hnew. rewrite Hnew. f_equal. f_equal. lia.
  - intros x Hx. apply Hold. intros u v t Hu Hv Ht. rewrite Z.add_0_l.
    apply Hx. unfold inRange. lia.
Qed.
End SortLoops.

(** The coefficient of a dimension: the product of the sizes of the [j]
    first dimensions in ordinal order. *)
Lemma coefLoop_product (actualDim : list Dimensions) :
  nonzeroDims actualDim ->
  forall (j : nat) (coef : Z),
    (j <= length actualDim)%nat -> 0 <= coef ->
    coef * trueProduct (take j actualDim) < 2 ^ 32 ->
    coefLoop actualDim j coef = Ret (coef * trueProduct (take j actualDim)).
Proof.
  intros Hnz. induction j as [|j IH]; intros coef Hj Hcoef Hbound.
  - cbn. change (trueProduct []) with 1. now rewrite Z.mul_1_r.
  - destruct (lookup_lt_is_Some_2 actualDim j ltac:(lia)) as [d Hd].
    assert (Htake : trueProduct (take (S j) actualDim)
                    = trueProduct (take j actualDim) * size d).
    { rewrite (take_S_r _ _ _ Hd). unfold trueProduct. rewrite foldr_app. cbn.
      generalize (take j actualDim). intros l. induction l as [|x l IHl]; cbn; lia. }
    assert (Hsize : 0 < size d).
    { unfold nonzeroDims in Hnz. rewrite Forall_lookup in Hnz. exact (Hnz _ _ Hd). }
    assert (Hpos : 1 <= trueProduct (take j actualDim)).
    { apply trueProduct_pos. unfold nonzeroDims. now apply Forall_take. }
    cbn [coefLoop]. rewrite (vec_at_Ret _ _ d) by (lia || now rewrite Nat2Z.id).
    cbn [rbind]. rewrite Htake in *.
    rewrite wrap32_small by nia.
    rewrite IH; [f_equal; lia|lia|nia|nia].
Qed.

(** ** The transposed 2 x 3 tensor *)

Definition mkDim (o s i : Z) : Dimensions :=
  {| ordinal := o; size := s; serializationIndex := i; padding := 0 |}.

(** Ordinal sizes [2; 3], serialized in the reverse order. *)
Definition transposedDims : list Dimensions := [mkDim 0 2 1; mkDim 1 3 0].

(** The element extraction of the task, for the two supported widths. *)
Definition extracted (buf : list byte) (param : OutputTensorApParams)
    (mll stride offset : Z) (plan : TensorPlan) (src : Z) (tmpDst tmpDst' : list float)
    : Prop :=
  (bitsPerElement param = 8 /\
   scanLines8 buf param mll stride offset (tp_outSize plan)
     (Z.to_nat (tp_numLines plan)) src 0 tmpDst = Ret tmpDst') \/
  (bitsPerElement param = 16 /\
   scanLines16 buf param mll stride offset (tp_outSize plan)
     (Z.to_nat (tp_numLines plan)) src 0 tmpDst = Ret tmpDst').

(** What the first pass computes for the transposed descriptor. *)
Lemma planDims_transposed (param : OutputTensorApParams) (w : World) :
  vecDim param = transposedDims ->
  bitsPerElement param = 8 \/ bitsPerElement param = 16 ->
  planDims param (seq 0 2) (bitsPerElement param / 8)
    (replicate 2 zeroDim) (replicate 2 zeroDim) w
  = Val (bitsPerElement param / 8 * 6, [mkDim 0 3 1; mkDim 0 2 0], [mkDim 0 2 1; mkDim 0 3 0]) w.
Proof.
  intros Hvec [Hbits|Hbits]; cbn [seq planDims]; rewrite Hvec, Hbits; reflexivity.
Qed.

Lemma transposed_injective (i j k i' j' k' : Z) :
  inRange 1 2 3 i j k -> inRange 1 2 3 i' j' k' ->
  dstIndex 1 1 2 i j k = dstIndex 1 1 2 i' j' k' -> i = i' /\ j = j' /\ k = k'.
Proof. unfold inRange, dstIndex. lia. Qed.

(** C5. For a tensor of ordinal sizes [2; 3] serialized in the reverse
    order, decoded by the task: the preparation gives the loop counts
    [3; 2; 1] and the coefficients [2; 1; 1] (the coefficient of a dimension
    is the product of the sizes of the ordinal dimensions before it), and the
    task leaves in the output region the transpose of the sequentially
    stored dequantised input [tmpDst']:
    [output[q * 2 + p] = input[p * 3 + q]] for [p < 2] and [q < 3]. *)
Theorem tensorTask_transposes (buf : list byte) (stride : Z) (plans : list TensorPlan)
    (tensorIdx src offset : Z) (tmpDst tmpDst' : list float) (w : World)
    (param : OutputTensorApParams) (plan : TensorPlan) :
  0 <= tensorIdx ->
  plans !! Z.to_nat tensorIdx = Some plan ->
  outputApParams_ (self w) !! Z.to_nat tensorIdx = Some param ->
  numDimensions param = 2 ->
  vecDim param = transposedDims ->
  planDims param (seq 0 2) (bitsPerElement param / 8)
    (replicate 2 zeroDim) (replicate 2 zeroDim) w
    = Val (tp_outSize plan, tp_serializedDim plan, tp_actualDim plan) w ->
  extracted buf param (maxLineLen (dnnHeader_ (self w))) stride offset plan src
    tmpDst tmpDst' ->
  0 <= offset -> offset + 6 < 2 ^ 32 ->
  offset + 6 <= Z.of_nat (length tmpDst') ->
  let dst := address (outputBodyInfo_ (self w)) in
  offset + 6 <= Z.of_nat (length dst) -> Z.of_nat (length dst) < 2 ^ 32 ->
  sortPrep (tp_serializedDim plan) (tp_actualDim plan) (seq 0 2) [1; 1; 1] [1; 1; 1]
    = Ret ([3; 2; 1], [2; 1; 1], false) /\
  exists dst',
    exec (tensorTask buf stride plans tensorIdx src offset tmpDst) w
      = Ret ((0, tmpDst'), {| self := set_address dst' (self w); errlog := errlog w |}) /\
    length dst' = length dst /\
    (forall p q, 0 <= p < 2 -> 0 <= q < 3 ->
       dst' !! Z.to_nat (offset + (q * 2 + p)) = tmpDst' !! Z.to_nat (offset + (p * 3 + q))) /\
    (forall x : nat, ~ (offset <= Z.of_nat x < offset + 6) -> dst' !! x = dst !! x).
Proof.
  intros Hidx Hplan Hparam Hnum Hvec Hdims Hext Hoff Hwrap Htmp dst Hdst Hdstw.
  assert (Hbits : bitsPerElement param = 8 \/ bitsPerElement param = 16).
  { destruct Hext as [[? _]|[? _]]; auto. }
  rewrite (planDims_transposed param w Hvec Hbits) in Hdims.
  injection Hdims as Hsize Hsd Had.
  rewrite <- Hsd, <- Had.
  split; [reflexivity|].
  destruct (sortExec_spec tmpDst' offset 1 1 2 1%nat 2%nat 3%nat
              Hoff ltac:(lia) ltac:(lia) ltac:(lia) ltac:(lia) ltac:(lia)
              transposed_injective dst) as (dst' & Hrun & Hlen & Hnew & Hold).
  { split; [exact Hdstw|]. intros i j k Hr. unfold inRange, dstIndex in *. lia. }
  exists dst'. split; [|split; [exact Hlen|split]].
  - assert (Hsort : sortingRequiredLoop param (seq 0 (Z.to_nat 2)) false = Ret true).
    { change (Z.to_nat 2) with 2%nat. cbn [seq sortingRequiredLoop]. now rewrite Hvec. }
    assert (Hprep : sortPrep (tp_serializedDim plan) (tp_actualDim plan)
                      (seq 0 (Z.to_nat 2)) [1; 1; 1] [1; 1; 1]
                    = Ret ([Z.of_nat 3; Z.of_nat 2; Z.of_nat 1], [2; 1; 1], false)).
    { now rewrite <- Hsd, <- Had. }
    unfold exec, tensorTask, mbind, lift, this, return_, modify, LOG_ERROR, mret.
    rewrite (vec_get_Ret _ _ _ Hidx Hplan), (vec_get_Ret _ _ _ Hidx Hparam).
    rewrite Hnum, Hsort, Hprep. fold dst.
    destruct Hext as [[Hb Hscan]|[Hb Hscan]].
    + assert (Hsz : tp_outSize plan = 6) by (now rewrite <- Hsize, Hb).
      rewrite Hb, Hsz in *.
      change (6 =? 0) with false. change (8 =? 8) with true. cbv iota beta.
      rewrite Hscan, Hrun. reflexivity.
    + assert (Hsz : tp_outSize plan = 12) by (now rewrite <- Hsize, Hb).
      rewrite Hb, Hsz in *.
      change (12 =? 0) with false. change (16 =? 8) with false.
      change (16 =? 16) with true. cbv iota beta.
      rewrite Hscan, Hrun. reflexivity.
  - intros p q Hp Hq.
    specialize (Hnew 0 p q ltac:(unfold inRange; lia)).
    unfold dstIndex in Hnew.
    replace (offset + (1 * 0 + 1 * p + 2 * q)) with (offset + (q * 2 + p)) in Hnew by lia.
    rewrite Hnew. f_equal; lia.
  - intros x Hx. apply Hold. intros i j k Hr. unfold inRange, dstIndex in *. lia.
Qed.

(* ================================================================== *)
(** ** The detection interpreter *)

Global Instance float_inhabited : Inhabited float := populate fzero.

(** The fields of candidate [i] in the 61-element record:
    [yMin[10], xMin[10], yMax[10], xMax[10], class[10], score[10], count]. *)
Definition scoreOf (address : list float) (i : nat) : float := address !!! (50 + i)%nat.
Definition classOf (address : list float) (i : nat) : float := address !!! (40 + i)%nat.
Definition boxOf (address : list float) (i : nat) : Bbox :=
  {| xMin := address !!! (10 + i)%nat; yMin := address !!! i;
     xMax := address !!! (30 + i)%nat; yMax := address !!! (20 + i)%nat |}.

Definition recordOf (address : list float) (n : Z) : ObjectDetectionSsdOutputTensor :=
  {| numDetections := n;
     bboxes := boxOf address <$> seq 0 10;
     scores := scoreOf address <$> seq 0 10;
     classes := classOf address <$> seq 0 10 |}.

Ltac vm_step t := let r := eval vm_compute in t in change t with r.

(** The record is read field by field, and the count clamped to ten. *)
Lemma createObjectDetectionSsdData_spec (address : list float) (n0 : Z) (w : World) :
  length address = 61%nat ->
  to_unsigned 32 (ftrunc (address !!! 60%nat)) = Ret n0 ->
  exec (createObjectDetectionSsdData emptyOutputTensor address PplTotalDetections) w
  = Ret ((0, recordOf address (Z.min n0 10)),
         if 10 <? n0 then logged w "Unexpected value for numDetections" else w).
Proof.
  intros Hlen Hcount.
  do 61 (destruct address as [|? address]; [discriminate|]).
  destruct address; [|discriminate]. clear Hlen.
  cbn in Hcount.
  unfold exec, createObjectDetectionSsdData, mbind, lift.
  change (PplDnnOutputTensorSize <? wrap32 (0 + wrap32 (PplTotalDetections * 4))) with false.
  cbv iota.
  match goal with
  | |- context [extractBoxes ?a ?b ?c ?d ?e] => vm_step (extractBoxes a b c d e)
  end.
  cbv iota beta.
  match goal with
  | |- context [extractField ?p ?a ?b ?c ?d ?e] => vm_step (extractField p a b c d e)
  end.
  cbv iota beta.
  match goal with
  | |- context [extractField ?p ?a ?b ?c ?d ?e] => vm_step (extractField p a b c d e)
  end.
  cbv iota beta.
  change (PplDnnOutputTensorSize <? 60) with false. cbv iota.
  match goal with
  | |- context [vec_at ?a ?b] => vm_step (vec_at a b)
  end.
  cbv iota beta. rewrite Hcount. unfold PplTotalDetections.
  destruct (Z.ltb_spec 10 n0) as [Hgt|Hle].
  - rewrite Z.min_r by lia. reflexivity.
  - rewrite Z.min_l by lia. reflexivity.
Qed.

(** A conversion that is defined. *)
Definition defined {A} (r : result A) : Prop := exists a, r = Ret a.

(** The converted fields, where the conversions are defined. *)
Definition class8 (c : float) : Z :=
  match to_unsigned 8 (ftrunc c) with Ret z => z | Fault _ => 0 end.

Definition pixel (v : float) (extent : Z) : Z :=
  match toPixel v extent with Ret z => z | Fault _ => 0 end.

Definition pixelBox (dim : Size) (b : Bbox) : PplBbox :=
  {| mXmin := pixel (xMin b) (width dim); mYmin := pixel (yMin b) (height dim);
     mXmax := pixel (xMax b) (width dim); mYmax := pixel (yMax b) (height dim) |}.

Definition convertible (dim : Size) (b : Bbox) (c : float) : Prop :=
  defined (toPixel (xMin b) (width dim)) /\ defined (toPixel (yMin b) (height dim)) /\
  defined (toPixel (xMax b) (width dim)) /\ defined (toPixel (yMax b) (height dim)) /\
  defined (to_unsigned 8 (ftrunc c)).

(** A candidate is kept when the test [score < threshold] fails. *)
Definition kept (address : list float) (threshold : float) (i : nat) : Prop :=
  flt (scoreOf address i) threshold = false.

Global Instance kept_dec address threshold i : Decision (kept address threshold i).
Proof. unfold kept. apply _. Defined.

Lemma pixel_defined (v : float) (extent : Z) :
  defined (toPixel v extent) -> toPixel v extent = Ret (pixel v extent).
Proof. intros [z Hz]. unfold pixel. now rewrite Hz. Qed.

Lemma class8_defined (c : float) :
  defined (to_unsigned 8 (ftrunc c)) -> to_unsigned 8 (ftrunc c) = Ret (class8 c).
Proof. intros [z Hz]. unfold class8. now rewrite Hz. Qed.

Lemma recordOf_lookup (address : list float) (n : Z) (i : nat) :
  (i < 10)%nat ->
  scores (recordOf address n) !! i = Some (scoreOf address i) /\
  bboxes (recordOf address n) !! i = Some (boxOf address i) /\
  classes (recordOf address n) !! i = Some (classOf address i).
Proof.
  intros Hi. cbn [recordOf scores bboxes classes].
  rewrite !list_lookup_fmap, lookup_seq_lt by lia. auto.
Qed.

(** The filter loop keeps, in order, the candidates that pass the test. *)
Lemma filterDetections_spec (address : list float) (n : Z) (threshold : float) (dim : Size) :
  forall (ivals : list nat) (data : ObjectDetectionSsdData),
    Forall (fun i => (i < 10)%nat) ivals ->
    Forall (fun i => kept address threshold i ->
                     convertible dim (boxOf address i) (classOf address i)) ivals ->
    let keptIdx := filter (kept address threshold) ivals in
    filterDetections (recordOf address n) threshold dim ivals data
    = Ret {| dNumDetections := dNumDetections data;
             vBbox := vBbox data ++ ((fun i => pixelBox dim (boxOf address i)) <$> keptIdx);
             vScores := vScores data ++ (scoreOf address <$> keptIdx);
             vClasses := vClasses data ++ ((fun i => class8 (classOf address i)) <$> keptIdx) |}.
Proof.
  induction ivals as [|i ivals IH]; intros data Hlt Hconv keptIdx.
  - cbn. rewrite !app_nil_r. now destruct data.
  - apply Forall_cons in Hlt as [Hi Hlt]. apply Forall_cons in Hconv as [Hci Hconv].
    destruct (recordOf_lookup address n i Hi) as (Hs & Hb & Hc).
    cbn [filterDetections].
    rewrite (vec_get_Ret _ _ (scoreOf address i)) by (lia || now rewrite Nat2Z.id).
    cbn [rbind]. subst keptIdx.
    destruct (flt (scoreOf address i) threshold) eqn:Hflt.
    + rewrite filter_cons_False by (unfold kept; congruence). now apply IH.
    + rewrite filter_cons_True by exact Hflt.
      destruct (Hci Hflt) as (Hx0 & Hy0 & Hx1 & Hy1 & Hc8).
      rewrite (vec_get_Ret _ _ (boxOf address i)) by (lia || now rewrite Nat2Z.id).
      cbn [rbind].
      rewrite (pixel_defined _ _ Hx0), (pixel_defined _ _ Hy0),
        (pixel_defined _ _ Hx1), (pixel_defined _ _ Hy1).
      cbn [rbind].
      rewrite (vec_get_Ret _ _ (classOf address i)) by (lia || now rewrite Nat2Z.id).
      cbn [rbind]. rewrite (class8_defined _ Hc8). cbn [rbind].
      rewrite IH by assumption.
      cbn [push_detection dNumDetections vBbox vScores vClasses fmap list_fmap].
      rewrite <- !app_assoc. reflexivity.
Qed.

(** The candidates that survive: of the first [min(count, 10)], those that
    are kept, cut to the first [maxDetections]. *)
Definition survivors (address : list float) (count : Z) (threshold : float)
    (maxDetections : Z) : list nat :=
  take (Z.to_nat maxDetections)
    (filter (kept address threshold) (seq 0 (Z.to_nat (Z.min count 10)))).

Lemma survivors_length (address : list float) (count : Z) (threshold : float)
    (maxDetections : Z) :
  (length (filter (kept address threshold) (seq 0 (Z.to_nat (Z.min count 10)))) <= 10)%nat.
Proof.
  etransitivity; [apply length_filter|]. rewrite length_seq. lia.
Qed.

(** C9, amended. For a 61-element decoded array whose count field converts
    to an unsigned integer [count], the detections are the first
    [maxDetections] entries, in array order, of those among the first
    [min(count, 10)] candidates for which the test [score < threshold]
    fails (so that a NaN score is kept), provided the class id and the
    pixel coordinates of every kept candidate convert within range.  A
    count above ten is clamped with a log message and without failing. *)
Theorem processOutputTensor_survivors (w : World) (count : Z) :
  let t := self w in
  let address := address (outputBodyInfo_ t) in
  let threshold := threshold_ t in
  let dim := stream_size t in
  totalSize (outputBodyInfo_ t) = PplDnnOutputTensorSize ->
  length address = 61%nat ->
  0 <= maxDetections_ t ->
  to_unsigned 32 (ftrunc (address !!! 60%nat)) = Ret count ->
  Forall (fun i => kept address threshold i ->
                   convertible dim (boxOf address i) (classOf address i))
    (seq 0 (Z.to_nat (Z.min count 10))) ->
  let idx := survivors address count threshold (maxDetections_ t) in
  exec processOutputTensor w
  = Ret ({| dNumDetections := Z.of_nat (length idx);
            vBbox := (fun i => pixelBox dim (boxOf address i)) <$> idx;
            vScores := scoreOf address <$> idx;
            vClasses := (fun i => class8 (classOf address i)) <$> idx |},
         if 10 <? count then logged w "Unexpected value for numDetections" else w).
Proof.
  intros t addr threshold dim Htotal Hlen Hmax Hcount Hconv idx.
  unfold exec, processOutputTensor. unfold mbind, this, call. fold t.
  rewrite Htotal. change (negb (PplDnnOutputTensorSize =? PplDnnOutputTensorSize)) with false.
  cbv beta iota. fold addr.
  rewrite (createObjectDetectionSsdData_spec addr count w Hlen Hcount).
  change (negb (0 =? 0)) with false. cbv beta iota.
  unfold lift, analyseObjectDetectionSsdOutput. fold threshold dim.
  change (numDetections (recordOf addr (Z.min count 10))) with (Z.min count 10).
  rewrite filterDetections_spec; [|apply Forall_seq; intros; lia|exact Hconv].
  cbn [rbind emptySsdData dNumDetections vBbox vScores vClasses app].
  rewrite length_fmap.
  pose proof (survivors_length addr count threshold (maxDetections_ t)) as Hk.
  set (keptIdx := filter (kept addr threshold) (seq 0 (Z.to_nat (Z.min count 10)))) in *.
  rewrite wrap32_small by lia.
  assert (Hidx : idx = take (Z.to_nat (maxDetections_ t)) keptIdx) by reflexivity.
  destruct (Z.ltb_spec (maxDetections_ t) (Z.of_nat (length keptIdx))) as [Hcut|Hall];
    unfold return_.
  - rewrite <- !fmap_take, <- Hidx.
    replace (maxDetections_ t) with (Z.of_nat (length idx)) at 1
      by (rewrite Hidx, length_take; lia).
    reflexivity.
  - assert (Hfull : idx = keptIdx) by (rewrite Hidx; apply take_ge; lia).
    rewrite Hfull. reflexivity.
Qed.

(* ================================================================== *)
(** ** What the stage leaves unchanged *)

Section Preservation.
Context {X : Type}.
Variable proj : MobileNet -> X.

(** A statement that leaves [proj] of the object as it found it, however
    it ends. *)
Definition preserves {R A} (m : M R A) : Prop :=
  forall w, match m w with
            | Val _ w' | Rtn _ w' => proj (self w') = proj (self w)
            | Crash _ => True
            end.

Lemma preserves_mret {R A} (a : A) : preserves (@mret R A a).
Proof. intros w. reflexivity. Qed.

Lemma preserves_return {R A} (r : R) : preserves (@return_ R A r).
Proof. intros w. reflexivity. Qed.

Lemma preserves_lift {R A} (x : result A) : preserves (@lift R A x).
Proof. intros w. unfold lift. now destruct x. Qed.

Lemma preserves_this {R} : preserves (@this R).
Proof. intros w. reflexivity. Qed.

Lemma preserves_LOG_ERROR {R} (msg : string) : preserves (@LOG_ERROR R msg).
Proof. intros w. reflexivity. Qed.

Lemma preserves_modify {R} (f : MobileNet -> MobileNet) :
  (forall t, proj (f t) = proj t) -> preserves (@modify R f).
Proof. intros Hf w. cbn. apply Hf. Qed.

Lemma preserves_mbind {R A B} (m : M R A) (k : A -> M R B) :
  preserves m -> (forall a, preserves (k a)) -> preserves (mbind m k).
Proof.
  intros Hm Hk w. unfold mbind. specialize (Hm w).
  destruct (m w) as [a w1|r w1|f]; [|assumption|exact I].
  specialize (Hk a w1). destruct (k a w1); congruence || exact I.
Qed.

Lemma preserves_call {R R'} (body : M R R) : preserves body -> preserves (@call R R' body).
Proof.
  intros Hb w. unfold call, exec. specialize (Hb w).
  destruct (body w); assumption || exact I.
Qed.

Lemma preserves_exec {R} (body : M R R) (w w' : World) (r : R) :
  preserves body -> exec body w = Ret (r, w') -> proj (self w') = proj (self w).
Proof.
  intros Hb. unfold exec. specialize (Hb w).
  destruct (body w); intros [= <- <-] || discriminate; assumption.
Qed.

(** The setters of the fields the decode works on. *)
Hypothesis Hheader : forall h t, proj (set_dnnHeader h t) = proj t.
Hypothesis HapParams : forall a t, proj (set_apParams a t) = proj t.
Hypothesis HnetworkType : forall s t, proj (set_networkType s t) = proj t.
Hypothesis HoutputApParams : forall l t, proj (set_outputApParams l t) = proj t.
Hypothesis HoutputBodyInfo : forall i t, proj (set_outputBodyInfo i t) = proj t.

Ltac preserves_step :=
  first
    [ apply preserves_mret | apply preserves_return | apply preserves_lift
    | apply preserves_this | apply preserves_LOG_ERROR
    | apply preserves_call
    | apply preserves_modify; intros;
      unfold push_outputApParams, set_tensorDataNum, set_address;
      first [apply Hheader | apply HapParams | apply HnetworkType
            | apply HoutputApParams | apply HoutputBodyInfo]
    | apply preserves_mbind; [|intros]
    | match goal with
      | |- preserves (if ?b then _ else _) => destruct b
      | |- preserves (match ?x with _ => _ end) => destruct x
      | |- preserves (let _ := _ in _) => cbv zeta
      | H : _ |- _ => apply H
      end ].

Ltac preserves_tac := repeat preserves_step.

Lemma parseHeader_preserves buf src stride : preserves (parseHeader buf src stride).
Proof. unfold parseHeader. preserves_tac. Qed.

Lemma parseDimensions_preserves dims ks :
  forall vd, preserves (parseDimensions dims ks vd).
Proof. induction ks as [|k ks IH]; intros vd; cbn [parseDimensions]; preserves_tac. Qed.

Lemma parseOutputTensors_preserves ts : preserves (parseOutputTensors ts).
Proof.
  induction ts as [|t ts IH]; cbn [parseOutputTensors]; preserves_tac;
    try apply parseDimensions_preserves.
Qed.

Lemma parseNetworks_preserves ns : preserves (parseNetworks ns).
Proof.
  induction ns as [|n ns IH]; cbn [parseNetworks]; preserves_tac;
    try apply parseOutputTensors_preserves.
Qed.

Lemma parseApParams_preserves G : preserves (parseApParams G).
Proof. unfold parseApParams. preserves_tac; try apply parseNetworks_preserves. Qed.

Lemma dimensionProduct_preserves dims : forall acc, preserves (dimensionProduct dims acc).
Proof. induction dims as [|d dims IH]; intros acc; cbn [dimensionProduct]; preserves_tac. Qed.

Lemma totalOutputSize_preserves aps : forall acc, preserves (totalOutputSize aps acc).
Proof.
  induction aps as [|ap aps IH]; intros acc; cbn [totalOutputSize]; preserves_tac;
    try apply dimensionProduct_preserves.
Qed.

Lemma populateOutputBodyInfo_preserves : preserves populateOutputBodyInfo.
Proof.
  unfold populateOutputBodyInfo. preserves_tac; try apply totalOutputSize_preserves.
Qed.

Lemma planDims_preserves param idxs :
  forall sz sd ad, preserves (planDims param idxs sz sd ad).
Proof. induction idxs as [|i idxs IH]; intros sz sd ad; cbn [planDims]; preserves_tac. Qed.

Lemma planTensors_preserves stride idxs :
  forall src1 offset plans, preserves (planTensors stride idxs src1 offset plans).
Proof.
  induction idxs as [|i idxs IH]; intros src1 offset plans; cbn [planTensors];
    preserves_tac; try apply planDims_preserves.
Qed.

Lemma tensorTask_preserves buf stride plans tensorIdx src offset tmpDst :
  preserves (tensorTask buf stride plans tensorIdx src offset tmpDst).
Proof. unfold tensorTask. preserves_tac. Qed.

Lemma runTasks_preserves buf stride plans idxs :
  forall tmpDst ret, preserves (runTasks buf stride plans idxs tmpDst ret).
Proof.
  induction idxs as [|i idxs IH]; intros tmpDst ret; cbn [runTasks]; preserves_tac;
    try apply tensorTask_preserves.
Qed.

Lemma parseOutputTensorBody_preserves buf src stride :
  preserves (parseOutputTensorBody buf src stride).
Proof.
  unfold parseOutputTensorBody.
  preserves_tac; first [apply planTensors_preserves | apply runTasks_preserves].
Qed.

Lemma extractField_preserves push data ivals :
  forall count output, preserves (extractField push data ivals count output).
Proof.
  induction ivals as [|i ivals IH]; intros count output; cbn [extractField]; preserves_tac.
Qed.

Lemma createObjectDetectionSsdData_preserves output data n :
  preserves (createObjectDetectionSsdData output data n).
Proof.
  unfold createObjectDetectionSsdData. preserves_tac; try apply extractField_preserves.
Qed.

Lemma processOutputTensor_preserves : preserves processOutputTensor.
Proof.
  unfold processOutputTensor.
  preserves_tac;
    first [apply createObjectDetectionSsdData_preserves | apply extractField_preserves].
Qed.

End Preservation.

(* ================================================================== *)
(** ** Process *)

(** The configuration of the stage, set by [Read] and [Configure]. *)
Definition config (t : MobileNet) : Size * Z * float * list string :=
  (stream_size t, maxDetections_ t, threshold_ t, classes_ t).

Lemma makeDetections_length (classes : list string) (data : ObjectDetectionSsdData) :
  forall (ivals : list nat) (acc dets : list Detection),
    makeDetections classes data ivals acc = Ret dets ->
    length dets = (length acc + length ivals)%nat.
Proof.
  induction ivals as [|i ivals IH]; intros acc dets; cbn [makeDetections].
  - intros [= <-]. cbn. lia.
  - unfold rbind.
    destruct (vec_get (vClasses data) (Z.of_nat i)) as [c|]; [|discriminate].
    destruct (negb (c <? Z.of_nat (length classes))); [discriminate|].
    destruct (vec_get classes c); [|discriminate].
    destruct (vec_get (vScores data) (Z.of_nat i)); [|discriminate].
    destruct (vec_get (vBbox data) (Z.of_nat i)); [|discriminate].
    intros Hrun. apply IH in Hrun. rewrite length_app in Hrun. cbn in *. lia.
Qed.

(** The number of detections is never negative. *)
Lemma processOutputTensor_count (w w' : World) (data : ObjectDetectionSsdData) :
  0 <= maxDetections_ (self w) ->
  exec processOutputTensor w = Ret (data, w') ->
  0 <= dNumDetections data.
Proof.
  intros Hmax. unfold exec, processOutputTensor. unfold mbind, this, call.
  destruct (negb (totalSize (outputBodyInfo_ (self w)) =? PplDnnOutputTensorSize)).
  { cbn. intros [= <- _]. cbn. lia. }
  destruct (exec _ w) as [[[ret output] w1]|]; [|discriminate].
  destruct (negb (ret =? 0)).
  { cbn. intros [= <- _]. cbn. lia. }
  unfold lift, analyseObjectDetectionSsdOutput, rbind.
  destruct (filterDetections _ _ _ _ _) as [d|]; [|discriminate].
  destruct (Z.ltb_spec (maxDetections_ (self w)) (wrap32 (Z.of_nat (length (vClasses d)))));
    cbn; intros [= <- _]; cbn; [lia|apply wrap32_range].
Qed.

(** Running a body that starts with a call, and one that ends. *)
Lemma exec_bind_call {R R'} (body : M R' R') (k : R' -> M R R) (w : World) :
  exec (mbind (call body) k) w
  = match exec body w with
    | Ret (r, w1) => exec (k r) w1
    | Fault f => Fault f
    end.
Proof.
  unfold exec, mbind, call, exec. destruct (body w); reflexivity.
Qed.

Lemma exec_log_return {R} (msg : string) (r : R) (w : World) :
  exec (mbind (LOG_ERROR msg) (fun _ => return_ r)) w = Ret (r, logged w msg).
Proof. reflexivity. Qed.

Lemma exec_return {R} (r : R) (w : World) : exec (return_ r) w = Ret (r, w).
Proof. reflexivity. Qed.

Section ProcessFacts.
Variable GetFBApParams : list byte -> FBApParams.

(** How [Process] ends: with a fault, or returning [false] and either
    leaving the request alone or attaching the detections built from a
    non-empty result of [processOutputTensor]. *)
Lemma Process_cases (req : CompletedRequest) (w : World) :
  (exists f, exec (Process GetFBApParams req) w = Fault f) \/
  (exists w', exec (Process GetFBApParams req) w = Ret ((false, req), w')) \/
  (exists w4 w' data dets,
      exec (Process GetFBApParams req) w = Ret ((false, set_results dets req), w') /\
      config (self w4) = config (self w) /\
      exec processOutputTensor w4 = Ret (data, w') /\
      dNumDetections data <> 0 /\
      makeDetections (classes_ (self w')) data
        (seq 0 (Z.to_nat (dNumDetections data))) [] = Ret dets).
Proof.
  unfold Process. destruct (Imx500OutputTensor req) as [buf|].
  2: { right. left. eexists. apply exec_log_return. }
  cbv zeta. rewrite exec_bind_call.
  destruct (exec (parseHeader buf 0 4064) w) as [[r1 w1]|f1] eqn:E1;
    [|left; eexists; reflexivity].
  destruct (negb (r1 =? 0)); [right; left; eexists; apply exec_log_return|].
  rewrite exec_bind_call.
  destruct (exec (parseApParams GetFBApParams) w1) as [[r2 w2]|f2] eqn:E2;
    [|left; eexists; reflexivity].
  destruct (negb (r2 =? 0)); [right; left; eexists; apply exec_log_return|].
  rewrite exec_bind_call.
  destruct (exec populateOutputBodyInfo w2) as [[r3 w3]|f3] eqn:E3;
    [|left; eexists; reflexivity].
  destruct (negb (r3 =? 0)); [right; left; eexists; apply exec_log_return|].
  rewrite exec_bind_call.
  destruct (exec (parseOutputTensorBody buf (0 + 4064) 4064) w3) as [[r4 w4]|f4] eqn:E4;
    [|left; eexists; reflexivity].
  destruct (negb (r4 =? 0)); [right; left; eexists; apply exec_log_return|].
  rewrite exec_bind_call.
  destruct (exec processOutputTensor w4) as [[data w5]|f5] eqn:E5;
    [|left; eexists; reflexivity].
  destruct (Z.eqb_spec (dNumDetections data) 0) as [Hz|Hnz];
    [right; left; eexists; apply exec_return|].
  cbn [negb]. unfold exec, mbind, this, lift.
  destruct (makeDetections _ _ _ _) as [dets|f6] eqn:E6;
    [|left; eexists; reflexivity].
  right. right. exists w4, w5, data, dets.
  split; [reflexivity|]. split; [|auto].
  rewrite (preserves_exec config _ _ _ _
             (parseOutputTensorBody_preserves config ltac:(reflexivity) _ _ _) E4).
  rewrite (preserves_exec config _ _ _ _
             (populateOutputBodyInfo_preserves config ltac:(reflexivity)) E3).
  rewrite (preserves_exec config _ _ _ _
             (parseApParams_preserves config ltac:(reflexivity) ltac:(reflexivity) _) E2).
  rewrite (preserves_exec config _ _ _ _
             (parseHeader_preserves config ltac:(reflexivity) ltac:(reflexivity) _ _ _) E1).
  reflexivity.
Qed.
End ProcessFacts.

(** C10. [Process] returns [false] whenever it returns: without an output
    tensor in the metadata, on every failure and on success alike.  The
    detections are conveyed only through the entry
    ["object_detect.results"], which is written only with at least one
    detection. *)
Theorem Process_returns_false (GetFBApParams : list byte -> FBApParams)
    (req : CompletedRequest) (w : World) :
  0 <= maxDetections_ (self w) ->
  (Imx500OutputTensor req = None ->
   exec (Process GetFBApParams req) w
   = Ret ((false, req), logged w "No output tensor found in metadata!")) /\
  match exec (Process GetFBApParams req) w with
  | Ret ((b, req'), _) =>
      b = false /\
      (req' = req \/ exists dets, dets <> [] /\ req' = set_results dets req)
  | Fault _ => True
  end.
Proof.
  intros Hmax. split.
  { intros Hnone. unfold Process. rewrite Hnone. apply exec_log_return. }
  destruct (Process_cases GetFBApParams req w)
    as [[f ->]|[[w' ->]|(w4 & w' & data & dets & -> & Hcfg & Hrun & Hnz & Hdets)]].
  - exact I.
  - auto.
  - split; [reflexivity|]. right. exists dets. split; [|reflexivity].
    assert (Hmax4 : 0 <= maxDetections_ (self w4)).
    { unfold config in Hcfg. injection Hcfg as _ Hm _ _. now rewrite Hm. }
    pose proof (processOutputTensor_count w4 w' data Hmax4 Hrun) as Hcount.
    apply makeDetections_length in Hdets. rewrite length_seq in Hdets.
    intros ->. cbn in Hdets. lia.
Qed.

(* ================================================================== *)
(** ** Concrete frames *)

Definition fone : float := S754_finite false 8388608 (-23).       (* 1.0 *)
Definition fhalf : float := S754_finite false 8388608 (-24).      (* 0.5 *)
Definition f0_3 : float := S754_finite false 10066330 (-25).      (* 0.3f *)
Definition f36 : float := S754_finite false 9437184 (-18).        (* 36.0 *)

(** The object after [Read] and [Configure]. *)
Definition newMobileNet (dim : Size) (maxDetections : Z) (threshold : float)
    (classes : list string) : MobileNet :=
  {| stream_size := dim;
     dnnHeader_ := {| frameValid := 0; frameCount := 0; maxLineLen := 0;
                      apParamSize := 0; networkId := 0; tensorType := 0 |};
     apParams_ := []; networkType_ := ""; outputApParams_ := [];
     outputBodyInfo_ := {| address := []; totalSize := 0; tensorNum := 0;
                           tensorDataNum := [] |};
     maxDetections_ := maxDetections; threshold_ := threshold; classes_ := classes |}.

Definition testStage : MobileNet :=
  newMobileNet {| width := 640; height := 480 |} 10 f0_3 ["a"; "b"; "c"; "d"; "e"]%string.

Definition newWorld (t : MobileNet) : World := {| self := t; errlog := [] |}.

(** The twelve bytes at the start of a valid frame. *)
Definition headerBytes (maxLineLen_ apParamSize_ networkId_ : Z) : list byte :=
  byte_of_Z <$> [1; 0; maxLineLen_ mod 256; maxLineLen_ / 256;
                 apParamSize_ mod 256; apParamSize_ / 256;
                 networkId_ mod 256; networkId_ / 256; 1; 0; 0; 0].

(** A frame of stride 4064: the header line, then the lines of the body. *)
Definition frame (header : list byte) (body : list Z) : list byte :=
  header ++ replicate (4064 - length header) x00%byte ++ (byte_of_Z <$> body).

Definition mkFBDim (o s i : Z) : FBDimension :=
  {| fbd_id := o; fbd_size := s; fbd_serializationIndex := i; fbd_padding := 0 |}.

(** A table with the single network 7 and a single 8-bit unsigned output
    tensor of scale 1 and shift 0. *)
Definition oneTensorTable (dims : list FBDimension) : FBApParams :=
  [ {| fbn_id := 7; fbn_type := "ssd";
       fbn_outputTensors :=
         [ {| fbt_id := 0; fbt_name := "out";
              fbt_numOfDimensions := Z.of_nat (length dims);
              fbt_dimensions := dims;
              fbt_bitsPerElement := 8; fbt_shift := 0; fbt_scale := fone;
              fbt_format := TYPE_UNSIGNED |} ] |} ].

Definition requestOf (buf : list byte) : CompletedRequest :=
  {| Imx500OutputTensor := Some buf; object_detect_results := None |}.

(** The world in which the schema [table] has just been interpreted. *)
Definition afterSchema (table : FBApParams) (buf : list byte) : World :=
  match exec (parseHeader buf 0 4064) (newWorld testStage) with
  | Ret (_, w1) =>
      match exec (parseApParams (fun _ => table)) w1 with
      | Ret (_, w2) => w2
      | Fault _ => newWorld testStage
      end
  | Fault _ => newWorld testStage
  end.

(** A frame with five elements in all. *)
Definition fiveTable : FBApParams := oneTensorTable [mkFBDim 0 5 0].
Definition fiveFrame : list byte := frame (headerBytes 100 0 7) [1; 2; 3; 4; 5].

(** A frame of the supported topology: the boxes are the whole image, the
    candidates 0 and 2 have score 1 and the count is 3. *)
Definition ssdBody : list Z :=
  [0;0;0;0;0;0;0;0;0;0] ++ [0;0;0;0;0;0;0;0;0;0] ++
  [1;1;1;1;1;1;1;1;1;1] ++ [1;1;1;1;1;1;1;1;1;1] ++
  [2;3;4;0;1;2;3;4;0;1] ++ [1;0;1;0;0;0;0;0;0;0] ++ [3].
Definition ssdTable : FBApParams := oneTensorTable [mkFBDim 0 61 0].
Definition ssdFrame : list byte := frame (headerBytes 100 0 7) ssdBody.

(** A schema with a dimension of size zero. *)
Definition zeroDimTable : FBApParams := oneTensorTable [mkFBDim 0 0 0].

(** A descriptor with four dimensions, serialized out of order. *)
Definition rank4Table : FBApParams :=
  oneTensorTable [mkFBDim 0 61 3; mkFBDim 1 1 0; mkFBDim 2 1 1; mkFBDim 3 1 2].

(** A decoded array whose first candidate has a NaN score, with count 1. *)
Definition nanAddress : list float :=
  replicate 50 fzero ++ [S754_nan] ++ replicate 9 fzero ++ [fone].

Definition withAddress (a : list float) (t : MobileNet) : MobileNet :=
  set_outputBodyInfo {| address := a; totalSize := 61; tensorNum := 1;
                        tensorDataNum := [61] |} t.

(** The claim C9 read literally: the scores that are at least the
    threshold, among the first [min(count, 10)], cut to [maxDetections]. *)
Definition scoresAtLeast (address : list float) (count : Z) (threshold : float)
    (maxDetections : Z) : list float :=
  take (Z.to_nat maxDetections)
    (filter (fun s => fle threshold s = true)
       (scoreOf address <$> seq 0 (Z.to_nat (Z.min count 10)))).

(** The world in which the layout has just been planned, and the world
    [Process] leaves. *)
Definition afterPlan (table : FBApParams) (buf : list byte) : World :=
  match exec populateOutputBodyInfo (afterSchema table buf) with
  | Ret (_, w) => w
  | Fault _ => newWorld testStage
  end.

Definition afterProcess (table : FBApParams) (buf : list byte) : World :=
  match exec (Process (fun _ => table) (requestOf buf)) (newWorld testStage) with
  | Ret (_, w) => w
  | Fault _ => newWorld testStage
  end.

Definition rank4Frame : list byte :=
  frame (headerBytes 100 0 7) (seqZ 1 61).

Definition zeroDimFrame : list byte := frame (headerBytes 100 0 7) [].

(** A descriptor list in which a zero size comes before an element count
    beyond [UINT32_MAX]. *)
Definition paramOf (dims : list Dimensions) : OutputTensorApParams :=
  {| id := 0; name := ""; numDimensions := Z.of_nat (length dims);
     bitsPerElement := 8; vecDim := dims; shift := 0; scale := fone;
     format := TYPE_UNSIGNED |}.

Definition overflowParams : list OutputTensorApParams :=
  [paramOf [mkDim 0 0 0]; paramOf [mkDim 0 65535 0; mkDim 1 65535 1; mkDim 2 65535 2]].

(** The transposed 2 x 3 tensor, alone in a frame of one six-byte line. *)
Definition transposedPlan : TensorPlan :=
  {| tp_offset := 0; tp_src := 0; tp_numLines := 1; tp_outSize := 6;
     tp_serializedDim := [mkDim 0 3 1; mkDim 0 2 0];
     tp_actualDim := [mkDim 0 2 1; mkDim 0 3 0] |}.

Definition transposedWorld : World :=
  newWorld
    (set_outputBodyInfo
       {| address := replicate 6 fzero; totalSize := 6; tensorNum := 1;
          tensorDataNum := [6] |}
       (set_outputApParams
          [ {| id := 0; name := ""; numDimensions := 2; bitsPerElement := 8;
               vecDim := transposedDims; shift := 0; scale := fone;
               format := TYPE_UNSIGNED |} ]
          (set_dnnHeader
             {| frameValid := 1; frameCount := 0; maxLineLen := 6;
                apParamSize := 0; networkId := 7; tensorType := 1 |}
             testStage))).

(** The array a frame of the supported topology decodes to. *)
Definition ssdAddress : list float := float_of_Z <$> ssdBody.

(* ================================================================== *)
(** ** The claims at concrete frames *)

(** A closed arithmetic fact, by [lia] or by evaluation. *)
Ltac closed :=
  first [ lia | reflexivity | vm_compute; reflexivity | vm_compute; discriminate
        | split; closed ].

Lemma parseHeader_destripes_witness :
  let buf := headerBytes 100 8 7 ++ (byte_of_Z <$> [10; 11; 12; 13; 14; 15; 16; 17]) in
  exists w',
    exec (parseHeader buf 0 16) (newWorld testStage) = Ret (0, w') /\
    apParams_ (self w') !! 5%nat = buf !! Z.to_nat (0 + 1 * 16 + 1).
Proof.
  intros buf.
  destruct (parseHeader_destripes buf 0 16 (newWorld testStage)
              {| frameValid := 1; frameCount := 0; maxLineLen := 100;
                 apParamSize := 8; networkId := 7; tensorType := 1 |})
    as (w' & Hrun & _ & _ & _ & Hbytes).
  - closed.
  - closed.
  - reflexivity.
  - closed.
  - closed.
  - exists w'. split; [exact Hrun|]. exact (Hbytes 5 ltac:(closed)).
Defined.

Lemma scanLines8_dequantizes_witness :
  let param := {| id := 0; name := ""; numDimensions := 1; bitsPerElement := 8;
                  vecDim := [mkDim 0 1 0]; shift := 128; scale := fhalf;
                  format := TYPE_UNSIGNED |} in
  exists tmpDst',
    scanLines8 [byte_of_Z 200] param 1 1 0 1 1 0 0 [fzero] = Ret tmpDst' /\
    tmpDst' !! 0%nat = Some f36.
Proof.
  intros param.
  destruct (scanLines8_dequantizes [byte_of_Z 200] param 1 1 0 1 0 1 [fzero])
    as (tmp' & Hrun & _ & Hval & _).
  - closed.
  - closed.
  - closed.
  - closed.
  - closed.
  - closed.
  - closed.
  - intros k Hk. change (0 <= k < 1) in Hk. assert (k = 0) as -> by lia. reflexivity.
  - exists tmp'. split; [exact Hrun|].
    destruct (Hval 0 ltac:(closed)) as (b & Hb & Hk).
    cbn in Hb. injection Hb as <-. exact Hk.
Defined.

Lemma scanLines16_assembles_witness :
  let param := {| id := 0; name := ""; numDimensions := 1; bitsPerElement := 16;
                  vecDim := [mkDim 0 1 0]; shift := 0; scale := fone;
                  format := TYPE_SIGNED |} in
  exists tmpDst',
    scanLines16 (byte_of_Z <$> [254; 255]) param 2 2 0 2 1 0 0 [fzero] = Ret tmpDst' /\
    tmpDst' !! 0%nat = Some (float_of_Z (-2)).
Proof.
  intros param.
  destruct (scanLines16_assembles (byte_of_Z <$> [254; 255]) param 2 2 0 2 0 1 [fzero])
    as (tmp' & Hrun & _ & Hval & _).
  - closed.
  - closed.
  - closed.
  - closed.
  - closed.
  - closed.
  - closed.
  - intros k Hk. change (0 <= k < 1) in Hk. assert (k = 0) as -> by lia. reflexivity.
  - exists tmp'. split; [exact Hrun|].
    destruct (Hval 0 ltac:(closed)) as (b0 & b1 & Hb0 & Hb1 & Hk).
    cbn in Hb0, Hb1. injection Hb0 as <-. injection Hb1 as <-. exact Hk.
Defined.

Lemma tensorTask_transposes_witness :
  let buf := byte_of_Z <$> [10; 11; 12; 13; 14; 15] in
  exists dst',
    exec (tensorTask buf 6 [transposedPlan] 0 0 0 (replicate 6 fzero)) transposedWorld
      = Ret ((0, float_of_Z <$> [10; 11; 12; 13; 14; 15]),
             {| self := set_address dst' (self transposedWorld); errlog := [] |}) /\
    dst' !! 1%nat = Some (float_of_Z 13).
Proof.
  intros buf.
  destruct (tensorTask_transposes buf 6 [transposedPlan] 0 0 0 (replicate 6 fzero)
              (float_of_Z <$> [10; 11; 12; 13; 14; 15]) transposedWorld
              {| id := 0; name := ""; numDimensions := 2; bitsPerElement := 8;
                 vecDim := transposedDims; shift := 0; scale := fone;
                 format := TYPE_UNSIGNED |} transposedPlan)
    as (_ & dst' & Hrun & _ & Htr & _).
  - closed.
  - reflexivity.
  - reflexivity.
  - reflexivity.
  - reflexivity.
  - reflexivity.
  - left. split; [reflexivity|]. vm_compute. reflexivity.
  - closed.
  - closed.
  - closed.
  - closed.
  - closed.
  - exists dst'. split; [exact Hrun|]. exact (Htr 1 0 ltac:(closed) ltac:(closed)).
Defined.

Lemma processOutputTensor_survivors_witness :
  exec processOutputTensor (newWorld (withAddress ssdAddress testStage))
  = Ret ({| dNumDetections := 2;
            vBbox := [ {| mXmin := 0; mYmin := 0; mXmax := 639; mYmax := 479 |};
                       {| mXmin := 0; mYmin := 0; mXmax := 639; mYmax := 479 |} ];
            vScores := [fone; fone];
            vClasses := [2; 4] |},
         newWorld (withAddress ssdAddress testStage)).
Proof.
  rewrite (processOutputTensor_survivors (newWorld (withAddress ssdAddress testStage)) 3).
  - vm_compute. reflexivity.
  - reflexivity.
  - reflexivity.
  - closed.
  - vm_compute. reflexivity.
  - apply Forall_seq. intros i Hi _.
    assert (Hcases : (i = 0 \/ i = 1 \/ i = 2)%nat) by (vm_compute in Hi; lia).
    destruct Hcases as [->|[->| ->]]; repeat split; eexists; vm_compute; reflexivity.
Defined.

(** C9 fails as stated: with a NaN score in the first candidate and a count
    of 1, the candidate survives, although its score is not at least the
    threshold. *)
Lemma survivors_counterexample :
  let w := newWorld (withAddress nanAddress testStage) in
  exists data,
    exec processOutputTensor w = Ret (data, w) /\
    vScores data = [S754_nan] /\
    scoresAtLeast nanAddress 1 f0_3 10 = [] /\
    vScores data <> scoresAtLeast nanAddress 1 f0_3 10.
Proof.
  eexists. split; [vm_compute; reflexivity|]. split; [reflexivity|].
  split; [vm_compute; reflexivity|]. vm_compute. discriminate.
Qed.

(** C1 fails as stated: with a total of five elements the layout planner
    succeeds, and the tensor body is decoded before the total is looked
    at. *)
Lemma topology_gate_counterexample :
  let w := afterSchema fiveTable fiveFrame in
  exists w1 w2,
    exec populateOutputBodyInfo w = Ret (0, w1) /\
    totalSize (outputBodyInfo_ (self w1)) = 5 /\
    exec (parseOutputTensorBody fiveFrame 4064 4064) w1 = Ret (0, w2) /\
    address (outputBodyInfo_ (self w2)) = float_of_Z <$> [1; 2; 3; 4; 5] /\
    errlog w2 = [].
Proof.
  do 2 eexists. split; [vm_compute; reflexivity|]. split; [reflexivity|].
  split; [vm_compute; reflexivity|]. split; reflexivity.
Qed.

Lemma Process_returns_false_witness :
  0 <= 10 /\
  match exec (Process (fun _ => ssdTable) (requestOf ssdFrame)) (newWorld testStage) with
  | Ret ((b, req'), _) =>
      b = false /\
      (req' = requestOf ssdFrame \/
       exists dets, dets <> [] /\ req' = set_results dets (requestOf ssdFrame))
  | Fault _ => True
  end.
Proof.
  split; [lia|].
  apply (Process_returns_false (fun _ => ssdTable) (requestOf ssdFrame) (newWorld testStage)).
  closed.
Defined.

(** A frame of the supported topology, decoded: [Process] returns [false]
    and attaches the candidates 0 and 2. *)
Example Process_ssdFrame :
  exists w',
    exec (Process (fun _ => ssdTable) (requestOf ssdFrame)) (newWorld testStage)
    = Ret ((false,
            set_results
              [ {| category := 2; det_name := "c"; confidence := fone;
                   box_x := 0; box_y := 0; box_w := 639; box_h := 479 |};
                {| category := 4; det_name := "e"; confidence := fone;
                   box_x := 0; box_y := 0; box_w := 639; box_h := 479 |} ]
              (requestOf ssdFrame)), w') /\
    errlog w' = [].
Proof. eexists. split; [vm_compute; reflexivity|reflexivity]. Qed.

(** C4 fails on the code: a descriptor of four dimensions that needs a
    reorder is logged and decoded all the same; the body parser returns 0
    with one element of the 61 in place, and [Process] goes on. *)
Theorem rank4_is_not_rejected :
  let w := afterPlan rank4Table rank4Frame in
  exists w',
    exec (parseOutputTensorBody rank4Frame 4064 4064) w = Ret (0, w') /\
    errlog w' = ["numDimensions value is 3 or higher"]%string /\
    address (outputBodyInfo_ (self w')) = float_of_Z 1 :: replicate 60 fzero.
Proof.
  eexists. split; [vm_compute; reflexivity|]. split; reflexivity.
Qed.

(** C2 fails on the code: a schema with a dimension of size zero makes the
    overflow guard of the layout planner divide by zero. *)
Theorem zero_dimension_divides_by_zero :
  exec (Process (fun _ => zeroDimTable) (requestOf zeroDimFrame)) (newWorld testStage)
  = Fault DivisionByZero.
Proof. vm_compute. reflexivity. Qed.

(** C6 fails on the code: behind a dimension of size zero, an element
    count beyond [UINT32_MAX] is not reported; the planner divides by
    zero. *)
Theorem overflow_behind_zero_dimension :
  let w := newWorld (set_outputApParams overflowParams testStage) in
  (exists ap, ap ∈ overflowParams /\ UINT32_MAX < trueProduct (vecDim ap)) /\
  exec populateOutputBodyInfo w = Fault DivisionByZero.
Proof.
  split; [|vm_compute; reflexivity].
  eexists. split; [apply list_elem_of_further, list_elem_of_here|].
  vm_compute. reflexivity.
Qed.
(* ================================================================== *)
(** * Further properties of the decode path *)

(** ** parseHeader: the schema is a contiguous run of the buffer *)

(** The bytes the copy loop reads lie one after the other in the buffer:
    the jump to the next line moves the line pointer by one stride and
    [MipiPhSize = 0] bytes, which is where the cursor already stands.  A
    stride of zero switches the jump off. *)
Lemma copyApParams_contiguous (buf : list byte) (stride : Z) :
  stride = 0 \/ 0 < stride < 2 ^ 32 ->
  forall (n j0 : nat) (src i : Z) (ap : list byte),
    0 <= i -> (stride <> 0 -> i <= stride) ->
    i + Z.of_nat n < 2 ^ 32 ->
    0 <= src + i ->
    src + i + Z.of_nat n <= Z.of_nat (length buf) ->
    (j0 + n <= length ap)%nat ->
    exists ap',
      copyApParams buf stride (seq j0 n) src i ap = Ret ap' /\
      length ap' = length ap /\
      (forall j, (j < n)%nat ->
         ap' !! (j0 + j)%nat = buf !! (Z.to_nat (src + i) + j)%nat) /\
      (forall j, (j < j0)%nat -> ap' !! j = ap !! j).
Proof.
  intros Hstride.
  induction n as [|n IH]; intros j0 src i ap Hi Hle Hwrap Hpos Hbuf Hap.
  - exists ap. cbn. split; [reflexivity|]. split; [reflexivity|].
    split; [intros j Hj; lia|reflexivity].
  - cbn [seq copyApParams].
    set (wrapped := negb (stride =? 0) && (stride <=? i)).
    set (src' := if wrapped then src + (stride + MipiPhSize) else src).
    set (i' := if wrapped then 0 else i).
    assert (Hi' : 0 <= i' /\ (stride <> 0 -> i' < stride) /\ i' <= i /\
                  src' + i' = src + i).
    { subst wrapped src' i'. unfold MipiPhSize.
      destruct (Z.eqb_spec stride 0) as [?|?]; cbn; [lia|].
      destruct (Z.leb_spec stride i); cbn; lia. }
    destruct Hi' as (Hi0 & Hlt & Hii & Hsum).
    destruct (lookup_lt_is_Some_2 buf (Z.to_nat (src + i))) as [b Hb]; [lia|].
    rewrite Hsum. rewrite (loadb_Ret _ _ b) by (assumption || lia). cbn [rbind].
    rewrite vec_set_Ret by lia. cbn [rbind]. rewrite Nat2Z.id.
    rewrite wrap32_small by lia.
    destruct (IH (S j0) src' (i' + 1) (<[j0 := b]> ap)) as (ap' & Hrun & Hlen & Hnew & Hold).
    + lia.
    + intros Hne. specialize (Hlt Hne). lia.
    + lia.
    + lia.
    + lia.
    + rewrite length_insert. lia.
    + exists ap'. split; [exact Hrun|]. rewrite length_insert in Hlen.
      split; [exact Hlen|]. split.
      * intros j Hj. destruct j as [|j].
        -- rewrite Nat.add_0_r, Hold by lia.
           rewrite list_lookup_insert_eq by lia. now rewrite Nat.add_0_r, Hb.
        -- replace (j0 + S j)%nat with (S j0 + j)%nat by lia.
           rewrite Hnew by lia. f_equal. lia.
      * intros j Hj. rewrite Hold by lia. apply list_lookup_insert_ne. lia.
Qed.

(** The copy loop reads past the end of a buffer that is too short for the
    bytes it is asked for. *)
Lemma copyApParams_truncated (buf : list byte) (stride : Z) :
  stride = 0 \/ 0 < stride < 2 ^ 32 ->
  forall (n j0 : nat) (src i : Z) (ap : list byte),
    0 <= i -> (stride <> 0 -> i <= stride) ->
    i + Z.of_nat n < 2 ^ 32 ->
    0 <= src + i ->
    (0 < n)%nat ->
    Z.of_nat (length buf) < src + i + Z.of_nat n ->
    (j0 + n <= length ap)%nat ->
    copyApParams buf stride (seq j0 n) src i ap = Fault OutOfBoundsRead.
Proof.
  intros Hstride.
  induction n as [|n IH]; intros j0 src i ap Hi Hle Hwrap Hpos Hn Hbuf Hap.
  - lia.
  - cbn [seq copyApParams].
    set (wrapped := negb (stride =? 0) && (stride <=? i)).
    set (src' := if wrapped then src + (stride + MipiPhSize) else src).
    set (i' := if wrapped then 0 else i).
    assert (Hi' : 0 <= i' /\ (stride <> 0 -> i' < stride) /\ i' <= i /\
                  src' + i' = src + i).
    { subst wrapped src' i'. unfold MipiPhSize.
      destruct (Z.eqb_spec stride 0) as [?|?]; cbn; [lia|].
      destruct (Z.leb_spec stride i); cbn; lia. }
    destruct Hi' as (Hi0 & Hlt & Hii & Hsum).
    rewrite Hsum.
    destruct (buf !! Z.to_nat (src + i)) as [b|] eqn:Hb.
    + rewrite (loadb_Ret _ _ b) by (assumption || lia). cbn [rbind].
      rewrite vec_set_Ret by lia. cbn [rbind].
      rewrite wrap32_small by lia.
      apply lookup_lt_Some in Hb.
      apply IH; try lia. rewrite length_insert. lia.
    + unfold loadb. destruct (src + i <? 0); [reflexivity|]. now rewrite Hb.
Qed.

(** What [parseHeader] leaves for a valid frame whose schema lies inside
    the buffer. *)
Lemma parseHeader_run (buf : list byte) (src stride : Z) (w : World) (h : DnnHeader) :
  stride = 0 \/ 12 <= stride < 2 ^ 32 ->
  0 <= src ->
  read_DnnHeader buf src = Ret h ->
  frameValid h <> 0 ->
  src + 12 + apParamSize h <= Z.of_nat (length buf) ->
  exec (parseHeader buf src stride) w
  = Ret (0, {| self := set_apParams
                         (take (Z.to_nat (apParamSize h)) (drop (Z.to_nat (src + 12)) buf))
                         (set_dnnHeader h (self w));
               errlog := errlog w |}).
Proof.
  intros Hstride Hsrc Hh Hvalid Hlen.
  pose proof (read_DnnHeader_range _ _ _ Hh) as (_ & _ & Hsize & _).
  destruct (copyApParams_contiguous buf stride ltac:(lia)
              (Z.to_nat (apParamSize h)) 0%nat src DnnHeaderSize
              (resize (Z.to_nat (apParamSize h)) x00%byte (apParams_ (self w))))
    as (ap & Hrun & Hlen' & Hnew & _); unfold DnnHeaderSize; try lia.
  { rewrite length_resize. lia. }
  unfold exec, parseHeader, mbind, lift, modify, this, return_. rewrite Hh. cbn.
  destruct (Z.eqb_spec (frameValid h) 0) as [?|_]; [contradiction|].
  cbn. rewrite Hrun. do 4 f_equal.
  rewrite length_resize in Hlen'.
  apply list_eq. intros j.
  destruct (Nat.lt_ge_cases j (Z.to_nat (apParamSize h))) as [Hj|Hj].
  - specialize (Hnew j Hj). cbn in Hnew. rewrite Hnew.
    rewrite lookup_take_lt by lia. now rewrite lookup_drop.
  - rewrite lookup_take_ge by lia. apply lookup_ge_None. lia.
Qed.

(** X1. The schema [parseHeader] recovers from a valid frame is the run of
    [apParamSize] buffer bytes that starts twelve bytes after the header,
    whatever the stride (zero, or at least twelve): the lines of the buffer
    follow each other without a gap, so the line jumps of the copy loop
    never skip or repeat a byte.  The header is stored, nothing is logged
    and the rest of the object is left alone. *)
Theorem parseHeader_contiguous (buf : list byte) (src stride : Z) (w w' : World)
    (h : DnnHeader) (r : Z) :
  stride = 0 \/ 12 <= stride < 2 ^ 32 ->
  0 <= src ->
  read_DnnHeader buf src = Ret h ->
  frameValid h <> 0 ->
  src + 12 + apParamSize h <= Z.of_nat (length buf) ->
  exec (parseHeader buf src stride) w = Ret (r, w') ->
  r = 0 /\
  apParams_ (self w')
    = take (Z.to_nat (apParamSize h)) (drop (Z.to_nat (src + 12)) buf) /\
  dnnHeader_ (self w') = h /\
  errlog w' = errlog w /\
  outputApParams_ (self w') = outputApParams_ (self w) /\
  outputBodyInfo_ (self w') = outputBodyInfo_ (self w).
Proof.
  intros Hstride Hsrc Hh Hvalid Hlen.
  rewrite (parseHeader_run buf src stride w h) by assumption.
  intros [= <- <-]. cbn. repeat split.
Qed.

(** X2. A valid frame whose header announces a schema that does not end
    inside the buffer makes [parseHeader] read past the end of the buffer: the
    announced size is never compared with the size of the buffer. *)
Theorem parseHeader_truncated (buf : list byte) (src stride : Z) (w : World)
    (h : DnnHeader) :
  stride = 0 \/ 12 <= stride < 2 ^ 32 ->
  0 <= src ->
  read_DnnHeader buf src = Ret h ->
  frameValid h <> 0 ->
  0 < apParamSize h ->
  Z.of_nat (length buf) < src + 12 + apParamSize h ->
  exec (parseHeader buf src stride) w = Fault OutOfBoundsRead.
Proof.
  intros Hstride Hsrc Hh Hvalid Hpos Hlen.
  pose proof (read_DnnHeader_range _ _ _ Hh) as (_ & _ & Hsize & _).
  unfold exec, parseHeader, mbind, lift, modify, this, return_. rewrite Hh. cbn.
  destruct (Z.eqb_spec (frameValid h) 0) as [?|_]; [contradiction|].
  cbn. rewrite copyApParams_truncated; unfold DnnHeaderSize; try lia.
  - reflexivity.
  - rewrite length_resize. lia.
Qed.

(* ================================================================== *)
(** ** parseApParams: which network is read *)

(** Networks with another id, in front of the rest of the table, are
    skipped without a trace. *)
Lemma parseNetworks_skip (pre post : list FBNetwork) (w : World) :
  Forall (fun n => fbn_id n <> networkId (dnnHeader_ (self w))) pre ->
  parseNetworks (pre ++ post) w = parseNetworks post w.
Proof.
  induction 1 as [|n pre Hn _ IH]; [reflexivity|].
  cbn [app parseNetworks]. unfold mbind at 1, this at 1.
  destruct (Z.eqb_spec (fbn_id n) (networkId (dnnHeader_ (self w)))) as [?|_];
    [contradiction|exact IH].
Qed.

(** What [parseApParams] leaves when no network of the table carries the
    id of the header. *)
Lemma parseApParams_unmatched (G : list byte -> FBApParams) (w : World) :
  Forall (fun n => fbn_id n <> networkId (dnnHeader_ (self w))) (G (apParams_ (self w))) ->
  exec (parseApParams G) w
  = Ret (0, {| self := set_outputApParams [] (self w); errlog := errlog w |}).
Proof.
  intros Hnone. unfold exec, parseApParams, mbind, this, modify, return_.
  pose proof (parseNetworks_skip (G (apParams_ (self w))) []
                {| self := set_outputApParams [] (self w); errlog := errlog w |} Hnone) as Hskip.
  rewrite app_nil_r in Hskip. rewrite Hskip. reflexivity.
Qed.

(** X3. When no network of the schema carries the network id of the
    header, [parseApParams] still returns 0: it leaves an empty descriptor
    list, logs nothing and keeps the network type of the frame before. *)
Theorem parseApParams_no_match (G : list byte -> FBApParams) (w w' : World) (r : Z) :
  Forall (fun n => fbn_id n <> networkId (dnnHeader_ (self w))) (G (apParams_ (self w))) ->
  exec (parseApParams G) w = Ret (r, w') ->
  r = 0 /\ outputApParams_ (self w') = [] /\
  networkType_ (self w') = networkType_ (self w) /\ errlog w' = errlog w.
Proof.
  intros Hnone. rewrite (parseApParams_unmatched G w Hnone).
  intros [= <- <-]. cbn. repeat split.
Qed.

(** X4. Only the first network that carries the network id of the header
    is read: the networks before it are skipped, and whatever follows it in
    the table, a second network of the same id included, has no effect. *)
Theorem parseApParams_first_match (G : list byte -> FBApParams) (w : World)
    (pre post : list FBNetwork) (n : FBNetwork) :
  G (apParams_ (self w)) = pre ++ n :: post ->
  Forall (fun m => fbn_id m <> networkId (dnnHeader_ (self w))) pre ->
  fbn_id n = networkId (dnnHeader_ (self w)) ->
  exec (parseApParams G) w = exec (parseApParams (fun _ => [n])) w.
Proof.
  intros Htable Hpre Hn.
  unfold exec, parseApParams, mbind, this, modify, return_.
  rewrite Htable.
  rewrite (parseNetworks_skip pre (n :: post)) by exact Hpre.
  cbn [parseNetworks]. unfold mbind, this, modify.
  cbn [self dnnHeader_ set_outputApParams].
  rewrite Hn, Z.eqb_refl. reflexivity.
Qed.

(** A stored dimension and a stored descriptor as the copy leaves them:
    zero padding, and every field within the width of its type. *)
Definition storedDim (d : Dimensions) : Prop :=
  padding d = 0 /\ 0 <= size d < 65536 /\
  0 <= ordinal d < 256 /\ 0 <= serializationIndex d < 256.

Definition storedParams (ap : OutputTensorApParams) : Prop :=
  Forall storedDim (vecDim ap) /\
  0 <= numDimensions ap < 65536 /\ 0 <= bitsPerElement ap < 256 /\
  0 <= shift ap < 65536 /\ 0 <= format ap < 256.

Lemma wrap_range (w z : Z) : 0 <= w -> 0 <= wrap w z < 2 ^ w.
Proof. intros Hw. unfold wrap. apply Z.mod_pos_bound. now apply Z.pow_pos_nonneg. Qed.

Lemma parseDimensions_cases (dims : list FBDimension) :
  forall (ks : list nat) (vd : list Dimensions) (w : World),
    Forall storedDim vd ->
    match parseDimensions dims ks vd w with
    | Val vd' w' => w' = w /\ Forall storedDim vd' /\
                    length vd' = (length vd + length ks)%nat
    | Rtn r w' =>
        r = -1 /\ w' = logged w "Error in AP Params, Non-Zero padding for Dimension"
    | Crash f => f = OutOfBoundsRead
    end.
Proof.
  induction ks as [|k ks IH]; intros vd w Hvd.
  - cbn. split; [reflexivity|]. split; [assumption|lia].
  - cbn [parseDimensions]. unfold mbind at 1, lift, fb_Get.
    destruct (dims !! k) as [d|]; [|reflexivity].
    cbn [padding].
    destruct (Z.eqb_spec (wrap8 (fbd_padding d)) 0) as [Hpad|Hpad]; cbn [negb].
    + match goal with |- context [parseDimensions dims ks ?v w] => specialize (IH v w) end.
      pose proof (wrap_range 8 (fbd_id d) ltac:(lia)).
      pose proof (wrap_range 16 (fbd_size d) ltac:(lia)).
      pose proof (wrap_range 8 (fbd_serializationIndex d) ltac:(lia)).
      lapply IH.
      2: { apply Forall_app. split; [assumption|]. apply Forall_singleton.
           unfold storedDim, wrap8, wrap16. cbn. repeat split; try lia. exact Hpad. }
      destruct (parseDimensions dims ks _ w) as [vd' w'|r w'|f]; [|auto..].
      intros (Hw & Hall & Hlen). split; [assumption|]. split; [assumption|].
      rewrite Hlen, length_app. cbn. lia.
    + split; reflexivity.
Qed.

Lemma parseOutputTensors_cases (ts : list FBOutputTensor) :
  forall w : World,
    Forall storedParams (outputApParams_ (self w)) ->
    match parseOutputTensors ts w with
    | Val _ w' =>
        errlog w' = errlog w /\ Forall storedParams (outputApParams_ (self w')) /\
        length (outputApParams_ (self w'))
          = (length (outputApParams_ (self w)) + length ts)%nat
    | Rtn r w' =>
        r = -1 /\
        errlog w' = errlog w ++ ["Error in AP Params, Non-Zero padding for Dimension"%string]
    | Crash f => f = OutOfBoundsRead
    end.
Proof.
  induction ts as [|t ts IH]; intros w Hw.
  - cbn. split; [reflexivity|]. split; [assumption|lia].
  - cbn [parseOutputTensors]. unfold mbind at 1.
    pose proof (parseDimensions_cases (fbt_dimensions t)
                  (seq 0 (Z.to_nat (fbt_numOfDimensions t))) [] w (Forall_nil_2 _)) as Hd.
    destruct (parseDimensions _ _ _ w) as [vd w1|r w1|f]; [|now destruct Hd as [-> ->]|exact Hd].
    destruct Hd as (-> & Hvd & _).
    unfold mbind at 1, modify at 1.
    match goal with |- context [parseOutputTensors ts ?v] => specialize (IH v) end.
    lapply IH.
    2: { cbn. apply Forall_app. split; [assumption|]. apply Forall_singleton.
         unfold storedParams, wrap8, wrap16. cbn.
         pose proof (wrap_range 16 (fbt_numOfDimensions t) ltac:(lia)).
         pose proof (wrap_range 8 (fbt_bitsPerElement t) ltac:(lia)).
         pose proof (wrap_range 16 (fbt_shift t) ltac:(lia)).
         pose proof (wrap_range 8 (fbt_format t) ltac:(lia)).
         repeat split; try lia. exact Hvd. }
    destruct (parseOutputTensors ts _) as [u w'|r w'|f]; [|auto..].
    cbn. intros (Hlog & Hall & Hlen). split; [assumption|]. split; [assumption|].
    rewrite Hlen, length_app. cbn. lia.
Qed.

(** X5. [parseApParams] ends in one of two ways.  It returns 0 without a
    log message, and then every descriptor it has stored has zero padding
    in all its dimensions and fields within the width of their types; or it
    returns -1 after the one message about a non-zero padding.  The only
    fault is the read past the end of a dimension table that is shorter
    than its own dimension count. *)
Theorem parseApParams_outcome (G : list byte -> FBApParams) (w : World) :
  match exec (parseApParams G) w with
  | Ret (r, w') =>
      (r = 0 /\ errlog w' = errlog w /\ Forall storedParams (outputApParams_ (self w'))) \/
      (r = -1 /\
       errlog w' = errlog w ++ ["Error in AP Params, Non-Zero padding for Dimension"%string])
  | Fault f => f = OutOfBoundsRead
  end.
Proof.
  unfold exec, parseApParams, mbind at 1 2, this at 1, modify at 1. cbv beta iota.
  set (w0 := {| self := set_outputApParams [] (self w); errlog := errlog w |}).
  assert (Hnet : forall ns,
             match parseNetworks ns w0 with
             | Val _ w' => errlog w' = errlog w /\
                           Forall storedParams (outputApParams_ (self w'))
             | Rtn r w' =>
                 r = -1 /\
                 errlog w' = errlog w
                   ++ ["Error in AP Params, Non-Zero padding for Dimension"%string]
             | Crash f => f = OutOfBoundsRead
             end).
  { induction ns as [|n ns IH]; [cbn; auto|].
    cbn [parseNetworks]. unfold mbind at 1, this at 1.
    destruct (negb _); [exact IH|].
    unfold mbind at 1, modify at 1.
    match goal with |- context [parseOutputTensors ?t ?v] =>
      pose proof (parseOutputTensors_cases t v (Forall_nil_2 _)) as Ht;
      destruct (parseOutputTensors t v) as [u w'|r w'|f]
    end; [|exact Ht..].
    destruct Ht as (Hlog & Hall & _). split; assumption. }
  specialize (Hnet (G (apParams_ (self w)))). unfold mbind.
  destruct (parseNetworks _ w0) as [u w'|r w'|f]; [|right; exact Hnet|exact Hnet].
  left. cbn. destruct Hnet. auto.
Qed.

(* ================================================================== *)
(** ** populateOutputBodyInfo: which schemas are accepted *)

(** A product that stays below the quarter of [UINT32_MAX] passes every
    guard of the inner loop. *)
Lemma dimensionProduct_small (dims : list Dimensions) :
  nonzeroDims dims ->
  forall (acc : Z) (w : World),
    1 <= acc -> acc * trueProduct dims < UINT32_MAX / sizeof_float ->
    dimensionProduct dims acc w = Val (acc * trueProduct dims) w.
Proof.
  change (UINT32_MAX / sizeof_float) with 1073741823.
  induction 1 as [|d dims Hd Hdims IH]; intros acc w Hacc Hsmall.
  - change (trueProduct []) with 1. cbn. now rewrite Z.mul_1_r.
  - change (trueProduct (d :: dims)) with (size d * trueProduct dims) in *.
    pose proof (trueProduct_pos _ Hdims) as Hpos.
    cbn [dimensionProduct]. unfold mbind, lift, udiv.
    destruct (Z.eqb_spec (size d) 0) as [?|_]; [lia|].
    assert (Hprod : acc * size d < 1073741823) by nia.
    destruct (Z.leb_spec (UINT32_MAX / size d) acc) as [Hge|_].
    + exfalso. unfold UINT32_MAX in Hge.
      assert (acc + 1 <= 4294967295 / size d); [|lia].
      apply Z.div_le_lower_bound; [lia|]. nia.
    + rewrite wrap32_small by nia.
      rewrite IH by nia. f_equal. ring.
Qed.

Lemma totalOutputSize_small (aps : list OutputTensorApParams) :
  nonzeroParams aps ->
  forall (acc : Z) (w : World),
    0 <= acc -> acc + trueTotal aps < UINT32_MAX / sizeof_float ->
    totalOutputSize aps acc w = Val (acc + trueTotal aps) w.
Proof.
  change (UINT32_MAX / sizeof_float) with 1073741823.
  induction 1 as [|ap aps Hap Haps IH]; intros acc w Hacc Hsmall.
  - change (trueTotal []) with 0. cbn. now rewrite Z.add_0_r.
  - change (trueTotal (ap :: aps)) with (trueProduct (vecDim ap) + trueTotal aps) in *.
    pose proof (trueProduct_pos _ Hap) as Hpos.
    pose proof (trueTotal_nonneg _ Haps) as Hnn.
    cbn [totalOutputSize]. unfold mbind.
    rewrite dimensionProduct_small;
      [|assumption|lia|change (UINT32_MAX / sizeof_float) with 1073741823; lia].
    rewrite Z.mul_1_l. unfold UINT32_MAX.
    rewrite (wrap32_small (4294967295 - _)) by lia.
    destruct (Z.leb_spec (4294967295 - trueProduct (vecDim ap)) acc) as [?|_]; [lia|].
    rewrite wrap32_small by lia.
    rewrite IH by lia. f_equal. ring.
Qed.

(** The object the planner leaves for a total of [n] elements in [k]
    tensors. *)
Definition planned (n : Z) (k : nat) (w : World) : World :=
  {| self := set_outputBodyInfo
               {| address := replicate (Z.to_nat n) fzero; totalSize := n;
                  tensorNum := Z.of_nat k; tensorDataNum := replicate k 0 |} (self w);
     errlog := errlog w |}.

(** What the planner does with a descriptor list without a zero size. *)
Lemma populateOutputBodyInfo_run (w : World) :
  let aps := outputApParams_ (self w) in
  nonzeroParams aps -> aps <> [] ->
  Z.of_nat (length aps) < UINT32_MAX / sizeof_uint32 ->
  if trueTotal aps <? UINT32_MAX / sizeof_float
  then exec populateOutputBodyInfo w = Ret (0, planned (trueTotal aps) (length aps) w)
  else exists msg,
      (msg = "Invalid totalDimensionSize" \/ msg = "Invalid totalOutSize" \/
       msg = "Invalid output tensor info")%string /\
      exec populateOutputBodyInfo w = Ret (-1, logged w msg).
Proof.
  intros aps Hnz Hne Hcount.
  assert (Hpos : 0 < trueTotal aps).
  { destruct aps as [|ap aps']; [contradiction|].
    apply Forall_cons in Hnz as [Hap Haps].
    change (trueTotal (ap :: aps')) with (trueProduct (vecDim ap) + trueTotal aps').
    pose proof (trueProduct_pos _ Hap). pose proof (trueTotal_nonneg _ Haps). lia. }
  assert (Hlen : 0 < Z.of_nat (length aps)).
  { destruct aps; [contradiction|]. cbn [length]. lia. }
  change (UINT32_MAX / sizeof_uint32) with 1073741823 in *.
  destruct (Z.ltb_spec (trueTotal aps) (UINT32_MAX / sizeof_float)) as [Hsmall|Hbig].
  - unfold exec, populateOutputBodyInfo, mbind at 1, this. fold aps.
    unfold mbind at 1.
    rewrite totalOutputSize_small by (assumption || lia).
    rewrite Z.add_0_l.
    destruct (Z.eqb_spec (trueTotal aps) 0) as [?|_]; [lia|].
    destruct (Z.leb_spec (UINT32_MAX / sizeof_float) (trueTotal aps)) as [?|_]; [lia|].
    unfold mbind, modify, return_. cbn [self errlog].
    rewrite wrap32_small by lia.
    destruct (Z.eqb_spec (Z.of_nat (length aps)) 0) as [?|_]; [lia|].
    change (UINT32_MAX / sizeof_uint32) with 1073741823.
    destruct (Z.leb_spec 1073741823 (Z.of_nat (length aps))) as [?|_]; [lia|].
    unfold planned. rewrite Nat2Z.id. reflexivity.
  - unfold exec, populateOutputBodyInfo, mbind at 1, this. fold aps.
    unfold mbind at 1.
    destruct (totalOutputSize_cases aps Hnz 0 w ltac:(unfold UINT32_MAX; lia))
      as [[Hrun _]|(msg & Hmsg & Hrun)]; rewrite Hrun.
    + rewrite Z.add_0_l.
      destruct (Z.eqb_spec (trueTotal aps) 0) as [?|_]; [lia|].
      destruct (Z.leb_spec (UINT32_MAX / sizeof_float) (trueTotal aps)) as [_|?]; [|lia].
      exists "Invalid output tensor info"%string. split; [auto|reflexivity].
    + exists msg. split; [tauto|reflexivity].
Qed.

(** X6. For a non-empty descriptor list without a zero size the planner
    accepts exactly the schemas whose total element count, computed without
    wrap-around, is below [UINT32_MAX / 4].  An accepted schema leaves a
    zero-filled output array of exactly that many elements and a zeroed
    per-tensor count for every descriptor; a rejected one returns -1 after a
    single message and leaves the object as it was. *)
Theorem populateOutputBodyInfo_accepts (w : World) :
  let aps := outputApParams_ (self w) in
  nonzeroParams aps -> aps <> [] ->
  Z.of_nat (length aps) < UINT32_MAX / sizeof_uint32 ->
  (trueTotal aps < UINT32_MAX / sizeof_float ->
   exec populateOutputBodyInfo w = Ret (0, planned (trueTotal aps) (length aps) w)) /\
  (UINT32_MAX / sizeof_float <= trueTotal aps ->
   exists msg,
     (msg = "Invalid totalDimensionSize" \/ msg = "Invalid totalOutSize" \/
      msg = "Invalid output tensor info")%string /\
     exec populateOutputBodyInfo w = Ret (-1, logged w msg)).
Proof.
  intros aps Hnz Hne Hcount.
  pose proof (populateOutputBodyInfo_run w Hnz Hne Hcount) as Hrun. fold aps in Hrun.
  destruct (Z.ltb_spec (trueTotal aps) (UINT32_MAX / sizeof_float)); split;
    intros; (assumption || lia).
Qed.

(* ================================================================== *)
(** ** Process: the early ends *)

(** X7. A frame whose header says it is not valid ends [Process] at the
    header: the request is returned untouched, the one message is the
    failure of the header parsing, and of the object only the stored header
    changes; the schema, the descriptors and the output array of the frame
    before stay in place. *)
Theorem Process_invalid_frame (GetFBApParams : list byte -> FBApParams)
    (req : CompletedRequest) (buf : list byte) (h : DnnHeader) (w : World) :
  Imx500OutputTensor req = Some buf ->
  read_DnnHeader buf 0 = Ret h ->
  frameValid h = 0 ->
  exec (Process GetFBApParams req) w
  = Ret ((false, req),
         {| self := set_dnnHeader h (self w);
            errlog := errlog w ++ ["Header param parsing failed!"%string] |}).
Proof.
  intros Hbuf Hh Hinvalid. unfold Process. rewrite Hbuf. cbv zeta.
  rewrite exec_bind_call.
  assert (Hrun : exec (parseHeader buf 0 4064) w
                 = Ret (-1, {| self := set_dnnHeader h (self w); errlog := errlog w |})).
  { unfold exec, parseHeader, mbind, lift, modify, return_. rewrite Hh, Hinvalid.
    reflexivity. }
  rewrite Hrun. reflexivity.
Qed.

(** X8. A valid frame whose schema holds no network with the id of the
    header passes the header and the schema stages and ends [Process] at
    the planner, which finds a total of zero: the request is returned
    untouched after the two messages, with an empty descriptor list. *)
Theorem Process_no_matching_network (GetFBApParams : list byte -> FBApParams)
    (req : CompletedRequest) (buf : list byte) (h : DnnHeader) (w : World) :
  let schema := take (Z.to_nat (apParamSize h)) (drop 12 buf) in
  Imx500OutputTensor req = Some buf ->
  read_DnnHeader buf 0 = Ret h ->
  frameValid h <> 0 ->
  12 + apParamSize h <= Z.of_nat (length buf) ->
  Forall (fun n => fbn_id n <> networkId h) (GetFBApParams schema) ->
  exec (Process GetFBApParams req) w
  = Ret ((false, req),
         {| self := set_outputApParams [] (set_apParams schema (set_dnnHeader h (self w)));
            errlog := errlog w ++ ["Invalid output tensor info (totalOutSize is 0)";
                                   "Failed to populate OutputBodyInfo!"]%string |}).
Proof.
  intros schema Hbuf Hh Hvalid Hlen Hnone. unfold Process. rewrite Hbuf. cbv zeta.
  rewrite exec_bind_call.
  rewrite (parseHeader_run buf 0 4064 w h) by (assumption || lia).
  change (Z.to_nat (0 + 12)) with 12%nat. fold schema.
  change (negb (0 =? 0)) with false. cbv iota.
  rewrite exec_bind_call, parseApParams_unmatched by exact Hnone.
  change (negb (0 =? 0)) with false. cbv iota.
  rewrite exec_bind_call.
  unfold exec at 2, populateOutputBodyInfo, mbind, this, LOG_ERROR, return_.
  cbn. rewrite <- app_assoc. reflexivity.
Qed.

(* ================================================================== *)
(** ** parseOutputTensorBody: the line count *)

(** X9. With a line length of zero in the header the line count of every
    tensor is the conversion of an infinity or of a NaN to [uint16_t]: the
    quotient by zero is never finite, whatever the size of the tensor. *)
Theorem numLinesOf_zero_line_length (tensorOutSize : Z) :
  numLinesOf tensorOutSize 0 = Fault FloatToIntRange.
Proof.
  unfold numLinesOf. change (float_of_Z 0) with (S754_zero false).
  unfold fdiv, SFdiv.
  destruct (float_of_Z tensorOutSize) as [s|s| |s m e]; reflexivity.
Qed.

(* ================================================================== *)
(** ** The task of one tensor: the copy without reordering *)

Lemma memcpy_floats_spec (dst tmpDst dst' : list float) (offset n : Z) :
  memcpy_floats dst tmpDst offset n = Ret dst' ->
  length dst' = length dst /\
  (forall x : nat, offset <= Z.of_nat x < offset + n -> dst' !! x = tmpDst !! x) /\
  (forall x : nat, ~ (offset <= Z.of_nat x < offset + n) -> dst' !! x = dst !! x).
Proof.
  unfold memcpy_floats.
  destruct (Z.ltb_spec offset 0) as [?|Hoff]; [discriminate|].
  destruct (Z.ltb_spec n 0) as [?|Hn]; [discriminate|]. cbn [orb].
  destruct (Z.ltb_spec (Z.of_nat (length tmpDst)) (offset + n)) as [?|Htmp]; [discriminate|].
  destruct (Z.ltb_spec (Z.of_nat (length dst)) (offset + n)) as [?|Hdst]; [discriminate|].
  intros [= <-].
  assert (Hl1 : length (take (Z.to_nat offset) dst) = Z.to_nat offset)
    by (rewrite length_take; lia).
  assert (Hl2 : length (take (Z.to_nat n) (drop (Z.to_nat offset) tmpDst)) = Z.to_nat n)
    by (rewrite length_take, length_drop; lia).
  split; [|split].
  - rewrite !length_app, Hl1, Hl2, length_drop. lia.
  - intros x Hx. rewrite lookup_app_r by lia. rewrite Hl1.
    rewrite lookup_app_l by lia. rewrite lookup_take_lt by lia.
    rewrite lookup_drop. f_equal. lia.
  - intros x Hx. destruct (Z.lt_ge_cases (Z.of_nat x) offset) as [Hlo|Hhi].
    + rewrite lookup_app_l by lia. apply lookup_take_lt. lia.
    + rewrite lookup_app_r by lia. rewrite Hl1.
      rewrite lookup_app_r by lia. rewrite Hl2.
      rewrite lookup_drop. f_equal. lia.
Qed.

Lemma memcpy_floats_Ret (dst tmpDst : list float) (offset n : Z) :
  0 <= offset -> 0 <= n ->
  offset + n <= Z.of_nat (length tmpDst) -> offset + n <= Z.of_nat (length dst) ->
  exists dst', memcpy_floats dst tmpDst offset n = Ret dst'.
Proof.
  intros Hoff Hn Htmp Hdst. unfold memcpy_floats.
  destruct (Z.ltb_spec offset 0) as [?|_]; [lia|].
  destruct (Z.ltb_spec n 0) as [?|_]; [lia|]. cbn [orb].
  destruct (Z.ltb_spec (Z.of_nat (length tmpDst)) (offset + n)) as [?|_]; [lia|].
  destruct (Z.ltb_spec (Z.of_nat (length dst)) (offset + n)) as [?|_]; [lia|].
  eexists. reflexivity.
Qed.

(** A descriptor whose dimensions are serialized in their ordinal order
    needs no sorting. *)
Lemma sortingRequiredLoop_ordered (param : OutputTensorApParams) :
  forall (n j0 : nat) (b : bool),
    (j0 + n <= length (vecDim param))%nat ->
    (forall j d, (j0 <= j < j0 + n)%nat -> vecDim param !! j = Some d ->
                 serializationIndex d = ordinal d) ->
    sortingRequiredLoop param (seq j0 n) b = Ret b.
Proof.
  induction n as [|n IH]; intros j0 b Hlen Hord; [reflexivity|].
  cbn [seq sortingRequiredLoop].
  destruct (lookup_lt_is_Some_2 (vecDim param) j0 ltac:(lia)) as [d Hd].
  rewrite (vec_at_Ret _ _ d) by (lia || now rewrite Nat2Z.id). cbn [rbind].
  rewrite (Hord j0 d ltac:(lia) Hd), Z.eqb_refl. cbn [negb].
  apply IH; [lia|]. intros j d' Hj. apply Hord. lia.
Qed.

(** The number of elements of a tensor of [outSize] bytes. *)
Definition elementCount (param : OutputTensorApParams) (outSize : Z) : Z :=
  if bitsPerElement param =? 8 then outSize else Z.shiftr outSize 1.

(** The task of a tensor that needs no sorting. *)
Lemma tensorTask_copies_run (buf : list byte) (stride : Z) (plans : list TensorPlan)
    (tensorIdx src offset : Z) (tmpDst tmpDst' : list float) (w : World)
    (param : OutputTensorApParams) (plan : TensorPlan) :
  0 <= tensorIdx ->
  plans !! Z.to_nat tensorIdx = Some plan ->
  outputApParams_ (self w) !! Z.to_nat tensorIdx = Some param ->
  (Z.to_nat (numDimensions param) <= length (vecDim param))%nat ->
  Forall (fun d => serializationIndex d = ordinal d) (vecDim param) ->
  0 < tp_outSize plan ->
  extracted buf param (maxLineLen (dnnHeader_ (self w))) stride offset plan src
    tmpDst tmpDst' ->
  let count := elementCount param (tp_outSize plan) in
  let dst := address (outputBodyInfo_ (self w)) in
  0 <= offset ->
  offset + count <= Z.of_nat (length tmpDst') ->
  offset + count <= Z.of_nat (length dst) ->
  exists dst',
    exec (tensorTask buf stride plans tensorIdx src offset tmpDst) w
      = Ret ((0, tmpDst'), {| self := set_address dst' (self w); errlog := errlog w |}) /\
    length dst' = length dst /\
    (forall x : nat, offset <= Z.of_nat x < offset + count -> dst' !! x = tmpDst' !! x) /\
    (forall x : nat, ~ (offset <= Z.of_nat x < offset + count) -> dst' !! x = dst !! x).
Proof.
  intros Hidx Hplan Hparam Hrank Hord Hsize Hext count dst Hoff Htmp Hdst.
  assert (Hcount : 0 <= count).
  { subst count. unfold elementCount. destruct (bitsPerElement param =? 8); [lia|].
    rewrite Z.shiftr_div_pow2 by lia. apply Z.div_pos; lia. }
  destruct (memcpy_floats_Ret dst tmpDst' offset count Hoff Hcount Htmp Hdst) as [dst' Hcpy].
  exists dst'. split; [|exact (memcpy_floats_spec _ _ _ _ _ Hcpy)].
  assert (Hsort : sortingRequiredLoop param (seq 0 (Z.to_nat (numDimensions param))) false
                  = Ret false).
  { apply sortingRequiredLoop_ordered; [lia|].
    intros j d _ Hd. rewrite Forall_lookup in Hord. exact (Hord j d Hd). }
  unfold exec, tensorTask, mbind, lift, this, return_, modify, LOG_ERROR, mret.
  rewrite (vec_get_Ret _ _ _ Hidx Hplan), (vec_get_Ret _ _ _ Hidx Hparam).
  rewrite Hsort. fold dst.
  destruct (Z.eqb_spec (tp_outSize plan) 0) as [?|_]; [lia|].
  subst count. unfold elementCount in Hcpy.
  destruct Hext as [[Hb Hscan]|[Hb Hscan]]; rewrite Hb in *.
  - change (8 =? 8) with true in *. cbv iota beta. rewrite Hscan, Hcpy. reflexivity.
  - change (16 =? 8) with false in *. change (16 =? 16) with true. cbv iota beta.
    rewrite Hscan, Hcpy. reflexivity.
Qed.

(** X10. A tensor of any rank whose dimensions are all serialized in their
    ordinal order is not reordered: the task copies the dequantised
    elements of its region of [tmpDst] to the same region of the output
    array, and leaves the rest of the output array as it was. *)
Theorem tensorTask_copies (buf : list byte) (stride : Z) (plans : list TensorPlan)
    (tensorIdx src offset : Z) (tmpDst tmpDst' : list float) (w : World)
    (param : OutputTensorApParams) (plan : TensorPlan) :
  0 <= tensorIdx ->
  plans !! Z.to_nat tensorIdx = Some plan ->
  outputApParams_ (self w) !! Z.to_nat tensorIdx = Some param ->
  (Z.to_nat (numDimensions param) <= length (vecDim param))%nat ->
  Forall (fun d => serializationIndex d = ordinal d) (vecDim param) ->
  0 < tp_outSize plan ->
  extracted buf param (maxLineLen (dnnHeader_ (self w))) stride offset plan src
    tmpDst tmpDst' ->
  let count := elementCount param (tp_outSize plan) in
  let dst := address (outputBodyInfo_ (self w)) in
  0 <= offset ->
  offset + count <= Z.of_nat (length tmpDst') ->
  offset + count <= Z.of_nat (length dst) ->
  exists dst',
    exec (tensorTask buf stride plans tensorIdx src offset tmpDst) w
      = Ret ((0, tmpDst'), {| self := set_address dst' (self w); errlog := errlog w |}) /\
    length dst' = length dst /\
    (forall x : nat, offset <= Z.of_nat x < offset + count -> dst' !! x = tmpDst' !! x) /\
    (forall x : nat, ~ (offset <= Z.of_nat x < offset + count) -> dst' !! x = dst !! x).
Proof. exact (tensorTask_copies_run buf stride plans tensorIdx src offset tmpDst tmpDst' w param plan). Qed.

(** X11. A task that does not return 0 returns -1 and has written
    nothing: [tmpDst] and the object are as before, and one message has
    been logged. *)
Theorem tensorTask_failure_writes_nothing (buf : list byte) (stride : Z)
    (plans : list TensorPlan) (tensorIdx src offset : Z) (tmpDst tmpDst' : list float)
    (w w' : World) (r : Z) :
  exec (tensorTask buf stride plans tensorIdx src offset tmpDst) w = Ret ((r, tmpDst'), w') ->
  r <> 0 ->
  r = -1 /\ tmpDst' = tmpDst /\ self w' = self w /\
  exists msg, errlog w' = errlog w ++ [msg].
Proof.
  unfold exec, tensorTask, mbind, lift, this, return_, modify, LOG_ERROR, mret.
  destruct (vec_get plans tensorIdx) as [plan|]; [|discriminate].
  destruct (vec_get (outputApParams_ (self w)) tensorIdx) as [param|]; [|discriminate].
  destruct (sortingRequiredLoop _ _ _) as [sorting|]; [|discriminate].
  destruct (tp_outSize plan =? 0).
  { intros [= <- <- <-] _. cbn. eauto. }
  destruct (bitsPerElement param =? 8).
  - destruct (scanLines8 _ _ _ _ _ _ _ _ _ _) as [tmp1|]; [|discriminate].
    destruct sorting.
    + destruct (sortPrep _ _ _ _ _) as [[[loopCnt coef] tooMany]|]; [|discriminate].
      destruct tooMany; destruct (sortExec _ _ _ _ _); intros [= <- _ _] || discriminate;
        intros Hr; now contradiction Hr.
    + destruct (memcpy_floats _ _ _ _); intros [= <- _ _] || discriminate;
        intros Hr; now contradiction Hr.
  - destruct (bitsPerElement param =? 16).
    + destruct (scanLines16 _ _ _ _ _ _ _ _ _ _) as [tmp1|]; [|discriminate].
      destruct sorting.
      * destruct (sortPrep _ _ _ _ _) as [[[loopCnt coef] tooMany]|]; [|discriminate].
        destruct tooMany; destruct (sortExec _ _ _ _ _); intros [= <- _ _] || discriminate;
          intros Hr; now contradiction Hr.
      * destruct (memcpy_floats _ _ _ _); intros [= <- _ _] || discriminate;
          intros Hr; now contradiction Hr.
    + intros [= <- <- <-] _. cbn. eauto.
Qed.

(* ================================================================== *)
(** ** parseOutputTensorBody: the order in which the tasks are started *)

(** The line count of the tensor [x], as the first pass recorded it. *)
Definition lineCount (plans : list TensorPlan) (x : Z) : Z :=
  match plans !! Z.to_nat x with
  | Some p => tp_numLines p
  | None => 0
  end.

Definition validIdx (plans : list TensorPlan) (x : Z) : Prop :=
  0 <= x /\ (Z.to_nat x < length plans)%nat.

(** The first [n] entries of [l] are in descending order of line count. *)
Definition descending (plans : list TensorPlan) (l : list Z) (n : nat) : Prop :=
  forall p q, (p <= q < n)%nat ->
    lineCount plans (l !!! q) <= lineCount plans (l !!! p).

Lemma numLinesAt_Ret (plans : list TensorPlan) (x : Z) :
  validIdx plans x -> numLinesAt plans x = Ret (lineCount plans x).
Proof.
  intros [Hx Hlt]. unfold numLinesAt, lineCount.
  destruct (lookup_lt_is_Some_2 plans (Z.to_nat x) Hlt) as [p Hp].
  rewrite (vec_get_Ret _ _ p Hx Hp), Hp. reflexivity.
Qed.

(** One round of the inner loop: the entries [i] and [j] are swapped when
    the first has more lines. *)
Lemma orderInner_round (plans : list TensorPlan) (i j : nat) (js : list nat) (l : list Z) :
  Forall (validIdx plans) l -> (i < length l)%nat -> (j < length l)%nat ->
  orderInner plans i (j :: js) l
  = orderInner plans i js
      (if lineCount plans (l !!! j) <? lineCount plans (l !!! i)
       then <[j := l !!! i]> (<[i := l !!! j]> l) else l).
Proof.
  intros Hvalid Hi Hj. cbn [orderInner].
  pose proof (list_lookup_lookup_total_lt l i Hi) as Hli.
  pose proof (list_lookup_lookup_total_lt l j Hj) as Hlj.
  rewrite (vec_get_Ret _ _ (l !!! i)) by (lia || now rewrite Nat2Z.id).
  rewrite (vec_get_Ret _ _ (l !!! j)) by (lia || now rewrite Nat2Z.id).
  cbn [rbind].
  rewrite Forall_lookup in Hvalid.
  rewrite (numLinesAt_Ret plans (l !!! i)) by exact (Hvalid _ _ Hli).
  rewrite (numLinesAt_Ret plans (l !!! j)) by exact (Hvalid _ _ Hlj).
  cbn [rbind].
  destruct (lineCount plans (l !!! j) <? lineCount plans (l !!! i)); [|reflexivity].
  rewrite vec_set_Ret by lia. cbn [rbind].
  rewrite vec_set_Ret by (rewrite ?length_insert; lia). cbn [rbind].
  now rewrite !Nat2Z.id.
Qed.

(** The invariant of the inner loop of round [i], before the entry [j] is
    looked at: the entries before [i] are in descending order, and entry
    [i] has no more lines than any entry before [j]. *)
Definition orderInv (plans : list TensorPlan) (i j : nat) (l : list Z) : Prop :=
  descending plans l i /\
  forall j', (j' < j)%nat -> lineCount plans (l !!! i) <= lineCount plans (l !!! j').

Lemma orderInv_round (plans : list TensorPlan) (i j : nat) (l : list Z) :
  (i < length l)%nat -> (j < length l)%nat ->
  orderInv plans i j l ->
  orderInv plans i (S j)
    (if lineCount plans (l !!! j) <? lineCount plans (l !!! i)
     then <[j := l !!! i]> (<[i := l !!! j]> l) else l).
Proof.
  intros Hi Hj [Hdesc Hmin].
  destruct (Z.ltb_spec (lineCount plans (l !!! j)) (lineCount plans (l !!! i))) as [Hswap|Hkeep].
  - assert (Hne : i <> j) by (intros ->; lia).
    assert (Hat : forall x : nat,
               <[j := l !!! i]> (<[i := l !!! j]> l) !!! x
               = if decide (x = j) then l !!! i
                 else if decide (x = i) then l !!! j else l !!! x).
    { intros x. destruct (decide (x = j)) as [->|Hxj].
      - apply list_lookup_total_insert_eq. rewrite length_insert. lia.
      - rewrite list_lookup_total_insert_ne by lia.
        destruct (decide (x = i)) as [->|Hxi].
        + now apply list_lookup_total_insert_eq.
        + apply list_lookup_total_insert_ne. lia. }
    split.
    + intros p q Hpq. rewrite !Hat.
      destruct (decide (q = i)) as [?|_]; [lia|].
      destruct (decide (p = i)) as [?|_]; [lia|].
      destruct (decide (q = j)) as [->|Hqj], (decide (p = j)) as [->|Hpj].
      * lia.
      * apply Hmin. lia.
      * pose proof (Hdesc j q ltac:(lia)). lia.
      * apply Hdesc. lia.
    + intros j' Hj'. rewrite !Hat.
      destruct (decide (i = j)) as [?|_]; [lia|].
      destruct (decide (i = i)) as [_|?]; [|lia].
      destruct (decide (j' = j)) as [->|Hjj]; [lia|].
      destruct (decide (j' = i)) as [->|Hji]; [lia|].
      pose proof (Hmin j' ltac:(lia)). lia.
  - split; [exact Hdesc|].
    intros j' Hj'. destruct (decide (j' = j)) as [->|?]; [lia|]. apply Hmin. lia.
Qed.

Lemma orderInner_spec (plans : list TensorPlan) (i : nat) :
  forall (n j0 : nat) (l : list Z),
    Forall (validIdx plans) l -> (i < length l)%nat -> (j0 + n <= length l)%nat ->
    orderInv plans i j0 l ->
    exists l',
      orderInner plans i (seq j0 n) l = Ret l' /\ l' ≡ₚ l /\
      orderInv plans i (j0 + n) l'.
Proof.
  induction n as [|n IH]; intros j0 l Hvalid Hi Hlen Hinv.
  - exists l. rewrite Nat.add_0_r. now split.
  - cbn [seq]. rewrite orderInner_round by (assumption || lia).
    pose proof (orderInv_round plans i j0 l Hi ltac:(lia) Hinv) as Hinv'.
    set (l1 := if lineCount plans (l !!! j0) <? lineCount plans (l !!! i)
               then <[j0 := l !!! i]> (<[i := l !!! j0]> l) else l) in *.
    assert (Hperm : l1 ≡ₚ l).
    { subst l1. destruct (_ <? _); [|reflexivity].
      apply Permutation_insert_swap; apply list_lookup_lookup_total_lt; lia. }
    destruct (IH (S j0) l1) as (l' & Hrun & Hperm' & Hinv'').
    + now rewrite Hperm.
    + rewrite Hperm. exact Hi.
    + rewrite Hperm. lia.
    + exact Hinv'.
    + exists l'. split; [exact Hrun|]. split; [now rewrite Hperm'|].
      now replace (j0 + S n)%nat with (S j0 + n)%nat by lia.
Qed.

Lemma orderOuter_spec (plans : list TensorPlan) :
  forall (n i0 : nat) (l : list Z),
    Forall (validIdx plans) l -> (i0 + n <= length l)%nat ->
    descending plans l i0 ->
    exists l',
      orderOuter plans (seq i0 n) l = Ret l' /\ l' ≡ₚ l /\
      descending plans l' (i0 + n).
Proof.
  induction n as [|n IH]; intros i0 l Hvalid Hlen Hdesc.
  - exists l. rewrite Nat.add_0_r. now split.
  - cbn [seq orderOuter].
    destruct (orderInner_spec plans i0 (length l) 0 l Hvalid ltac:(lia) ltac:(lia))
      as (l1 & Hrun1 & Hperm1 & Hdesc1 & Hmin1).
    { split; [exact Hdesc|]. intros j' Hj'. lia. }
    rewrite Hrun1. cbn [rbind].
    assert (Hlen1 : length l1 = length l) by now rewrite Hperm1.
    destruct (IH (S i0) l1) as (l' & Hrun & Hperm & Hdesc').
    + now rewrite Hperm1.
    + lia.
    + intros p q Hpq. destruct (decide (q = i0)) as [->|Hq].
      * apply Hmin1. cbn. lia.
      * apply Hdesc1. lia.
    + exists l'. split; [exact Hrun|]. split; [now rewrite Hperm|].
      now replace (i0 + S n)%nat with (S i0 + n)%nat by lia.
Qed.

(** X12. The two nested swap loops sort: for [n] planned tensors the
    start order is a permutation of the tensor indices [0 .. n-1], every
    tensor once, in descending order of line count.  The loops never leave
    the index vector. *)
Theorem orderTensors_sorts (plans : list TensorPlan) (n : nat) :
  (n <= length plans)%nat ->
  exists idxs,
    orderTensors plans n = Ret idxs /\
    idxs ≡ₚ (Z.of_nat <$> seq 0 n) /\
    forall (p q : nat) (a b : Z),
      (p <= q)%nat -> idxs !! p = Some a -> idxs !! q = Some b ->
      lineCount plans b <= lineCount plans a.
Proof.
  intros Hn. unfold orderTensors.
  set (l := Z.of_nat <$> seq 0 n).
  assert (Hvalid : Forall (validIdx plans) l).
  { subst l. apply Forall_fmap, Forall_seq. intros j Hj. unfold validIdx. cbn. lia. }
  destruct (orderOuter_spec plans (length l) 0 l Hvalid ltac:(lia))
    as (idxs & Hrun & Hperm & Hdesc).
  { intros p q Hpq. lia. }
  exists idxs. split; [exact Hrun|]. split; [exact Hperm|].
  intros p q a b Hpq Ha Hb.
  assert (Hq : (q < length l)%nat).
  { rewrite <- Hperm. now apply lookup_lt_Some in Hb. }
  specialize (Hdesc p q ltac:(lia)).
  now rewrite (list_lookup_total_correct _ _ _ Ha), (list_lookup_total_correct _ _ _ Hb) in Hdesc.
Qed.

(* ================================================================== *)
(** ** The detection interpreter: the shape of what it returns *)

Lemma extractBoxes_lengths (data : list float) (totalDetections count : Z) :
  forall (ivals : list nat) (output output' : ObjectDetectionSsdOutputTensor),
    extractBoxes data totalDetections count ivals output = Ret output' ->
    length (bboxes output') = (length (bboxes output) + length ivals)%nat /\
    scores output' = scores output /\ classes output' = classes output.
Proof.
  induction ivals as [|i ivals IH]; intros output output'; cbn [extractBoxes].
  - intros [= <-]. cbn. auto with lia.
  - unfold rbind.
    repeat match goal with
           | |- context [vec_at data ?p] => destruct (vec_at data p); [|discriminate]
           end.
    intros Hrun. apply IH in Hrun as (Hb & Hs & Hc).
    cbn in *. rewrite length_app in Hb. cbn in Hb. split; [lia|auto].
Qed.

Lemma extractField_class_lengths (data : list float) :
  forall (ivals : list nat) (count : Z) (output : ObjectDetectionSsdOutputTensor) (w : World),
    match extractField push_class data ivals count output w with
    | Val (_, output') _ =>
        length (classes output') = (length (classes output) + length ivals)%nat /\
        scores output' = scores output /\ bboxes output' = bboxes output
    | Rtn (r, _) _ => r = -1
    | Crash _ => True
    end.
Proof.
  induction ivals as [|i ivals IH]; intros count output w; cbn [extractField].
  - cbn. auto with lia.
  - destruct (PplDnnOutputTensorSize <? count); [reflexivity|].
    unfold mbind, lift. destruct (vec_at data count) as [v|]; [|exact I].
    specialize (IH (wrap32 (count + 1)) (push_class v output) w).
    destruct (extractField _ _ _ _ _ w) as [[c o] w1|[r o] w1|f]; [|assumption..].
    destruct IH as (Hc & Hs & Hb). cbn in *. rewrite length_app in Hc. cbn in Hc.
    split; [lia|auto].
Qed.

Lemma extractField_score_lengths (data : list float) :
  forall (ivals : list nat) (count : Z) (output : ObjectDetectionSsdOutputTensor) (w : World),
    match extractField push_score data ivals count output w with
    | Val (_, output') _ =>
        length (scores output') = (length (scores output) + length ivals)%nat /\
        classes output' = classes output /\ bboxes output' = bboxes output
    | Rtn (r, _) _ => r = -1
    | Crash _ => True
    end.
Proof.
  induction ivals as [|i ivals IH]; intros count output w; cbn [extractField].
  - cbn. auto with lia.
  - destruct (PplDnnOutputTensorSize <? count); [reflexivity|].
    unfold mbind, lift. destruct (vec_at data count) as [v|]; [|exact I].
    specialize (IH (wrap32 (count + 1)) (push_score v output) w).
    destruct (extractField _ _ _ _ _ w) as [[c o] w1|[r o] w1|f]; [|assumption..].
    destruct IH as (Hs & Hc & Hb). cbn in *. rewrite length_app in Hs. cbn in Hs.
    split; [lia|auto].
Qed.

(** A record that was read has ten candidates and a count of at most ten. *)
Lemma createObjectDetectionSsdData_shape (data : list float) (w w' : World)
    (output : ObjectDetectionSsdOutputTensor) :
  exec (createObjectDetectionSsdData emptyOutputTensor data PplTotalDetections) w
    = Ret ((0, output), w') ->
  length (bboxes output) = 10%nat /\ length (scores output) = 10%nat /\
  length (classes output) = 10%nat /\ 0 <= numDetections output <= 10.
Proof.
  unfold exec, createObjectDetectionSsdData.
  change (PplDnnOutputTensorSize <? wrap32 (0 + wrap32 (PplTotalDetections * 4))) with false.
  cbv iota. unfold mbind at 1, lift at 1.
  destruct (extractBoxes _ _ _ _ _) as [o1|] eqn:E1; [|discriminate].
  apply extractBoxes_lengths in E1 as (Hb1 & Hs1 & Hc1). cbn in Hb1, Hs1, Hc1.
  unfold mbind at 1.
  match goal with |- context [extractField push_class ?d ?l ?c ?o ?v] =>
    pose proof (extractField_class_lengths d l c o v) as H2;
    destruct (extractField push_class d l c o v) as [[c2 o2] w2|[r2 o2'] w2|f2]
  end; [|subst; discriminate|discriminate].
  destruct H2 as (Hc2 & Hs2 & Hb2). cbn in Hc2.
  unfold mbind at 1.
  match goal with |- context [extractField push_score ?d ?l ?c ?o ?v] =>
    pose proof (extractField_score_lengths d l c o v) as H3;
    destruct (extractField push_score d l c o v) as [[c3 o3] w3|[r3 o3'] w3|f3]
  end; [|subst; discriminate|discriminate].
  destruct H3 as (Hs3 & Hc3 & Hb3). cbn in Hs3.
  destruct (PplDnnOutputTensorSize <? c3); [discriminate|].
  unfold mbind, lift, LOG_ERROR, mret, return_.
  destruct (vec_at data c3) as [v|]; [|discriminate].
  unfold to_unsigned.
  destruct (ftrunc v) as [z|]; [|discriminate].
  destruct (Z.leb_spec 0 z) as [Hz|?]; [|discriminate].
  destruct (z <? 2 ^ 32); [|discriminate]. cbn [andb].
  unfold PplTotalDetections.
  destruct (Z.ltb_spec 10 z); intros [= <- _]; cbn;
    rewrite Hb3, Hb2, Hb1, Hs3, Hs2, Hs1, Hc3, Hc2, Hc1; cbn; repeat split; lia.
Qed.

(** The filter loop adds the same number of entries, at most one for a
    candidate, to the three vectors. *)
Lemma filterDetections_lengths (tensor : ObjectDetectionSsdOutputTensor)
    (threshold : float) (dim : Size) :
  forall (ivals : list nat) (data data' : ObjectDetectionSsdData),
    filterDetections tensor threshold dim ivals data = Ret data' ->
    exists k : nat,
      (k <= length ivals)%nat /\
      length (vBbox data') = (length (vBbox data) + k)%nat /\
      length (vScores data') = (length (vScores data) + k)%nat /\
      length (vClasses data') = (length (vClasses data) + k)%nat.
Proof.
  induction ivals as [|i ivals IH]; intros data data'; cbn [filterDetections].
  - intros [= <-]. exists 0%nat. cbn. lia.
  - unfold rbind.
    destruct (vec_get (scores tensor) (Z.of_nat i)) as [s|]; [|discriminate].
    destruct (flt s threshold).
    + intros Hrun. apply IH in Hrun as (k & Hk & Hlen). exists k. cbn. split; [lia|exact Hlen].
    + destruct (vec_get (bboxes tensor) (Z.of_nat i)) as [b|]; [|discriminate].
      repeat match goal with
             | |- context [toPixel ?v ?e] => destruct (toPixel v e); [|discriminate]
             end.
      destruct (vec_get (classes tensor) (Z.of_nat i)) as [c|]; [|discriminate].
      destruct (to_unsigned 8 (ftrunc c)) as [c8|]; [|discriminate].
      intros Hrun. apply IH in Hrun as (k & Hk & Hb & Hs & Hc). exists (S k).
      cbn in *. rewrite length_app in Hb, Hs, Hc. cbn in *. lia.
Qed.

(** The shape of what the interpreter returns. *)
Lemma processOutputTensor_lengths (w w' : World) (data : ObjectDetectionSsdData) :
  exec processOutputTensor w = Ret (data, w') ->
  length (vBbox data) = Z.to_nat (dNumDetections data) /\
  length (vScores data) = Z.to_nat (dNumDetections data) /\
  length (vClasses data) = Z.to_nat (dNumDetections data) /\
  dNumDetections data <= 10 /\
  dNumDetections data <= Z.max 0 (maxDetections_ (self w)).
Proof.
  unfold exec, processOutputTensor. unfold mbind, this, call.
  destruct (negb (totalSize (outputBodyInfo_ (self w)) =? PplDnnOutputTensorSize)).
  { cbn. intros [= <- _]. cbn. lia. }
  destruct (exec _ w) as [[[ret output] w1]|] eqn:Hcreate; [|discriminate].
  destruct (Z.eqb_spec ret 0) as [->|_]; cbn [negb].
  2: { cbn. intros [= <- _]. cbn. lia. }
  apply createObjectDetectionSsdData_shape in Hcreate as (_ & _ & _ & Hcount).
  unfold lift, analyseObjectDetectionSsdOutput, rbind.
  destruct (filterDetections _ _ _ _ _) as [d|] eqn:Hfilter; [|discriminate].
  apply filterDetections_lengths in Hfilter as (k & Hk & Hb & Hs & Hc).
  rewrite length_seq in Hk. cbn in Hb, Hs, Hc.
  rewrite Hc, wrap32_small by lia.
  destruct (Z.ltb_spec (maxDetections_ (self w)) (Z.of_nat k)); cbn; intros [= <- _]; cbn.
  - rewrite !length_take. lia.
  - lia.
Qed.

(** X13. Whatever [processOutputTensor] returns is well-shaped: the
    boxes, the scores and the classes are vectors of the same length, that
    length is the count it reports, and the count exceeds neither ten nor
    the configured maximum. *)
Theorem processOutputTensor_shape (w w' : World) (data : ObjectDetectionSsdData) :
  exec processOutputTensor w = Ret (data, w') ->
  length (vBbox data) = Z.to_nat (dNumDetections data) /\
  length (vScores data) = Z.to_nat (dNumDetections data) /\
  length (vClasses data) = Z.to_nat (dNumDetections data) /\
  dNumDetections data <= 10 /\
  dNumDetections data <= Z.max 0 (maxDetections_ (self w)).
Proof. exact (processOutputTensor_lengths w w' data). Qed.

(** X14. The detection interpreter only reads: when it returns, the
    object is exactly as it was. *)
Theorem processOutputTensor_reads_only (w w' : World) (data : ObjectDetectionSsdData) :
  exec processOutputTensor w = Ret (data, w') -> self w' = self w.
Proof.
  intros Hrun.
  exact (preserves_exec (fun t => t) _ _ _ _ (processOutputTensor_preserves (fun t => t)) Hrun).
Qed.

(* ================================================================== *)
(** ** Process: the detections it attaches *)

(** A detection that carries the label of its own category. *)
Definition labelled (classes : list string) (d : Detection) : Prop :=
  0 <= category d /\ classes !! Z.to_nat (category d) = Some (det_name d).

Lemma makeDetections_labelled (classes : list string) (data : ObjectDetectionSsdData) :
  forall (ivals : list nat) (acc dets : list Detection),
    makeDetections classes data ivals acc = Ret dets ->
    Forall (labelled classes) acc -> Forall (labelled classes) dets.
Proof.
  induction ivals as [|i ivals IH]; intros acc dets; cbn [makeDetections].
  - now intros [= <-].
  - unfold rbind.
    destruct (vec_get (vClasses data) (Z.of_nat i)) as [c|]; [|discriminate].
    destruct (negb (c <? Z.of_nat (length classes))); [discriminate|].
    destruct (vec_get classes c) as [n|] eqn:Hn; [|discriminate].
    destruct (vec_get (vScores data) (Z.of_nat i)); [|discriminate].
    destruct (vec_get (vBbox data) (Z.of_nat i)); [|discriminate].
    intros Hrun Hacc. apply (IH _ _ Hrun).
    apply Forall_app. split; [exact Hacc|]. apply Forall_singleton.
    apply vec_get_inv in Hn. exact Hn.
Qed.

(** X15. The detections [Process] attaches: there are between one and
    ten of them, no more than the configured maximum, and each carries the
    label that the class file gives for its own category. *)
Theorem Process_attached_detections (GetFBApParams : list byte -> FBApParams)
    (req req' : CompletedRequest) (w w' : World) (b : bool) :
  0 <= maxDetections_ (self w) ->
  exec (Process GetFBApParams req) w = Ret ((b, req'), w') ->
  req' = req \/
  exists dets,
    req' = set_results dets req /\
    (0 < length dets <= 10)%nat /\
    Z.of_nat (length dets) <= maxDetections_ (self w) /\
    Forall (labelled (classes_ (self w))) dets.
Proof.
  intros Hmax0.
  destruct (Process_cases GetFBApParams req w)
    as [[f ->]|[[w1 ->]|(w4 & w5 & data & dets & -> & Hcfg & Hrun & Hnz & Hdets)]].
  - discriminate.
  - intros [= _ <- _]. now left.
  - intros [= _ <- <-]. right. exists dets. split; [reflexivity|].
    pose proof (processOutputTensor_lengths _ _ _ Hrun) as (_ & _ & _ & Hten & Hmax).
    assert (Hpos : 0 <= dNumDetections data).
    { apply (processOutputTensor_count w4 w5); [|exact Hrun].
      unfold config in Hcfg. injection Hcfg as _ Hm _ _. now rewrite Hm. }
    pose proof (preserves_exec (fun t => t) _ _ _ _
                  (processOutputTensor_preserves (fun t => t)) Hrun) as Hself.
    cbv beta in Hself.
    assert (Hcfg5 : config (self w5) = config (self w)) by now rewrite Hself.
    unfold config in Hcfg, Hcfg5.
    injection Hcfg as _ Hm _ _. injection Hcfg5 as _ _ _ Hc.
    rewrite Hm in Hmax. rewrite Hc in Hdets.
    pose proof (makeDetections_length _ _ _ _ _ Hdets) as Hlen.
    rewrite length_seq in Hlen. cbn in Hlen.
    split; [|split].
    + lia.
    + lia.
    + exact (makeDetections_labelled _ _ _ _ _ Hdets (Forall_nil_2 _)).
Qed.

(** The loop that builds the detections stops at the first class id that
    has no label. *)
Lemma makeDetections_asserts (classes : list string) (data : ObjectDetectionSsdData) :
  forall (n j0 : nat) (acc : list Detection),
    (j0 + n <= length (vClasses data))%nat ->
    (j0 + n <= length (vScores data))%nat ->
    (j0 + n <= length (vBbox data))%nat ->
    (forall j c, (j0 <= j < j0 + n)%nat -> vClasses data !! j = Some c -> 0 <= c) ->
    (exists j c, (j0 <= j < j0 + n)%nat /\ vClasses data !! j = Some c /\
                 Z.of_nat (length classes) <= c) ->
    makeDetections classes data (seq j0 n) acc = Fault AssertionFailed.
Proof.
  induction n as [|n IH]; intros j0 acc Hc Hs Hb Hpos (j & c & Hj & Hjc & Hbad); [lia|].
  cbn [seq makeDetections].
  destruct (lookup_lt_is_Some_2 (vClasses data) j0 ltac:(lia)) as [c0 Hc0].
  destruct (lookup_lt_is_Some_2 (vScores data) j0 ltac:(lia)) as [s0 Hs0].
  destruct (lookup_lt_is_Some_2 (vBbox data) j0 ltac:(lia)) as [b0 Hb0].
  rewrite (vec_get_Ret _ _ c0) by (lia || now rewrite Nat2Z.id). cbn [rbind].
  destruct (Z.ltb_spec c0 (Z.of_nat (length classes))) as [Hlt|Hge]; [|reflexivity].
  cbn [negb].
  pose proof (Hpos j0 c0 ltac:(lia) Hc0) as Hc0pos.
  destruct (lookup_lt_is_Some_2 classes (Z.to_nat c0) ltac:(lia)) as [l0 Hl0].
  rewrite (vec_get_Ret _ _ l0 Hc0pos Hl0). cbn [rbind].
  rewrite (vec_get_Ret _ _ s0) by (lia || now rewrite Nat2Z.id). cbn [rbind].
  rewrite (vec_get_Ret _ _ b0) by (lia || now rewrite Nat2Z.id). cbn [rbind].
  apply IH; try lia.
  - intros j' c' Hj'. apply Hpos. lia.
  - exists j, c. split; [|auto].
    destruct (decide (j = j0)) as [->|?]; [|lia].
    rewrite Hc0 in Hjc. injection Hjc as ->. lia.
Qed.

(** X16. A result of the interpreter in which some class id has no label
    in the class file stops the loop of [Process] at the assertion: no
    detection is built from a label that does not exist. *)
Theorem makeDetections_unlabelled_class (classes : list string)
    (data : ObjectDetectionSsdData) (j : nat) (c : Z) :
  let n := Z.to_nat (dNumDetections data) in
  length (vClasses data) = n -> length (vScores data) = n -> length (vBbox data) = n ->
  Forall (fun c => 0 <= c) (vClasses data) ->
  vClasses data !! j = Some c ->
  Z.of_nat (length classes) <= c ->
  makeDetections classes data (seq 0 n) [] = Fault AssertionFailed.
Proof.
  intros n Hc Hs Hb Hpos Hj Hbad.
  apply makeDetections_asserts; try lia.
  - intros j' c' _ Hj'. rewrite Forall_lookup in Hpos. exact (Hpos _ _ Hj').
  - exists j, c. apply lookup_lt_Some in Hj as Hlt. split; [lia|auto].
Qed.

(* ================================================================== *)
(** ** Process: what it leaves of the object *)

(** X17. [Process] never changes what [Read] and [Configure] have set:
    the stream size, the maximum number of detections, the threshold and
    the labels are the same after every frame, however the frame ends. *)
Theorem Process_keeps_configuration (GetFBApParams : list byte -> FBApParams)
    (req : CompletedRequest) (w w' : World) (r : bool * CompletedRequest) :
  exec (Process GetFBApParams req) w = Ret (r, w') ->
  config (self w') = config (self w).
Proof.
  apply (preserves_exec config).
  assert (Hparse : forall buf src stride, preserves config (parseHeader buf src stride))
    by (intros; now apply parseHeader_preserves).
  assert (Hschema : preserves config (parseApParams GetFBApParams))
    by now apply parseApParams_preserves.
  assert (Hplan : preserves config populateOutputBodyInfo)
    by now apply populateOutputBodyInfo_preserves.
  assert (Hbody : forall buf src stride, preserves config (parseOutputTensorBody buf src stride))
    by (intros; now apply parseOutputTensorBody_preserves).
  assert (Hssd : preserves config processOutputTensor)
    by apply processOutputTensor_preserves.
  unfold Process. destruct (Imx500OutputTensor req) as [buf|].
  2: { apply preserves_mbind; [apply preserves_LOG_ERROR|intros; apply preserves_return]. }
  cbv zeta.
  repeat first
    [ apply preserves_return | apply preserves_LOG_ERROR | apply preserves_this
    | apply preserves_lift
    | apply preserves_call; first [apply Hparse | exact Hschema | exact Hplan
                                  | apply Hbody | exact Hssd]
    | apply preserves_mbind; [|intros]
    | match goal with |- preserves _ (if ?b then _ else _) => destruct b end ].
Qed.

(* ================================================================== *)
(** ** The first pass over the dimensions of a tensor *)

(** The two vectors the dimension loop of the first pass builds, from
    dimension [idx] on: the entry of [actualDim] at the position of a
    dimension and the entry of [serializedDim] at its serialization index
    receive its size; the first keeps the serialization index, the second
    the position. *)
Fixpoint planVectors (idx : nat) (dims : list Dimensions) (sd ad : list Dimensions)
    : list Dimensions * list Dimensions :=
  match dims with
  | [] => (sd, ad)
  | d :: dims' =>
      planVectors (S idx) dims'
        (<[Z.to_nat (serializationIndex d) := mkDim 0 (size d) (Z.of_nat idx)]> sd)
        (<[idx := mkDim 0 (size d) (serializationIndex d)]> ad)
  end.

(** An entry that still has the ordinal and the padding of its
    value-initialisation. *)
Definition blank (d : Dimensions) : Prop := ordinal d = 0 /\ padding d = 0.

Lemma blank_update (d : Dimensions) (s i : Z) :
  blank d -> set_serializationIndex i (set_size s d) = mkDim 0 s i.
Proof. destruct d as [o sz si p]. intros [Ho Hp]. cbn in *. subst. reflexivity. Qed.

Lemma vec_upd_Ret {A} (v : list A) (i : Z) (f : A -> A) (a : A) :
  0 <= i -> v !! Z.to_nat i = Some a -> vec_upd v i f = Ret (<[Z.to_nat i := f a]> v).
Proof.
  intros Hi Ha. unfold vec_upd.
  destruct (Z.ltb_spec i 0) as [?|_]; [lia|]. now rewrite Ha.
Qed.

(** The bound of the guard of the dimension loop. *)
Definition planGuard (param : OutputTensorApParams) : Z :=
  UINT32_MAX / bitsPerElement param / 8.

(** The dimension loop on dimensions of positive size whose serialization
    indices lie below the rank: while the byte count does not wrap, the loop
    ends with the exact byte count and the two vectors, or, for a byte count
    that reaches the bound of its guard, with the error return. *)
Lemma planDims_cases (param : OutputTensorApParams) (w : World) :
  bitsPerElement param = 8 \/ bitsPerElement param = 16 ->
  (length (vecDim param) <= 256)%nat ->
  forall (rest : list Dimensions) (j0 : nat) (acc : Z) (sd ad : list Dimensions),
    drop j0 (vecDim param) = rest ->
    length sd = length (vecDim param) -> length ad = length (vecDim param) ->
    Forall blank sd -> Forall blank ad ->
    Forall (fun d => 0 < size d /\
                     0 <= serializationIndex d < Z.of_nat (length (vecDim param))) rest ->
    1 <= acc -> acc * trueProduct rest < 2 ^ 32 ->
    planDims param (seq j0 (length rest)) acc sd ad w
    = Val (acc * trueProduct rest, (planVectors j0 rest sd ad).1,
           (planVectors j0 rest sd ad).2) w \/
    (planGuard param <= acc * trueProduct rest /\
     planDims param (seq j0 (length rest)) acc sd ad w
     = Rtn (-1) (logged w "Invalid output tensor info")).
Proof.
  intros Hbits Hrank.
  induction rest as [|d rest IH]; intros j0 acc sd ad Hdrop Hsd Had Hbsd Hbad Hok Hacc Hprod.
  - left. cbn. change (trueProduct []) with 1. now rewrite Z.mul_1_r.
  - apply Forall_cons in Hok as [[Hsize Hser] Hok].
    change (trueProduct (d :: rest)) with (size d * trueProduct rest) in *.
    pose proof (trueProduct_pos rest ltac:(eapply Forall_impl; [exact Hok|]; cbn; tauto))
      as Hpos.
    assert (Hj0 : vecDim param !! j0 = Some d).
    { rewrite <- (Nat.add_0_r j0), <- lookup_drop, Hdrop. reflexivity. }
    assert (Hdrop' : drop (S j0) (vecDim param) = rest).
    { rewrite (drop_S _ _ _ Hj0) in Hdrop. now injection Hdrop. }
    apply lookup_lt_Some in Hj0 as Hlt.
    destruct (lookup_lt_is_Some_2 ad j0 ltac:(lia)) as [a Ha].
    destruct (lookup_lt_is_Some_2 sd (Z.to_nat (serializationIndex d)) ltac:(lia)) as [s Hs].
    cbn [length seq planDims]. unfold mbind, lift.
    rewrite (vec_at_Ret _ _ d) by (lia || now rewrite Nat2Z.id).
    rewrite (vec_upd_Ret _ _ _ a) by (lia || now rewrite Nat2Z.id).
    rewrite (vec_upd_Ret _ _ _ s) by (lia || assumption).
    rewrite Nat2Z.id.
    rewrite wrap32_small by nia.
    assert (Hq : (q1 <- udiv UINT32_MAX (bitsPerElement param);; udiv q1 8)%result
                 = Ret (planGuard param)).
    { unfold planGuard. destruct Hbits as [-> | ->]; reflexivity. }
    unfold rbind in Hq.
    destruct (udiv UINT32_MAX (bitsPerElement param)) as [q1|]; [|discriminate].
    rewrite Hq.
    destruct (Z.leb_spec (planGuard param) (acc * size d)) as [Hge|_].
    { right. split; [nia|reflexivity]. }
    rewrite (vec_upd_Ret _ _ _ (set_size (size d) a))
      by (lia || (rewrite Nat2Z.id; apply list_lookup_insert_eq; lia)).
    rewrite (vec_upd_Ret _ _ _ (set_size (size d) s))
      by (lia || (apply list_lookup_insert_eq; lia)).
    rewrite Nat2Z.id, !list_insert_insert_eq.
    rewrite Forall_lookup in Hbsd, Hbad.
    rewrite (blank_update a) by exact (Hbad _ _ Ha).
    rewrite (blank_update s) by exact (Hbsd _ _ Hs).
    assert (Hw8 : wrap8 (Z.of_nat j0) = Z.of_nat j0).
    { unfold wrap8, wrap. apply Z.mod_small. lia. }
    rewrite Hw8.
    replace (acc * (size d * trueProduct rest)) with (acc * size d * trueProduct rest) by ring.
    cbn [planVectors].
    apply IH; try assumption.
    + now rewrite length_insert.
    + now rewrite length_insert.
    + apply Forall_insert; [now apply Forall_lookup|]. split; reflexivity.
    + apply Forall_insert; [now apply Forall_lookup|]. split; reflexivity.
    + nia.
    + nia.
Qed.

(* ================================================================== *)
(** ** The task of one tensor: the general reorder *)

(** The position of the element with the ordinal coordinates [xs] in the
    output: dimension 0 varies fastest. *)
Fixpoint outIndex (dims : list Dimensions) (xs : list Z) : Z :=
  match dims, xs with
  | d :: dims', x :: xs' => x + size d * outIndex dims' xs'
  | _, _ => 0
  end.

(** The step of dimension [d] in the serialized input: the product of the
    sizes of the dimensions that are serialized before it. *)
Definition weightIn (dims : list Dimensions) (d : Dimensions) : Z :=
  foldr (fun d' p => if serializationIndex d' <? serializationIndex d
                     then size d' * p else p) 1 dims.

Fixpoint inIndexFrom (all dims : list Dimensions) (xs : list Z) : Z :=
  match dims, xs with
  | d :: dims', x :: xs' => x * weightIn all d + inIndexFrom all dims' xs'
  | _, _ => 0
  end.

(** The position of the same element in the serialized input: the
    dimension of serialization index 0 varies fastest. *)
Definition inIndex (dims : list Dimensions) (xs : list Z) : Z := inIndexFrom dims dims xs.

(** Coordinates within the sizes of the dimensions. *)
Definition coordinates (dims : list Dimensions) (xs : list Z) : Prop :=
  Forall2 (fun x d => 0 <= x < size d) xs dims.

(** Dimensions in their places, of positive size, serialized in some order
    of their own: the serialization indices are distinct and below the
    rank. *)
Definition serializedInOrder (dims : list Dimensions) : Prop :=
  (forall (j : nat) d, dims !! j = Some d ->
     ordinal d = Z.of_nat j /\ 0 < size d /\
     0 <= serializationIndex d < Z.of_nat (length dims)) /\
  NoDup (serializationIndex <$> dims).

(** The preparation of the sorting, for at most three dimensions: entry
    [i] of the loop counts is the size of the dimension serialized at [i],
    entry [i] of the coefficients the product of the sizes of the dimensions
    in front of that dimension in ordinal order. *)
Lemma sortPrep_spec (sd ad : list Dimensions) :
  nonzeroDims ad ->
  forall (m i0 : nat) (loopCnt coef : list Z),
    (i0 + m <= 3)%nat -> (i0 + m <= length sd)%nat ->
    length loopCnt = 3%nat -> length coef = 3%nat ->
    (forall (i : nat) d, (i0 <= i < i0 + m)%nat -> sd !! i = Some d ->
       0 <= serializationIndex d <= Z.of_nat (length ad) /\
       trueProduct (take (Z.to_nat (serializationIndex d)) ad) < 2 ^ 32) ->
    (forall i : nat, (i0 <= i < i0 + m)%nat -> coef !! i = Some 1) ->
    exists loopCnt' coef',
      sortPrep sd ad (seq i0 m) loopCnt coef = Ret (loopCnt', coef', false) /\
      length loopCnt' = 3%nat /\ length coef' = 3%nat /\
      (forall (i : nat) d, (i0 <= i < i0 + m)%nat -> sd !! i = Some d ->
         loopCnt' !! i = Some (size d) /\
         coef' !! i = Some (trueProduct (take (Z.to_nat (serializationIndex d)) ad))) /\
      (forall i : nat, ~ (i0 <= i < i0 + m)%nat ->
         loopCnt' !! i = loopCnt !! i /\ coef' !! i = coef !! i).
Proof.
  intros Hnz. induction m as [|m IH]; intros i0 loopCnt coef H3 Hsd Hlc Hco Hser Hone.
  - exists loopCnt, coef. cbn. repeat split; try assumption; intros; lia.
  - cbn [seq sortPrep].
    destruct (Z.leb_spec DimensionMax (Z.of_nat i0)) as [Hge|_];
      [unfold DimensionMax in Hge; lia|].
    destruct (lookup_lt_is_Some_2 sd i0 ltac:(lia)) as [d Hd].
    destruct (Hser i0 d ltac:(lia) Hd) as [Hrange Hbound].
    rewrite (vec_at_Ret _ _ d) by (lia || now rewrite Nat2Z.id). cbn [rbind].
    rewrite vec_set_Ret by lia. cbn [rbind].
    rewrite (vec_get_Ret _ _ 1) by (lia || (rewrite Nat2Z.id; apply Hone; lia)).
    cbn [rbind].
    rewrite coefLoop_product; [|assumption|lia|lia|lia].
    cbn [rbind]. rewrite Z.mul_1_l.
    rewrite vec_set_Ret by lia. cbn [rbind]. rewrite Nat2Z.id.
    destruct (IH (S i0) (<[i0 := size d]> loopCnt)
                (<[i0 := trueProduct (take (Z.to_nat (serializationIndex d)) ad)]> coef))
      as (lc & co & Hrun & Hlc' & Hco' & Hnew & Hold).
    + lia.
    + lia.
    + now rewrite length_insert.
    + now rewrite length_insert.
    + intros i d' Hi. apply Hser. lia.
    + intros i Hi. rewrite list_lookup_insert_ne by lia. apply Hone. lia.
    + exists lc, co. split; [exact Hrun|]. split; [exact Hlc'|]. split; [exact Hco'|]. split.
      * intros i d' Hi Hd'. destruct (decide (i = i0)) as [->|Hne].
        -- rewrite Hd in Hd'. injection Hd' as <-.
           destruct (Hold i0 ltac:(lia)) as [-> ->].
           rewrite !list_lookup_insert_eq by lia. auto.
        -- apply Hnew; [lia|assumption].
      * intros i Hi. destruct (Hold i ltac:(lia)) as [-> ->].
        rewrite !list_lookup_insert_ne by lia. auto.
Qed.

(** A vector of three entries is its three entries. *)
Lemma list_three {A} (l : list A) (a b c : A) :
  length l = 3%nat -> l !! 0%nat = Some a -> l !! 1%nat = Some b -> l !! 2%nat = Some c ->
  l = [a; b; c].
Proof.
  destruct l as [|x [|y [|z [|]]]]; try discriminate.
  intros _ [= ->] [= ->] [= ->]. reflexivity.
Qed.

(** Mixed-radix positions: the coordinates are determined by the
    position, and the position lies below the product of the sizes. *)
Lemma mixed_radix_inj (s0 s1 x0 x1 x2 y0 y1 y2 : Z) :
  0 <= x0 < s0 -> 0 <= y0 < s0 -> 0 <= x1 < s1 -> 0 <= y1 < s1 ->
  x0 + s0 * x1 + s0 * s1 * x2 = y0 + s0 * y1 + s0 * s1 * y2 ->
  x0 = y0 /\ x1 = y1 /\ x2 = y2.
Proof.
  intros Hx0 Hy0 Hx1 Hy1 Heq.
  set (k := (y1 + s1 * y2) - (x1 + s1 * x2)).
  assert (Hk : x0 - y0 = s0 * k) by (subst k; lia).
  assert (Hk0 : k = 0) by nia.
  assert (H0 : x0 = y0) by nia.
  set (k1 := y2 - x2).
  assert (Hk1 : x1 - y1 = s1 * k1) by (subst k k1; lia).
  assert (Hk10 : k1 = 0) by nia.
  subst k1. split; [exact H0|]. split; nia.
Qed.

Lemma mixed_radix_bound (s0 s1 s2 x0 x1 x2 : Z) :
  0 <= x0 < s0 -> 0 <= x1 < s1 -> 0 <= x2 < s2 ->
  0 <= x0 + s0 * x1 + s0 * s1 * x2 < s0 * s1 * s2.
Proof.
  intros H0 H1 H2.
  assert (Hs : 0 <= s0 * s1) by (apply Z.mul_nonneg_nonneg; lia).
  assert (0 <= s0 * x1) by (apply Z.mul_nonneg_nonneg; lia).
  assert (0 <= s0 * s1 * x2) by (apply Z.mul_nonneg_nonneg; lia).
  assert (s0 * x1 <= s0 * (s1 - 1)) by (apply Z.mul_le_mono_nonneg_l; lia).
  assert (s0 * s1 * x2 <= s0 * s1 * (s2 - 1)) by (apply Z.mul_le_mono_nonneg_l; lia).
  lia.
Qed.

(** The task of a tensor that needs sorting, for loop counts and
    coefficients under which no two serialized coordinates share a
    destination. *)
Lemma tensorTask_sort_run (buf : list byte) (stride : Z) (plans : list TensorPlan)
    (tensorIdx src offset : Z) (tmpDst tmpDst' : list float) (w : World)
    (param : OutputTensorApParams) (plan : TensorPlan) (n0 n1 n2 c0 c1 c2 : Z) :
  0 <= tensorIdx ->
  plans !! Z.to_nat tensorIdx = Some plan ->
  outputApParams_ (self w) !! Z.to_nat tensorIdx = Some param ->
  sortingRequiredLoop param (seq 0 (Z.to_nat (numDimensions param))) false = Ret true ->
  tp_outSize plan <> 0 ->
  extracted buf param (maxLineLen (dnnHeader_ (self w))) stride offset plan src
    tmpDst tmpDst' ->
  sortPrep (tp_serializedDim plan) (tp_actualDim plan)
    (seq 0 (Z.to_nat (numDimensions param))) [1; 1; 1] [1; 1; 1]
    = Ret ([n0; n1; n2], [c0; c1; c2], false) ->
  0 <= n0 -> 0 <= n1 -> 0 <= n2 -> 0 <= c0 -> 0 <= c1 -> 0 <= c2 ->
  0 <= offset ->
  offset + n2 * n1 * n0 <= Z.of_nat (length tmpDst') ->
  let dst := address (outputBodyInfo_ (self w)) in
  Z.of_nat (length dst) < 2 ^ 32 ->
  (forall i j k, 0 <= i < n2 -> 0 <= j < n1 -> 0 <= k < n0 ->
     offset + (c2 * i + c1 * j + c0 * k) < Z.of_nat (length dst)) ->
  offset + n2 * n1 * n0 <= Z.of_nat (length dst) ->
  (forall i j k i' j' k',
     0 <= i < n2 -> 0 <= j < n1 -> 0 <= k < n0 ->
     0 <= i' < n2 -> 0 <= j' < n1 -> 0 <= k' < n0 ->
     c2 * i + c1 * j + c0 * k = c2 * i' + c1 * j' + c0 * k' ->
     i = i' /\ j = j' /\ k = k') ->
  exists dst',
    exec (tensorTask buf stride plans tensorIdx src offset tmpDst) w
      = Ret ((0, tmpDst'), {| self := set_address dst' (self w); errlog := errlog w |}) /\
    length dst' = length dst /\
    (forall i j k, 0 <= i < n2 -> 0 <= j < n1 -> 0 <= k < n0 ->
       dst' !! Z.to_nat (offset + (c2 * i + c1 * j + c0 * k))
         = tmpDst' !! Z.to_nat (offset + ((i * n1 + j) * n0 + k))) /\
    (forall x : nat,
       (forall i j k, 0 <= i < n2 -> 0 <= j < n1 -> 0 <= k < n0 ->
          Z.of_nat x <> offset + (c2 * i + c1 * j + c0 * k)) ->
       dst' !! x = dst !! x).
Proof.
  intros Hidx Hplan Hparam Hsort Hsize Hext Hprep Hn0 Hn1 Hn2 Hc0 Hc1 Hc2 Hoff Htmp dst
    Hdstw Hfit Hdst Hinj.
  destruct (sortExec_spec tmpDst' offset c2 c1 c0 (Z.to_nat n2) (Z.to_nat n1) (Z.to_nat n0)
              Hoff Hc2 Hc1 Hc0) with (dst := dst) as (dst' & Hrun & Hlen & Hnew & Hold).
  - rewrite !Z2Nat.id by lia. exact Htmp.
  - rewrite !Z2Nat.id by lia. lia.
  - unfold inRange, dstIndex. rewrite !Z2Nat.id by lia.
    intros i j k i' j' k' (Hi & Hj & Hk) (Hi' & Hj' & Hk'). now apply Hinj.
  - split; [exact Hdstw|]. unfold inRange, dstIndex. rewrite !Z2Nat.id by lia.
    intros i j k (Hi & Hj & Hk). now apply Hfit.
  - rewrite !Z2Nat.id in Hrun by lia.
    unfold inRange, dstIndex in Hnew, Hold. rewrite !Z2Nat.id in Hnew, Hold by lia.
    exists dst'. split; [|split; [exact Hlen|split]].
    + unfold exec, tensorTask, mbind, lift, this, return_, modify, LOG_ERROR, mret.
      rewrite (vec_get_Ret _ _ _ Hidx Hplan), (vec_get_Ret _ _ _ Hidx Hparam).
      rewrite Hsort, Hprep. fold dst.
      destruct (Z.eqb_spec (tp_outSize plan) 0) as [?|_]; [contradiction|].
      destruct Hext as [[Hb Hscan]|[Hb Hscan]]; rewrite Hb.
      * change (8 =? 8) with true. cbv iota beta. rewrite Hscan, Hrun. reflexivity.
      * change (16 =? 8) with false. change (16 =? 16) with true. cbv iota beta.
        rewrite Hscan, Hrun. reflexivity.
    + intros i j k Hi Hj Hk. apply Hnew. auto.
    + intros x Hx. apply Hold. intros i j k (Hi & Hj & Hk). now apply Hx.
Qed.

(** Whether a descriptor needs sorting. *)
Lemma sortingRequiredLoop_spec (param : OutputTensorApParams) :
  forall (n j0 : nat) (b : bool),
    (j0 + n <= length (vecDim param))%nat ->
    sortingRequiredLoop param (seq j0 n) b
    = Ret (b || existsb (fun d => negb (serializationIndex d =? ordinal d))
                  (take n (drop j0 (vecDim param)))).
Proof.
  induction n as [|n IH]; intros j0 b Hlen.
  - cbn. now rewrite orb_false_r.
  - cbn [seq sortingRequiredLoop].
    destruct (lookup_lt_is_Some_2 (vecDim param) j0 ltac:(lia)) as [d Hd].
    rewrite (vec_at_Ret _ _ d) by (lia || now rewrite Nat2Z.id). cbn [rbind].
    rewrite IH by lia. rewrite (drop_S _ _ _ Hd). cbn [take existsb].
    f_equal. destruct (negb (serializationIndex d =? ordinal d)), b; reflexivity.
Qed.

Ltac eval_ltb :=
  repeat match goal with
         | |- context [?a <? ?b] =>
             let r := eval vm_compute in (a <? b) in
             match r with
             | true => change (a <? b) with true
             | false => change (a <? b) with false
             end
         end;
  cbv iota.

(** The six mixed-radix readings of three coordinates within their sizes. *)
Ltac radix_bounds sa a sb b sc c Ha Hb Hc :=
  pose proof (mixed_radix_bound sa sb sc a b c Ha Hb Hc);
  pose proof (mixed_radix_bound sa sc sb a c b Ha Hc Hb);
  pose proof (mixed_radix_bound sb sa sc b a c Hb Ha Hc);
  pose proof (mixed_radix_bound sb sc sa b c a Hb Hc Ha);
  pose proof (mixed_radix_bound sc sa sb c a b Hc Ha Hb);
  pose proof (mixed_radix_bound sc sb sa c b a Hc Hb Ha).

Ltac radix_inj sa a a' sb b b' c c' :=
  destruct (mixed_radix_inj sa sb a b c a' b' c') as (? & ? & ?);
  [lia | lia | lia | lia | lia | ].

Lemma shiftr_double (c : Z) : Z.shiftr (2 * c) 1 = c.
Proof.
  rewrite Z.shiftr_div_pow2 by lia. change (2 ^ 1) with 2.
  rewrite Z.mul_comm. apply Z.div_mul. lia.
Qed.

Lemma elementCount_bytes (param : OutputTensorApParams) (c : Z) :
  bitsPerElement param = 8 \/ bitsPerElement param = 16 ->
  elementCount param (bitsPerElement param / 8 * c) = c.
Proof.
  unfold elementCount. intros [-> | ->].
  - change (8 =? 8) with true. change (8 / 8) with 1. cbv iota. lia.
  - change (16 =? 8) with false. change (16 / 8) with 2. cbv iota. apply shiftr_double.
Qed.

(** The steps of the proof below, for one serialization order. *)
Ltac try_map Hmap i j k :=
  etransitivity;
  [|etransitivity; [exact (Hmap i j k ltac:(lia) ltac:(lia) ltac:(lia))|]];
  f_equal; f_equal; ring.

Ltac map_perms Hmap a b c :=
  first [ try_map Hmap a b c | try_map Hmap a c b | try_map Hmap b a c
        | try_map Hmap b c a | try_map Hmap c a b | try_map Hmap c b a ].

Ltac three_bounds Hi Hj Hk :=
  match type of Hi with
  | _ <= ?i < ?a =>
      match type of Hj with
      | _ <= ?j < ?b =>
          match type of Hk with
          | _ <= ?k < ?c => radix_bounds a i b j c k Hi Hj Hk
          end
      end
  end.

Ltac three_inj Hi Hj Hk Hi' Hj' Hk' :=
  match type of Hi with
  | _ <= ?i < ?a =>
      match type of Hj with
      | _ <= ?j < ?b =>
          match type of Hk with
          | _ <= ?k < ?c =>
              match type of Hi' with
              | _ <= ?i' < _ =>
                  match type of Hj' with
                  | _ <= ?j' < _ =>
                      match type of Hk' with
                      | _ <= ?k' < _ =>
                          first [ radix_inj a i i' b j j' k k'
                                | radix_inj a i i' c k k' j j'
                                | radix_inj b j j' a i i' k k'
                                | radix_inj b j j' c k k' i i'
                                | radix_inj c k k' a i i' j j'
                                | radix_inj c k k' b j j' i i' ]
                      end
                  end
              end
          end
      end
  end.

Ltac prep_entry Hnew Hsame i Hl Hk :=
  first [ pose proof (Hnew i _ ltac:(lia) eq_refl) as [Hl Hk]
        | pose proof (Hsame i ltac:(lia)) as [Hl Hk];
          change ([1; 1; 1] !! i) with (Some 1) in Hl, Hk ].

(** The reorder of a tensor of rank [r] that needs sorting, once its
    serialization order is known. *)
Ltac sorted_case r buf stride plans tensorIdx src offset tmpDst tmpDst' w param plan
    Hidx Hplan Hparam Hvec Hnum Hdims Hext :=
  let Hsize := fresh "Hsize" in
  let Hsd := fresh "Hsd" in
  let Had := fresh "Had" in
  let Hsort := fresh "Hsort" in
  let lc := fresh "lc" in
  let co := fresh "co" in
  let Hprep := fresh "Hprep" in
  let Hlc := fresh "Hlc" in
  let Hco := fresh "Hco" in
  let Hnew := fresh "Hnew" in
  let Hsame := fresh "Hsame" in
  let Hl0 := fresh "Hl0" in
  let Hk0 := fresh "Hk0" in
  let Hl1 := fresh "Hl1" in
  let Hk1 := fresh "Hk1" in
  let Hl2 := fresh "Hl2" in
  let Hk2 := fresh "Hk2" in
  let dst' := fresh "dst'" in
  let Hrun := fresh "Hrun" in
  let Hlen' := fresh "Hlen'" in
  let Hmap := fresh "Hmap" in
  let Hold := fresh "Hold" in
  let Hi := fresh "Hi" in
  let Hj := fresh "Hj" in
  let Hk := fresh "Hk" in
  let Hi' := fresh "Hi'" in
  let Hj' := fresh "Hj'" in
  let Hk' := fresh "Hk'" in
  let i := fresh "i" in
  let d := fresh "d" in
  let Hd := fresh "Hd" in
  injection Hdims as Hsize Hsd Had;
  assert (Hsort : sortingRequiredLoop param (seq 0 (Z.to_nat (numDimensions param))) false
                  = Ret true)
    by (rewrite sortingRequiredLoop_spec by (rewrite Hnum, Hvec; cbn; lia);
        rewrite Hnum, Hvec; vm_compute; reflexivity);
  destruct (sortPrep_spec (tp_serializedDim plan) (tp_actualDim plan)) with
    (m := r) (i0 := 0%nat) (loopCnt := [1; 1; 1]) (coef := [1; 1; 1])
    as (lc & co & Hprep & Hlc & Hco & Hnew & Hsame);
  [ rewrite <- Had; unfold nonzeroDims; repeat (apply Forall_cons; split; [assumption|]); apply Forall_nil_2
  | lia
  | rewrite <- Hsd; cbn; lia
  | reflexivity
  | reflexivity
  | rewrite <- Hsd, <- Had; intros i d Hi Hd;
    destruct i as [|[|[|]]]; try lia; injection Hd as <-;
    (split; [vm_compute; split; discriminate|]);
    lazy -[Z.mul Z.add Z.lt Z.le Z.pow]; nia
  | intros i Hi; destruct i as [|[|[|]]]; try lia; reflexivity
  | ];
  rewrite <- Hsd, <- Had in Hnew;
  prep_entry Hnew Hsame 0%nat Hl0 Hk0;
  prep_entry Hnew Hsame 1%nat Hl1 Hk1;
  prep_entry Hnew Hsame 2%nat Hl2 Hk2;
  lazy -[Z.mul Z.add Z.lt Z.le Z.pow lookup] in Hl0, Hl1, Hl2, Hk0, Hk1, Hk2;
  rewrite (list_three lc _ _ _ Hlc Hl0 Hl1 Hl2) in Hprep;
  rewrite (list_three co _ _ _ Hco Hk0 Hk1 Hk2) in Hprep;
  clear Hnew Hsame Hl0 Hl1 Hl2 Hk0 Hk1 Hk2 Hlc Hco lc co;
  replace (seq 0 r) with (seq 0 (Z.to_nat (numDimensions param))) in Hprep
    by (rewrite Hnum; reflexivity);
  match type of Hprep with
  | _ = Ret ([?n0; ?n1; ?n2], [?c0; ?c1; ?c2], false) =>
      destruct (tensorTask_sort_run buf stride plans tensorIdx src offset tmpDst tmpDst' w
                  param plan n0 n1 n2 c0 c1 c2 Hidx Hplan Hparam Hsort ltac:(nia) Hext Hprep)
        as (dst' & Hrun & Hlen' & Hmap & Hold)
  end;
  [ nia | nia | nia | nia | nia | nia | nia | nia | assumption
  | intros ? ? ? Hi Hj Hk; three_bounds Hi Hj Hk; lia
  | lia
  | intros ? ? ? ? ? ? Hi Hj Hk Hi' Hj' Hk' ?;
    three_inj Hi Hj Hk Hi' Hj' Hk'; repeat split; lia
  | exists dst'; split; [exact Hrun|]; split; [exact Hlen'|] ].

(** The same for a tensor that needs no sorting. *)
Ltac copied_case buf stride plans tensorIdx src offset tmpDst tmpDst' w param plan
    Hidx Hplan Hparam Hvec Hnum Hdims Hext Hbits Hoff :=
  let Hsize := fresh "Hsize" in
  let dst' := fresh "dst'" in
  let Hrun := fresh "Hrun" in
  let Hlen' := fresh "Hlen'" in
  let Hmap := fresh "Hmap" in
  let Hold := fresh "Hold" in
  injection Hdims as Hsize _ _;
  destruct (tensorTask_copies_run buf stride plans tensorIdx src offset tmpDst tmpDst' w
              param plan Hidx Hplan Hparam) as (dst' & Hrun & Hlen' & Hmap & Hold);
  [ rewrite Hnum, Hvec; cbn; lia
  | rewrite Hvec; repeat (apply Forall_cons; split; [reflexivity|]); apply Forall_nil_2
  | rewrite <- Hsize; nia
  | exact Hext
  | exact Hoff
  | rewrite <- Hsize, (elementCount_bytes param _ Hbits); lia
  | rewrite <- Hsize, (elementCount_bytes param _ Hbits); lia
  | rewrite <- Hsize, (elementCount_bytes param _ Hbits) in Hmap, Hold;
    exists dst'; split; [exact Hrun|]; split; [exact Hlen'|] ].

(** The task of a tensor of rank at most three, whatever the order in
    which its dimensions are serialized. *)
Lemma tensorTask_reorder_run (buf : list byte) (stride : Z) (plans : list TensorPlan)
    (tensorIdx src offset : Z) (tmpDst tmpDst' : list float) (w : World)
    (param : OutputTensorApParams) (plan : TensorPlan) (dims : list Dimensions) :
  0 <= tensorIdx ->
  plans !! Z.to_nat tensorIdx = Some plan ->
  outputApParams_ (self w) !! Z.to_nat tensorIdx = Some param ->
  vecDim param = dims ->
  numDimensions param = Z.of_nat (length dims) ->
  (length dims <= 3)%nat ->
  serializedInOrder dims ->
  bitsPerElement param / 8 * trueProduct dims < 2 ^ 32 ->
  planDims param (seq 0 (length dims)) (bitsPerElement param / 8)
    (replicate (length dims) zeroDim) (replicate (length dims) zeroDim) w
    = Val (tp_outSize plan, tp_serializedDim plan, tp_actualDim plan) w ->
  extracted buf param (maxLineLen (dnnHeader_ (self w))) stride offset plan src
    tmpDst tmpDst' ->
  let count := trueProduct dims in
  let dst := address (outputBodyInfo_ (self w)) in
  0 <= offset ->
  offset + count <= Z.of_nat (length tmpDst') ->
  offset + count <= Z.of_nat (length dst) -> Z.of_nat (length dst) < 2 ^ 32 ->
  exists dst',
    exec (tensorTask buf stride plans tensorIdx src offset tmpDst) w
      = Ret ((0, tmpDst'), {| self := set_address dst' (self w); errlog := errlog w |}) /\
    length dst' = length dst /\
    (forall xs, coordinates dims xs ->
       dst' !! Z.to_nat (offset + outIndex dims xs)
         = tmpDst' !! Z.to_nat (offset + inIndex dims xs)) /\
    (forall x : nat, ~ (offset <= Z.of_nat x < offset + count) -> dst' !! x = dst !! x).
Proof.
  intros Hidx Hplan Hparam Hvec Hnum Hrank [Hfields Hnodup] Hbytes Hdims Hext count dst
    Hoff Htmp Hdst Hdstw.
  assert (Hbits : bitsPerElement param = 8 \/ bitsPerElement param = 16).
  { destruct Hext as [[? _]|[? _]]; auto. }
  assert (Hb : 1 <= bitsPerElement param / 8 <= 2).
  { destruct Hbits as [-> | ->]; vm_compute; split; discriminate. }
  assert (Hlen : length (vecDim param) = length dims) by now rewrite Hvec.
  assert (Hok : Forall (fun d => 0 < size d /\
                   0 <= serializationIndex d < Z.of_nat (length (vecDim param))) dims).
  { apply Forall_lookup. intros j d Hd. destruct (Hfields j d Hd) as (_ & ? & ?).
    rewrite Hlen. auto. }
  assert (Hblank : Forall blank (replicate (length dims) zeroDim)).
  { apply Forall_replicate. split; reflexivity. }
  pose proof (planDims_cases param w Hbits ltac:(lia) dims 0%nat
                (bitsPerElement param / 8) (replicate (length dims) zeroDim)
                (replicate (length dims) zeroDim) ltac:(now rewrite Hvec)
                ltac:(now rewrite length_replicate) ltac:(now rewrite length_replicate)
                Hblank Hblank Hok ltac:(lia) Hbytes) as [Hrun|[_ Hrun]];
    [|rewrite Hrun in Hdims; discriminate].
  rewrite Hrun in Hdims. clear Hrun Hok Hblank Hlen.
  subst dst count.
  destruct dims as [|d0 [|d1 [|d2 [|d3 dims]]]]; [| | | |cbn in Hrank; lia].
  - (* rank 0 *)
    unfold trueProduct in *. cbn [foldr size] in *.
    copied_case buf stride plans tensorIdx src offset tmpDst tmpDst' w param plan
      Hidx Hplan Hparam Hvec Hnum Hdims Hext Hbits Hoff.
    split; [|exact Hold].
    intros xs Hxs. apply Forall2_nil_inv_r in Hxs as ->.
    lazy -[Z.mul Z.add Z.to_nat lookup]. apply Hmap. lia.
  - (* rank 1 *)
    destruct d0 as [o0 s0 i0 p0].
    destruct (Hfields 0%nat _ eq_refl) as (Ho0 & Hs0 & Hr0).
    cbn [ordinal size serializationIndex length] in Ho0, Hs0, Hr0.
    assert (i0 = 0) as -> by lia. subst o0. clear Hfields.
    unfold trueProduct in *. cbn [foldr size] in *.
    copied_case buf stride plans tensorIdx src offset tmpDst tmpDst' w param plan
      Hidx Hplan Hparam Hvec Hnum Hdims Hext Hbits Hoff.
    split; [|exact Hold].
    intros xs Hxs.
    apply Forall2_cons_inv_r in Hxs as (x0 & xs0 & Hx0 & Hxs & ->).
    apply Forall2_nil_inv_r in Hxs as ->.
    cbn [size] in Hx0.
    lazy -[Z.mul Z.add Z.to_nat lookup].
    replace (x0 * 1 + 0) with (x0 + s0 * 0) by ring.
    apply Hmap. lia.
  - (* rank 2 *)
    destruct d0 as [o0 s0 i0 p0], d1 as [o1 s1 i1 p1].
    destruct (Hfields 0%nat _ eq_refl) as (Ho0 & Hs0 & Hr0).
    destruct (Hfields 1%nat _ eq_refl) as (Ho1 & Hs1 & Hr1).
    cbn [ordinal size serializationIndex length] in Ho0, Ho1, Hs0, Hs1, Hr0, Hr1.
    cbn [fmap list_fmap serializationIndex] in Hnodup.
    apply NoDup_cons in Hnodup as [Hn0 _].
    apply not_elem_of_cons in Hn0 as [Hn01 _].
    subst o0 o1. clear Hfields.
    unfold trueProduct in *. cbn [foldr size] in *.
    assert (Hc0 : i0 = 0 \/ i0 = 1) by lia.
    assert (Hc1 : i1 = 0 \/ i1 = 1) by lia.
    destruct Hc0 as [->| ->], Hc1 as [->| ->]; try lia.
    + copied_case buf stride plans tensorIdx src offset tmpDst tmpDst' w param plan
        Hidx Hplan Hparam Hvec Hnum Hdims Hext Hbits Hoff.
      split; [|exact Hold].
      intros xs Hxs.
      apply Forall2_cons_inv_r in Hxs as (x0 & xs0 & Hx0 & Hxs & ->).
      apply Forall2_cons_inv_r in Hxs as (x1 & xs1 & Hx1 & Hxs & ->).
      apply Forall2_nil_inv_r in Hxs as ->.
      cbn [size] in Hx0, Hx1.
      lazy -[Z.mul Z.add Z.to_nat lookup].
      replace (x0 * 1 + (x1 * (s0 * 1) + 0)) with (x0 + s0 * (x1 + s1 * 0)) by ring.
      apply Hmap.
      pose proof (mixed_radix_bound s0 s1 1 x0 x1 0 Hx0 Hx1 ltac:(lia)). lia.
    + sorted_case 2%nat buf stride plans tensorIdx src offset tmpDst tmpDst' w param plan
        Hidx Hplan Hparam Hvec Hnum Hdims Hext.
      split.
      * intros xs Hxs.
        apply Forall2_cons_inv_r in Hxs as (x0 & xs0 & Hx0 & Hxs & ->).
        apply Forall2_cons_inv_r in Hxs as (x1 & xs1 & Hx1 & Hxs & ->).
        apply Forall2_nil_inv_r in Hxs as ->.
        cbn [size] in Hx0, Hx1.
        lazy -[Z.mul Z.add Z.to_nat lookup].
        map_perms Hmap 0 x0 x1.
      * intros x Hx. apply Hold. intros i j k Hi Hj Hk. three_bounds Hi Hj Hk. lia.
  - (* rank 3 *)
    destruct d0 as [o0 s0 i0 p0], d1 as [o1 s1 i1 p1], d2 as [o2 s2 i2 p2].
    destruct (Hfields 0%nat _ eq_refl) as (Ho0 & Hs0 & Hr0).
    destruct (Hfields 1%nat _ eq_refl) as (Ho1 & Hs1 & Hr1).
    destruct (Hfields 2%nat _ eq_refl) as (Ho2 & Hs2 & Hr2).
    cbn [ordinal size serializationIndex length] in Ho0, Ho1, Ho2, Hs0, Hs1, Hs2, Hr0, Hr1, Hr2.
    cbn [fmap list_fmap serializationIndex] in Hnodup.
    apply NoDup_cons in Hnodup as [Hn0 Hnodup]. apply NoDup_cons in Hnodup as [Hn1 _].
    apply not_elem_of_cons in Hn0 as [Hn01 Hn0]. apply not_elem_of_cons in Hn0 as [Hn02 _].
    apply not_elem_of_cons in Hn1 as [Hn12 _].
    subst o0 o1 o2. clear Hfields.
    unfold trueProduct in *. cbn [foldr size] in *.
    assert (Hc0 : i0 = 0 \/ i0 = 1 \/ i0 = 2) by lia.
    assert (Hc1 : i1 = 0 \/ i1 = 1 \/ i1 = 2) by lia.
    assert (Hc2 : i2 = 0 \/ i2 = 1 \/ i2 = 2) by lia.
    destruct Hc0 as [->|[->| ->]], Hc1 as [->|[->| ->]], Hc2 as [->|[->| ->]]; try lia.
    1: { copied_case buf stride plans tensorIdx src offset tmpDst tmpDst' w param plan
           Hidx Hplan Hparam Hvec Hnum Hdims Hext Hbits Hoff.
         split; [|exact Hold].
         intros xs Hxs.
         apply Forall2_cons_inv_r in Hxs as (x0 & xs0 & Hx0 & Hxs & ->).
         apply Forall2_cons_inv_r in Hxs as (x1 & xs1 & Hx1 & Hxs & ->).
         apply Forall2_cons_inv_r in Hxs as (x2 & xs2 & Hx2 & Hxs & ->).
         apply Forall2_nil_inv_r in Hxs as ->.
         cbn [size] in Hx0, Hx1, Hx2.
         lazy -[Z.mul Z.add Z.to_nat lookup].
         replace (x0 * 1 + (x1 * (s0 * 1) + (x2 * (s0 * (s1 * 1)) + 0)))
           with (x0 + s0 * (x1 + s1 * (x2 + s2 * 0))) by ring.
         apply Hmap.
         pose proof (mixed_radix_bound s0 s1 s2 x0 x1 x2 Hx0 Hx1 Hx2). lia. }
    all: sorted_case 3%nat buf stride plans tensorIdx src offset tmpDst tmpDst' w param plan
           Hidx Hplan Hparam Hvec Hnum Hdims Hext.
    all: split.
    all: try (intros x Hx; apply Hold; intros i j k Hi Hj Hk; three_bounds Hi Hj Hk; lia).
    all: intros xs Hxs;
      apply Forall2_cons_inv_r in Hxs as (x0 & xs0 & Hx0 & Hxs & ->);
      apply Forall2_cons_inv_r in Hxs as (x1 & xs1 & Hx1 & Hxs & ->);
      apply Forall2_cons_inv_r in Hxs as (x2 & xs2 & Hx2 & Hxs & ->);
      apply Forall2_nil_inv_r in Hxs as ->;
      cbn [size] in Hx0, Hx1, Hx2;
      lazy -[Z.mul Z.add Z.to_nat lookup];
      map_perms Hmap x0 x1 x2.
Qed.

(** X18. The general reorder.  For a tensor of rank at most three whose
    dimensions are serialized in any order, the task moves every element
    from its place in the serialized input, where the dimension of
    serialization index 0 varies fastest, to its place in the output, where
    dimension 0 varies fastest; a tensor serialized in its ordinal order
    is copied as it is.  The rest of the output array is left as it was. *)
Theorem tensorTask_reorders (buf : list byte) (stride : Z) (plans : list TensorPlan)
    (tensorIdx src offset : Z) (tmpDst tmpDst' : list float) (w : World)
    (param : OutputTensorApParams) (plan : TensorPlan) (dims : list Dimensions) :
  0 <= tensorIdx ->
  plans !! Z.to_nat tensorIdx = Some plan ->
  outputApParams_ (self w) !! Z.to_nat tensorIdx = Some param ->
  vecDim param = dims ->
  numDimensions param = Z.of_nat (length dims) ->
  (length dims <= 3)%nat ->
  serializedInOrder dims ->
  bitsPerElement param / 8 * trueProduct dims < 2 ^ 32 ->
  planDims param (seq 0 (length dims)) (bitsPerElement param / 8)
    (replicate (length dims) zeroDim) (replicate (length dims) zeroDim) w
    = Val (tp_outSize plan, tp_serializedDim plan, tp_actualDim plan) w ->
  extracted buf param (maxLineLen (dnnHeader_ (self w))) stride offset plan src
    tmpDst tmpDst' ->
  let count := trueProduct dims in
  let dst := address (outputBodyInfo_ (self w)) in
  0 <= offset ->
  offset + count <= Z.of_nat (length tmpDst') ->
  offset + count <= Z.of_nat (length dst) -> Z.of_nat (length dst) < 2 ^ 32 ->
  exists dst',
    exec (tensorTask buf stride plans tensorIdx src offset tmpDst) w
      = Ret ((0, tmpDst'), {| self := set_address dst' (self w); errlog := errlog w |}) /\
    length dst' = length dst /\
    (forall xs, coordinates dims xs ->
       dst' !! Z.to_nat (offset + outIndex dims xs)
         = tmpDst' !! Z.to_nat (offset + inIndex dims xs)) /\
    (forall x : nat, ~ (offset <= Z.of_nat x < offset + count) -> dst' !! x = dst !! x).
Proof.
  exact (tensorTask_reorder_run buf stride plans tensorIdx src offset tmpDst tmpDst' w
           param plan dims).
Qed.

(* ================================================================== *)
(** ** parseOutputTensorBody on a single 8-bit tensor *)

Lemma outIndex_bound (dims : list Dimensions) (xs : list Z) :
  coordinates dims xs -> 0 <= outIndex dims xs < trueProduct dims.
Proof.
  unfold coordinates. revert xs. induction dims as [|d dims IH]; intros xs Hxs.
  - apply Forall2_nil_inv_r in Hxs as ->. cbn. change (trueProduct []) with 1. lia.
  - apply Forall2_cons_inv_r in Hxs as (x & xs' & Hx & Hxs & ->).
    specialize (IH xs' Hxs). cbn [outIndex].
    change (trueProduct (d :: dims)) with (size d * trueProduct dims). nia.
Qed.

Lemma weightIn_pos (all : list Dimensions) (d : Dimensions) :
  nonzeroDims all -> 1 <= weightIn all d.
Proof.
  unfold weightIn. induction 1 as [|d' all Hd' _ IH]; cbn [foldr]; [lia|].
  destruct (serializationIndex d' <? serializationIndex d); nia.
Qed.

Lemma inIndex_nonneg (all dims : list Dimensions) (xs : list Z) :
  nonzeroDims all -> coordinates dims xs -> 0 <= inIndexFrom all dims xs.
Proof.
  intros Hall. unfold coordinates. revert xs.
  induction dims as [|d dims IH]; intros xs Hxs.
  - apply Forall2_nil_inv_r in Hxs as ->. cbn. lia.
  - apply Forall2_cons_inv_r in Hxs as (x & xs' & Hx & Hxs & ->).
    specialize (IH xs' Hxs). cbn [inIndexFrom].
    pose proof (weightIn_pos all d Hall). nia.
Qed.

(** A single tensor is started first. *)
Lemma orderTensors_single (plan : TensorPlan) : orderTensors [plan] 1 = Ret [0].
Proof.
  unfold orderTensors. cbn [seq fmap list_fmap length orderOuter orderInner].
  change (vec_get [Z.of_nat 0] (Z.of_nat 0)) with (Ret (Z.of_nat 0)). cbn [rbind].
  change (numLinesAt [plan] (Z.of_nat 0)) with (Ret (tp_numLines plan)). cbn [rbind].
  rewrite Z.ltb_irrefl. reflexivity.
Qed.

Lemma numLinesOf_range (outSize mll lines : Z) :
  numLinesOf outSize mll = Ret lines -> 0 <= lines < 65536.
Proof.
  unfold numLinesOf, to_unsigned.
  destruct (fceil _) as [z|]; [|discriminate].
  destruct (Z.leb_spec 0 z); [|discriminate].
  destruct (Z.ltb_spec z (2 ^ 16)); [|discriminate].
  cbn. intros [= <-]. lia.
Qed.

(** X19. The body parser, end to end, on a frame with a single 8-bit
    tensor of rank at most three: when the line count the first pass
    computes covers the tensor and the lines lie inside the buffer, the
    parser returns 0 without a message and leaves in the output array, at
    the place of every element, the dequantised byte of that element:
    the byte at line [k / maxLineLen], offset [k mod maxLineLen], for the
    position [k] of the element in the serialized input. *)
Theorem parseOutputTensorBody_single_tensor (buf : list byte) (src stride : Z)
    (w : World) (param : OutputTensorApParams) (lines : Z) :
  let dims := vecDim param in
  let n := trueProduct dims in
  let mll := maxLineLen (dnnHeader_ (self w)) in
  let info := outputBodyInfo_ (self w) in
  outputApParams_ (self w) = [param] ->
  bitsPerElement param = 8 ->
  numDimensions param = Z.of_nat (length dims) ->
  (length dims <= 3)%nat ->
  serializedInOrder dims ->
  n < planGuard param ->
  totalSize info = n ->
  length (address info) = Z.to_nat n ->
  (0 < length (tensorDataNum info))%nat ->
  0 < mll ->
  numLinesOf n mll = Ret lines ->
  n <= lines * mll ->
  0 <= src -> 0 <= stride ->
  (forall k, 0 <= k < n -> src + k / mll * stride + k mod mll < Z.of_nat (length buf)) ->
  exists w',
    exec (parseOutputTensorBody buf src stride) w = Ret (0, w') /\
    errlog w' = errlog w /\
    length (address (outputBodyInfo_ (self w'))) = Z.to_nat n /\
    forall xs, coordinates dims xs ->
      let k := inIndex dims xs in
      exists b : byte,
        buf !! Z.to_nat (src + k / mll * stride + k mod mll) = Some b /\
        address (outputBodyInfo_ (self w')) !! Z.to_nat (outIndex dims xs)
        = Some (dequantize param (raw8 (format param =? TYPE_SIGNED) b)).
Proof.
  intros dims n mll info Haps Hbits Hnum Hrank Hord Hsmall Htotal Haddr Htdn Hmll
    Hlines Hcover Hsrc Hstride Hbuf.
  assert (Hguard : planGuard param = 67108863) by (unfold planGuard; now rewrite Hbits).
  assert (Hnz : nonzeroDims dims).
  { apply Forall_lookup. intros j d Hd. now destruct (proj1 Hord j d Hd) as (_ & ? & _). }
  pose proof (trueProduct_pos dims Hnz) as Hpos. fold n in Hpos.
  pose proof (numLinesOf_range _ _ _ Hlines) as Hlrange.
  set (nd := length dims).
  set (sd := (planVectors 0 dims (replicate nd zeroDim) (replicate nd zeroDim)).1).
  set (ad := (planVectors 0 dims (replicate nd zeroDim) (replicate nd zeroDim)).2).
  assert (Hplan : forall v : World,
             planDims param (seq 0 nd) 1 (replicate nd zeroDim) (replicate nd zeroDim) v
             = Val (n, sd, ad) v).
  { intros v.
    destruct (planDims_cases param v ltac:(auto) ltac:(fold dims; lia) dims 0%nat 1
                (replicate nd zeroDim) (replicate nd zeroDim)) as [Hrun|[Hbad _]].
    - reflexivity.
    - apply length_replicate.
    - apply length_replicate.
    - apply Forall_replicate. split; reflexivity.
    - apply Forall_replicate. split; reflexivity.
    - apply Forall_lookup. intros j d Hd. destruct (proj1 Hord j d Hd) as (_ & ? & ?). auto.
    - lia.
    - fold n. lia.
    - rewrite Z.mul_1_l in Hrun. exact Hrun.
    - fold n in Hbad. lia. }
  set (plan := {| tp_offset := 0; tp_src := src; tp_numLines := lines; tp_outSize := n;
                  tp_serializedDim := sd; tp_actualDim := ad |}).
  set (tdn := <[0%nat := n]> (tensorDataNum info)).
  set (w1 := {| self := set_tensorDataNum tdn (self w); errlog := errlog w |}).
  set (tmp := replicate (Z.to_nat n) fzero).
  (* the extraction *)
  destruct (scanLines8_spec buf param mll stride 0 n ltac:(lia) Hstride ltac:(lia)
              ltac:(lia) ltac:(lia) (Z.to_nat lines) src 0 tmp)
    as (tmp' & Hscan & Hlen' & Hnew & _).
  { exact Hsrc. }
  { lia. }
  { subst tmp. rewrite length_replicate. lia. }
  { intros k Hk. unfold pos8. apply Hbuf. rewrite Z2Nat.id in Hk by lia. lia. }
  assert (Htot : Z.max 0 (Z.min (Z.of_nat (Z.to_nat lines) * mll) (n - 0)) = n)
    by (rewrite Z2Nat.id by lia; lia).
  rewrite Htot in Hnew.
  (* the task *)
  destruct (tensorTask_reorder_run buf stride [plan] 0 src 0 tmp tmp' w1 param plan dims)
    as (dst' & Htask & Hdlen & Hmap & _).
  { lia. }
  { reflexivity. }
  { cbn. rewrite Haps. reflexivity. }
  { reflexivity. }
  { exact Hnum. }
  { exact Hrank. }
  { exact Hord. }
  { rewrite Hbits. change (8 / 8) with 1. fold n. lia. }
  { rewrite Hbits. change (8 / 8) with 1. apply Hplan. }
  { left. split; [exact Hbits|exact Hscan]. }
  { lia. }
  { fold n. rewrite Hlen'. subst tmp. rewrite length_replicate. lia. }
  { fold n. cbn. fold info. rewrite Haddr. lia. }
  { cbn. fold info. rewrite Haddr. lia. }
  assert (Hdn : length dst' = Z.to_nat n) by (etransitivity; [exact Hdlen|exact Haddr]).
  exists {| self := set_address dst' (self w1); errlog := errlog w |}.
  split; [|split; [reflexivity|split]].
  - unfold exec, parseOutputTensorBody, mbind, this. fold info. rewrite Htotal.
    destruct (Z.ltb_spec (UINT32_MAX / sizeof_float) n) as [Hbig|_].
    { change (UINT32_MAX / sizeof_float) with 1073741823 in Hbig. lia. }
    rewrite Haps. cbn [length seq planTensors]. unfold mbind, this, lift.
    rewrite Haps. change (vec_at [param] (Z.of_nat 0)) with (Ret param). cbv beta iota.
    rewrite Hnum, Nat2Z.id, Hbits. change (8 / 8) with 1. fold nd.
    rewrite Hplan. cbv beta iota. fold mll. rewrite Hlines.
    unfold udiv. change (1 =? 0) with false. cbv beta iota. rewrite Z.div_1_r.
    rewrite wrap32_small by lia. rewrite Z.add_0_l.
    fold info. rewrite vec_set_Ret by (cbn; lia).
    change (Z.to_nat (Z.of_nat 0)) with 0%nat. fold tdn.
    unfold modify. cbv beta iota. rewrite Htotal, Z.ltb_irrefl.
    unfold mret. cbn [app]. fold plan.
    rewrite orderTensors_single.
    cbn [runTasks]. unfold mbind, lift, call.
    change (vec_get [plan] 0) with (Ret plan). cbv beta iota.
    change (to_signed 32 0) with 0. cbn [tp_src tp_offset plan].
    cbn [self errlog]. fold w1. fold tmp. change (to_signed 32 0) with 0. rewrite Htask.
    change (to_signed 32 (0 + 0)) with 0. reflexivity.
  - exact Hdn.
  - intros xs Hxs k.
    pose proof (outIndex_bound dims xs Hxs) as Hout. fold n in Hout.
    pose proof (inIndex_nonneg dims dims xs Hnz Hxs) as Hin. fold (inIndex dims xs) in Hin.
    fold k in Hin.
    specialize (Hmap xs Hxs). rewrite !Z.add_0_l in Hmap. fold k in Hmap.
    destruct (lookup_lt_is_Some_2 dst' (Z.to_nat (outIndex dims xs))) as [v Hv];
      [rewrite Hdn; lia|].
    rewrite Hv in Hmap. symmetry in Hmap.
    apply lookup_lt_Some in Hmap as Hk.
    rewrite Hlen' in Hk. subst tmp. rewrite length_replicate in Hk.
    destruct (Hnew k ltac:(lia)) as [[v' Hs] Hkv].
    rewrite !Z.add_0_l in Hkv. rewrite Hmap in Hkv.
    unfold sample8, pos8 in Hs, Hkv.
    destruct (buf !! Z.to_nat (src + k / mll * stride + k mod mll)) as [b|] eqn:Hb;
      [|discriminate].
    exists b. split; [reflexivity|].
    cbn. rewrite Hv. cbn in Hkv. exact Hkv.
Qed.

(* ================================================================== *)
(** ** The output array keeps its size *)

Lemma sortLoopK_length (tmpDst : list float) (offset c2 c1 c0 : Z) (i j : Z) :
  forall (ks : list nat) (s s' : Z) (dst dst' : list float),
    sortLoopK tmpDst offset c2 c1 c0 ks i j s dst = Ret (s', dst') ->
    length dst' = length dst.
Proof.
  induction ks as [|k ks IH]; intros s s' dst dst'; cbn [sortLoopK].
  - now intros [= _ <-].
  - unfold rbind. destruct (vec_get tmpDst _) as [v|]; [|discriminate].
    destruct (vec_set dst _ v) as [dst1|] eqn:Hset; [|discriminate].
    apply vec_set_inv in Hset as (_ & _ & ->).
    intros Hrun. apply IH in Hrun. now rewrite length_insert in Hrun.
Qed.

Lemma sortLoopJ_length (tmpDst : list float) (offset c2 c1 c0 : Z) (n0 : nat) (i : Z) :
  forall (js : list nat) (s s' : Z) (dst dst' : list float),
    sortLoopJ tmpDst offset c2 c1 c0 n0 js i s dst = Ret (s', dst') ->
    length dst' = length dst.
Proof.
  induction js as [|j js IH]; intros s s' dst dst'; cbn [sortLoopJ].
  - now intros [= _ <-].
  - unfold rbind. destruct (sortLoopK _ _ _ _ _ _ _ _ _ _) as [[s1 dst1]|] eqn:Hk;
      [|discriminate].
    apply sortLoopK_length in Hk. intros Hrun. apply IH in Hrun. congruence.
Qed.

Lemma sortLoopI_length (tmpDst : list float) (offset c2 c1 c0 : Z) (n1 n0 : nat) :
  forall (ivals : list nat) (s s' : Z) (dst dst' : list float),
    sortLoopI tmpDst offset c2 c1 c0 n1 n0 ivals s dst = Ret (s', dst') ->
    length dst' = length dst.
Proof.
  induction ivals as [|i ivals IH]; intros s s' dst dst'; cbn [sortLoopI].
  - now intros [= _ <-].
  - unfold rbind. destruct (sortLoopJ _ _ _ _ _ _ _ _ _ _) as [[s1 dst1]|] eqn:Hj;
      [|discriminate].
    apply sortLoopJ_length in Hj. intros Hrun. apply IH in Hrun. congruence.
Qed.

Lemma sortExec_length (tmpDst : list float) (offset : Z) (loopCnt coef : list Z)
    (dst dst' : list float) :
  sortExec tmpDst offset loopCnt coef dst = Ret dst' -> length dst' = length dst.
Proof.
  unfold sortExec, rbind.
  repeat match goal with
         | |- context [vec_get ?l ?i] => destruct (vec_get l i); [|discriminate]
         end.
  destruct (sortLoopI _ _ _ _ _ _ _ _ _ _) as [[s dst1]|] eqn:Hi; [|discriminate].
  apply sortLoopI_length in Hi. now intros [= <-].
Qed.

(** The size of the output array and the total on record. *)
Definition arraySize (t : MobileNet) : nat * Z :=
  (length (address (outputBodyInfo_ t)), totalSize (outputBodyInfo_ t)).

Lemma tensorTask_arraySize (buf : list byte) (stride : Z) (plans : list TensorPlan)
    (tensorIdx src offset : Z) (tmpDst : list float) :
  preserves arraySize (tensorTask buf stride plans tensorIdx src offset tmpDst).
Proof.
  intros w. unfold tensorTask, mbind, lift, this, return_, modify, LOG_ERROR, mret.
  destruct (vec_get plans tensorIdx) as [plan|]; [|exact I].
  destruct (vec_get (outputApParams_ (self w)) tensorIdx) as [param|]; [|exact I].
  destruct (sortingRequiredLoop _ _ _) as [sorting|]; [|exact I].
  destruct (tp_outSize plan =? 0); [reflexivity|].
  assert (Hsort : forall tmp1 lc co dst',
             sortExec tmp1 offset lc co (address (outputBodyInfo_ (self w))) = Ret dst' ->
             arraySize (set_address dst' (self w)) = arraySize (self w)).
  { intros tmp1 lc co dst' Hrun. apply sortExec_length in Hrun.
    unfold arraySize. cbn. now rewrite Hrun. }
  assert (Hcopy : forall tmp1 n dst',
             memcpy_floats (address (outputBodyInfo_ (self w))) tmp1 offset n = Ret dst' ->
             arraySize (set_address dst' (self w)) = arraySize (self w)).
  { intros tmp1 n dst' Hrun. apply memcpy_floats_spec in Hrun as (Hlen & _).
    unfold arraySize. cbn. now rewrite Hlen. }
  destruct (bitsPerElement param =? 8).
  - destruct (scanLines8 _ _ _ _ _ _ _ _ _ _) as [tmp1|]; [|exact I].
    destruct sorting.
    + destruct (sortPrep _ _ _ _ _) as [[[lc co] tooMany]|]; [|exact I].
      destruct tooMany; destruct (sortExec _ _ _ _ _) eqn:Hrun; try exact I;
        cbn; now apply (Hsort _ _ _ _ Hrun).
    + destruct (memcpy_floats _ _ _ _) eqn:Hrun; [|exact I].
      cbn. now apply (Hcopy _ _ _ Hrun).
  - destruct (bitsPerElement param =? 16); [|reflexivity].
    destruct (scanLines16 _ _ _ _ _ _ _ _ _ _) as [tmp1|]; [|exact I].
    destruct sorting.
    + destruct (sortPrep _ _ _ _ _) as [[[lc co] tooMany]|]; [|exact I].
      destruct tooMany; destruct (sortExec _ _ _ _ _) eqn:Hrun; try exact I;
        cbn; now apply (Hsort _ _ _ _ Hrun).
    + destruct (memcpy_floats _ _ _ _) eqn:Hrun; [|exact I].
      cbn. now apply (Hcopy _ _ _ Hrun).
Qed.

Lemma runTasks_arraySize (buf : list byte) (stride : Z) (plans : list TensorPlan) :
  forall (idxs : list Z) (tmpDst : list float) (ret : Z),
    preserves arraySize (runTasks buf stride plans idxs tmpDst ret).
Proof.
  induction idxs as [|i idxs IH]; intros tmpDst ret; cbn [runTasks].
  - apply preserves_mret.
  - apply preserves_mbind; [apply preserves_lift|]. intros plan.
    apply preserves_mbind; [apply preserves_call, tensorTask_arraySize|].
    intros [r tmp1]. apply IH.
Qed.

Lemma planTensors_arraySize (stride : Z) :
  forall (idxs : list nat) (src1 offset : Z) (plans : list TensorPlan),
    preserves arraySize (planTensors stride idxs src1 offset plans).
Proof.
  induction idxs as [|i idxs IH]; intros src1 offset plans; cbn [planTensors].
  - apply preserves_mret.
  - apply preserves_mbind; [apply preserves_this|]. intros t.
    apply preserves_mbind; [apply preserves_lift|]. intros param.
    apply preserves_mbind; [apply planDims_preserves|]. intros [[sz sd] ad].
    apply preserves_mbind; [apply preserves_lift|]. intros numLines.
    apply preserves_mbind; [apply preserves_lift|]. intros tdn_.
    apply preserves_mbind; [apply preserves_lift|]. intros tdn.
    apply preserves_mbind; [apply preserves_modify; reflexivity|]. intros _.
    destruct (_ <? _); [|apply IH].
    apply preserves_mbind; [apply preserves_LOG_ERROR|]. intros _. apply preserves_return.
Qed.

Lemma parseOutputTensorBody_arraySize (buf : list byte) (src stride : Z) :
  preserves arraySize (parseOutputTensorBody buf src stride).
Proof.
  unfold parseOutputTensorBody.
  apply preserves_mbind; [apply preserves_this|]. intros t.
  destruct (_ <? _).
  { apply preserves_mbind; [apply preserves_LOG_ERROR|]. intros _. apply preserves_return. }
  apply preserves_mbind; [apply planTensors_arraySize|]. intros plans.
  apply preserves_mbind; [apply preserves_lift|]. intros idxs.
  apply preserves_mbind; [apply runTasks_arraySize|]. intros ret.
  apply preserves_return.
Qed.

(** X20. The body parser never resizes the output array: however it
    ends, the array has the length and the object the total that the
    planner left, so that after a planner that succeeded on descriptors
    without a zero size the array holds exactly as many elements as the
    total says. *)
Theorem parseOutputTensorBody_keeps_array (buf : list byte) (src stride : Z)
    (w w1 w2 : World) (r : Z) :
  nonzeroParams (outputApParams_ (self w)) ->
  exec populateOutputBodyInfo w = Ret (0, w1) ->
  exec (parseOutputTensorBody buf src stride) w1 = Ret (r, w2) ->
  let info := outputBodyInfo_ (self w2) in
  Z.of_nat (length (address info)) = totalSize info /\
  totalSize info = trueTotal (outputApParams_ (self w)).
Proof.
  intros Hnz Hplan Hbody info.
  destruct (populateOutputBodyInfo_exact w w1 Hnz Hplan) as (Htotal & Hrange & Haddr & _).
  pose proof (preserves_exec arraySize _ _ _ _
                (parseOutputTensorBody_arraySize buf src stride) Hbody) as Hkeep.
  unfold arraySize in Hkeep. injection Hkeep as Hlen Htot. fold info in Hlen, Htot.
  rewrite Hlen, Htot, Haddr, Htotal, length_replicate. split; [lia|reflexivity].
Qed.

(* ================================================================== *)
(** ** The regions the first pass gives to the tensors *)

Definition sumZ (l : list Z) : Z := foldr Z.add 0 l.

Lemma sumZ_snoc (l : list Z) (x : Z) : sumZ (l ++ [x]) = sumZ l + x.
Proof. unfold sumZ. induction l as [|y l IH]; cbn; lia. Qed.

(** The byte count the dimension loop ends with is below [2 ^ 29]. *)
Lemma planDims_bound (param : OutputTensorApParams) :
  8 <= bitsPerElement param < 256 ->
  forall (idxs : list nat) (acc : Z) (sd ad : list Dimensions) (w w' : World)
         (out : Z) (sd' ad' : list Dimensions),
    0 <= acc < 2 ^ 29 ->
    planDims param idxs acc sd ad w = Val (out, sd', ad') w' ->
    w' = w /\ 0 <= out < 2 ^ 29.
Proof.
  intros Hbits.
  assert (Hq : exists q, 0 <= q < 2 ^ 29 /\
               (q1 <- udiv UINT32_MAX (bitsPerElement param);; udiv q1 8)%result = Ret q).
  { exists (UINT32_MAX / bitsPerElement param / 8). split.
    - unfold UINT32_MAX. split.
      + apply Z.div_pos; [apply Z.div_pos|]; lia.
      + apply Z.div_lt_upper_bound; [lia|]. apply Z.div_lt_upper_bound; lia.
    - unfold udiv. destruct (Z.eqb_spec (bitsPerElement param) 0); [lia|]. reflexivity. }
  destruct Hq as (q & Hqr & Hq).
  induction idxs as [|idx idxs IH]; intros acc sd ad w w' out sd' ad' Hacc;
    cbn [planDims].
  - intros [= <- _ _ <-]. auto.
  - unfold mbind, lift.
    destruct (vec_at (vecDim param) (Z.of_nat idx)) as [d|]; [|discriminate].
    destruct (vec_upd ad _ _) as [ad1|]; [|discriminate].
    destruct (vec_upd sd _ _) as [sd1|]; [|discriminate].
    unfold rbind in Hq.
    destruct (udiv UINT32_MAX (bitsPerElement param)) as [q1|]; [|discriminate].
    rewrite Hq.
    destruct (Z.leb_spec q (wrap32 (acc * size d))) as [?|Hlt]; [discriminate|].
    destruct (vec_upd ad1 _ _) as [ad2|]; [|discriminate].
    destruct (vec_upd sd1 _ _) as [sd2|]; [|discriminate].
    apply IH. pose proof (wrap32_range (acc * size d)). lia.
Qed.

(** The regions of the planned tensors: every tensor starts where the
    tensors before it end, and [offset] is where they all end. *)
Definition regions (plans : list TensorPlan) (counts : list Z) (offset : Z) : Prop :=
  (forall (i : nat) p, plans !! i = Some p ->
     tp_offset p = sumZ (take i counts) /\ exists c, counts !! i = Some c /\ 0 <= c) /\
  offset = sumZ (take (length plans) counts).

Lemma planTensors_spec (stride : Z) :
  forall (m i0 : nat) (src1 offset : Z) (plans plans' : list TensorPlan) (w w' : World),
    Forall storedParams (outputApParams_ (self w)) ->
    totalSize (outputBodyInfo_ (self w)) <= UINT32_MAX / sizeof_float ->
    0 <= offset <= totalSize (outputBodyInfo_ (self w)) ->
    length plans = i0 ->
    regions plans (tensorDataNum (outputBodyInfo_ (self w))) offset ->
    planTensors stride (seq i0 m) src1 offset plans w = Val plans' w' ->
    length plans' = (i0 + m)%nat /\
    exists offset',
      offset' <= totalSize (outputBodyInfo_ (self w)) /\
      regions plans' (tensorDataNum (outputBodyInfo_ (self w'))) offset'.
Proof.
  change (UINT32_MAX / sizeof_float) with 1073741823.
  induction m as [|m IH]; intros i0 src1 offset plans plans' w w' Hstored Htotal Hoff Hlen Hreg.
  - cbn. intros [= <- <-]. split; [lia|]. exists offset. split; [lia|exact Hreg].
  - cbn [seq planTensors]. unfold mbind at 1, this at 1.
    unfold mbind at 1, lift at 1.
    destruct (vec_at (outputApParams_ (self w)) (Z.of_nat i0)) as [param|] eqn:Hparam;
      [|discriminate].
    apply vec_at_inv in Hparam as [_ Hparam].
    rewrite Forall_lookup in Hstored.
    pose proof (Hstored _ _ Hparam) as (_ & _ & Hbits & _).
    assert (Hstored' : Forall storedParams (outputApParams_ (self w)))
      by now apply Forall_lookup.
    unfold mbind at 1.
    destruct (planDims param _ _ _ _ w) as [[[out sd] ad] w1| |] eqn:Hdims; [|discriminate..].
    unfold mbind at 1, lift at 1.
    destruct (numLinesOf out _) as [numLines|]; [|discriminate].
    unfold mbind at 1, lift at 1, udiv.
    destruct (Z.eqb_spec (bitsPerElement param / 8) 0) as [?|Hb8]; [discriminate|].
    assert (Hb : 8 <= bitsPerElement param < 256).
    { split; [|lia]. destruct (Z.lt_ge_cases (bitsPerElement param) 8) as [Hsmall|]; [|lia].
      exfalso. apply Hb8. apply Z.div_small. lia. }
    assert (Hacc : 0 <= bitsPerElement param / 8 < 2 ^ 29).
    { split; [apply Z.div_pos; lia|]. apply Z.div_lt_upper_bound; lia. }
    destruct (planDims_bound param Hb _ _ _ _ _ _ _ _ _ Hacc Hdims) as [-> Hout].
    assert (Hcnt : 0 <= out / (bitsPerElement param / 8) < 2 ^ 29).
    { split; [apply Z.div_pos; lia|].
      apply Z.div_lt_upper_bound; [lia|]. nia. }
    set (cnt := out / (bitsPerElement param / 8)) in *.
    rewrite wrap32_small by lia.
    unfold mbind at 1, lift at 1.
    destruct (vec_set (tensorDataNum (outputBodyInfo_ (self w))) (Z.of_nat i0) cnt)
      as [tdn|] eqn:Hset; [|discriminate].
    apply vec_set_inv in Hset as (_ & Hi0 & ->). rewrite Nat2Z.id in Hi0 |- *.
    unfold mbind at 1, modify at 1.
    destruct (Z.ltb_spec (totalSize (outputBodyInfo_ (self w))) (offset + cnt)) as [?|Hfit];
      [discriminate|].
    intros Hrun. apply IH in Hrun.
    + destruct Hrun as (Hlen' & offset' & Hoff' & Hreg').
      split; [lia|]. exists offset'. split; [exact Hoff'|exact Hreg'].
    + exact Hstored'.
    + exact Htotal.
    + cbn. lia.
    + rewrite length_app. cbn. lia.
    + cbn [self set_tensorDataNum set_outputBodyInfo outputBodyInfo_ tensorDataNum].
      destruct Hreg as [Hplans Hsum]. split.
      * intros i p Hp. apply lookup_app_Some in Hp as [Hp|[Hge Hp]].
        -- apply lookup_lt_Some in Hp as Hlt.
           destruct (Hplans i p Hp) as (Hstart & c & Hc & Hc0).
           rewrite take_insert_ge by lia. split; [exact Hstart|].
           exists c. rewrite list_lookup_insert_ne by lia. auto.
        -- assert (i = i0) as -> by (apply lookup_lt_Some in Hp; cbn in Hp; lia).
           replace (i0 - length plans)%nat with 0%nat in Hp by lia.
           injection Hp as <-. cbn [tp_offset].
           rewrite take_insert_ge by lia. split; [now rewrite <- Hlen|].
           exists cnt. rewrite list_lookup_insert_eq by lia. split; [reflexivity|lia].
      * rewrite length_app. cbn [length].
        replace (length plans + 1)%nat with (S i0) by lia.
        rewrite (take_S_r _ _ cnt) by (apply list_lookup_insert_eq; lia).
        rewrite take_insert_ge by lia. rewrite sumZ_snoc, Hsum, Hlen. reflexivity.
Qed.

(** X21. The regions of the output array never overlap.  Whenever the
    first pass over the descriptors ends without an error, it has given
    tensor [i] the region that starts at the sum of the element counts of
    the tensors before it; the counts it stores are not negative, and all
    the regions together lie inside the output array. *)
Theorem planTensors_regions (stride src : Z) (w w' : World) (plans : list TensorPlan) :
  let aps := outputApParams_ (self w) in
  let total := totalSize (outputBodyInfo_ (self w)) in
  Forall storedParams aps ->
  0 <= total <= UINT32_MAX / sizeof_float ->
  planTensors stride (seq 0 (length aps)) src 0 [] w = Val plans w' ->
  let counts := tensorDataNum (outputBodyInfo_ (self w')) in
  length plans = length aps /\
  (forall (i : nat) p, plans !! i = Some p ->
     tp_offset p = sumZ (take i counts) /\ exists c, counts !! i = Some c /\ 0 <= c) /\
  sumZ (take (length aps) counts) <= total.
Proof.
  intros aps total Hstored Htotal Hrun counts.
  destruct (planTensors_spec stride (length aps) 0 src 0 [] plans w w' Hstored
              ltac:(fold total; lia) ltac:(fold total; lia) eq_refl) as (Hlen & off & Hoff & Hreg).
  - split; [intros i p Hp; discriminate|reflexivity].
  - exact Hrun.
  - destruct Hreg as [Hplans Hsum]. split; [exact Hlen|]. split; [exact Hplans|].
    subst off. rewrite Hlen in Hoff. exact Hoff.
Qed.

(** X22. The body parser, end to end, on a frame with a single 16-bit
    tensor of rank at most three: when the line count the first pass
    computes covers the tensor and the lines lie inside the buffer, the
    parser returns 0 without a message and leaves in the output array, at
    the place of every element, the dequantised 16-bit value assembled,
    low byte first, from the two bytes of that element.  They lie at line
    [k / per], offset [2 * (k mod per)], for the position [k] of the element
    in the serialized input and [per = (maxLineLen + 1) / 2] elements to a
    line. *)
Theorem parseOutputTensorBody_single_tensor16 (buf : list byte) (src stride : Z)
    (w : World) (param : OutputTensorApParams) (lines : Z) :
  let dims := vecDim param in
  let n := trueProduct dims in
  let mll := maxLineLen (dnnHeader_ (self w)) in
  let per := (mll + 1) / 2 in
  let info := outputBodyInfo_ (self w) in
  outputApParams_ (self w) = [param] ->
  bitsPerElement param = 16 ->
  numDimensions param = Z.of_nat (length dims) ->
  (length dims <= 3)%nat ->
  serializedInOrder dims ->
  2 * n < planGuard param ->
  totalSize info = n ->
  length (address info) = Z.to_nat n ->
  (0 < length (tensorDataNum info))%nat ->
  0 < mll ->
  numLinesOf (2 * n) mll = Ret lines ->
  n <= lines * per ->
  0 <= src -> 0 <= stride ->
  (forall k, 0 <= k < n ->
     src + k / per * stride + 2 * (k mod per) + 1 < Z.of_nat (length buf)) ->
  exists w',
    exec (parseOutputTensorBody buf src stride) w = Ret (0, w') /\
    errlog w' = errlog w /\
    length (address (outputBodyInfo_ (self w'))) = Z.to_nat n /\
    forall xs, coordinates dims xs ->
      let k := inIndex dims xs in
      let p := src + k / per * stride + 2 * (k mod per) in
      exists b0 b1 : byte,
        buf !! Z.to_nat p = Some b0 /\ buf !! Z.to_nat (p + 1) = Some b1 /\
        address (outputBodyInfo_ (self w')) !! Z.to_nat (outIndex dims xs)
        = Some (dequantize param (raw16 (format param =? TYPE_SIGNED) b0 b1)).
Proof.
  intros dims n mll per info Haps Hbits Hnum Hrank Hord Hsmall Htotal Haddr Htdn Hmll
    Hlines Hcover Hsrc Hstride Hbuf.
  assert (Hguard : planGuard param = 33554431) by (unfold planGuard; now rewrite Hbits).
  assert (Hnz : nonzeroDims dims).
  { apply Forall_lookup. intros j d Hd. now destruct (proj1 Hord j d Hd) as (_ & ? & _). }
  pose proof (trueProduct_pos dims Hnz) as Hpos. fold n in Hpos.
  pose proof (numLinesOf_range _ _ _ Hlines) as Hlrange.
  assert (Hhalf : Z.shiftr (2 * n) 1 = n) by apply shiftr_double.
  set (nd := length dims).
  set (sd := (planVectors 0 dims (replicate nd zeroDim) (replicate nd zeroDim)).1).
  set (ad := (planVectors 0 dims (replicate nd zeroDim) (replicate nd zeroDim)).2).
  assert (Hplan : forall v : World,
             planDims param (seq 0 nd) 2 (replicate nd zeroDim) (replicate nd zeroDim) v
             = Val (2 * n, sd, ad) v).
  { intros v.
    destruct (planDims_cases param v ltac:(auto) ltac:(fold dims; lia) dims 0%nat 2
                (replicate nd zeroDim) (replicate nd zeroDim)) as [Hrun|[Hbad _]].
    - reflexivity.
    - apply length_replicate.
    - apply length_replicate.
    - apply Forall_replicate. split; reflexivity.
    - apply Forall_replicate. split; reflexivity.
    - apply Forall_lookup. intros j d Hd. destruct (proj1 Hord j d Hd) as (_ & ? & ?). auto.
    - lia.
    - fold n. lia.
    - exact Hrun.
    - fold n in Hbad. lia. }
  set (plan := {| tp_offset := 0; tp_src := src; tp_numLines := lines; tp_outSize := 2 * n;
                  tp_serializedDim := sd; tp_actualDim := ad |}).
  set (tdn := <[0%nat := n]> (tensorDataNum info)).
  set (w1 := {| self := set_tensorDataNum tdn (self w); errlog := errlog w |}).
  set (tmp := replicate (Z.to_nat n) fzero).
  (* the extraction *)
  destruct (scanLines16_spec buf param mll stride 0 (2 * n) ltac:(lia) Hstride ltac:(lia)
              ltac:(rewrite Hhalf; lia) ltac:(rewrite Hhalf; lia) (Z.to_nat lines) src 0 tmp)
    as (tmp' & Hscan & Hlen' & Hnew & _).
  { exact Hsrc. }
  { rewrite Hhalf. lia. }
  { rewrite Hhalf. subst tmp. rewrite length_replicate. lia. }
  { rewrite Hhalf, Z2Nat.id by lia. fold per. intros k Hk. unfold pos16. fold per.
    apply Hbuf. lia. }
  rewrite Hhalf, Z2Nat.id in Hnew by lia. fold per in Hnew.
  assert (Htot : Z.max 0 (Z.min (lines * per) (n - 0)) = n) by lia.
  rewrite Htot in Hnew.
  (* the task *)
  destruct (tensorTask_reorder_run buf stride [plan] 0 src 0 tmp tmp' w1 param plan dims)
    as (dst' & Htask & Hdlen & Hmap & _).
  { lia. }
  { reflexivity. }
  { cbn. rewrite Haps. reflexivity. }
  { reflexivity. }
  { exact Hnum. }
  { exact Hrank. }
  { exact Hord. }
  { rewrite Hbits. change (16 / 8) with 2. fold n. lia. }
  { rewrite Hbits. change (16 / 8) with 2. apply Hplan. }
  { right. split; [exact Hbits|exact Hscan]. }
  { lia. }
  { fold n. rewrite Hlen'. subst tmp. rewrite length_replicate. lia. }
  { fold n. cbn. fold info. rewrite Haddr. lia. }
  { cbn. fold info. rewrite Haddr. lia. }
  assert (Hdn : length dst' = Z.to_nat n) by (etransitivity; [exact Hdlen|exact Haddr]).
  exists {| self := set_address dst' (self w1); errlog := errlog w |}.
  split; [|split; [reflexivity|split]].
  - unfold exec, parseOutputTensorBody, mbind, this. fold info. rewrite Htotal.
    destruct (Z.ltb_spec (UINT32_MAX / sizeof_float) n) as [Hbig|_].
    { change (UINT32_MAX / sizeof_float) with 1073741823 in Hbig. lia. }
    rewrite Haps. cbn [length seq planTensors]. unfold mbind, this, lift.
    rewrite Haps. change (vec_at [param] (Z.of_nat 0)) with (Ret param). cbv beta iota.
    rewrite Hnum, Nat2Z.id, Hbits. change (16 / 8) with 2. fold nd.
    rewrite Hplan. cbv beta iota. fold mll. rewrite Hlines.
    unfold udiv. change (2 =? 0) with false. cbv beta iota.
    replace (2 * n / 2) with n by (rewrite Z.mul_comm, Z.div_mul; lia).
    rewrite wrap32_small by lia. rewrite Z.add_0_l.
    fold info. rewrite vec_set_Ret by (cbn; lia).
    change (Z.to_nat (Z.of_nat 0)) with 0%nat. fold tdn.
    unfold modify. cbv beta iota. rewrite Htotal, Z.ltb_irrefl.
    unfold mret. cbn [app]. fold plan.
    rewrite orderTensors_single.
    cbn [runTasks]. unfold mbind, lift, call.
    change (vec_get [plan] 0) with (Ret plan). cbv beta iota.
    change (to_signed 32 0) with 0. cbn [tp_src tp_offset plan].
    cbn [self errlog]. fold w1. fold tmp. change (to_signed 32 0) with 0. rewrite Htask.
    change (to_signed 32 (0 + 0)) with 0. reflexivity.
  - exact Hdn.
  - intros xs Hxs k p.
    pose proof (outIndex_bound dims xs Hxs) as Hout. fold n in Hout.
    pose proof (inIndex_nonneg dims dims xs Hnz Hxs) as Hin. fold (inIndex dims xs) in Hin.
    fold k in Hin.
    specialize (Hmap xs Hxs). rewrite !Z.add_0_l in Hmap. fold k in Hmap.
    destruct (lookup_lt_is_Some_2 dst' (Z.to_nat (outIndex dims xs))) as [v Hv];
      [rewrite Hdn; lia|].
    rewrite Hv in Hmap. symmetry in Hmap.
    apply lookup_lt_Some in Hmap as Hk.
    rewrite Hlen' in Hk. subst tmp. rewrite length_replicate in Hk.
    destruct (Hnew k ltac:(lia)) as [[v' Hs] Hkv].
    rewrite !Z.add_0_l in Hkv. rewrite Hmap in Hkv.
    unfold sample16, pos16 in Hs, Hkv. fold per in Hs, Hkv. fold p in Hs, Hkv.
    destruct (buf !! Z.to_nat p) as [b0|] eqn:Hb0; [|discriminate].
    destruct (buf !! Z.to_nat (p + 1)) as [b1|] eqn:Hb1; [|discriminate].
    exists b0, b1. split; [reflexivity|]. split; [reflexivity|].
    cbn. rewrite Hv. exact Hkv.
Qed.

(* ================================================================== *)
(** ** The comparison of the total with 61 *)

(** C1, amended. The layout planner does not compare the total with 61:
    for descriptors without a zero size it accepts every total below
    [UINT32_MAX / 4], and [Process] then runs the body parser on the
    planned array.  The comparison is made by [processOutputTensor]
    alone, which [Process] reaches only when the body parser has
    returned 0: on a total other than 61 it logs the mismatch and returns
    no detections, and [Process] returns [false] with the request as it
    was.  When the body parser does not return 0, [Process] ends there,
    again with the request as it was.  In every case a [Process] that ends
    with a total other than 61 has attached no results. *)
Theorem topology_gate (GetFBApParams : list byte -> FBApParams)
    (req : CompletedRequest) (w : World) :
  (forall v : World,
     totalSize (outputBodyInfo_ (self v)) <> PplDnnOutputTensorSize ->
     exec processOutputTensor v = Ret (emptySsdData, logged v "Invalid totalSize")) /\
  (forall (b : bool) (req' : CompletedRequest) (w' : World),
     exec (Process GetFBApParams req) w = Ret ((b, req'), w') ->
     totalSize (outputBodyInfo_ (self w')) <> PplDnnOutputTensorSize ->
     b = false /\ req' = req) /\
  (forall (buf : list byte) (w1 w2 : World),
     let aps := outputApParams_ (self w2) in
     let total := trueTotal aps in
     let w3 := planned total (length aps) w2 in
     Imx500OutputTensor req = Some buf ->
     exec (parseHeader buf 0 4064) w = Ret (0, w1) ->
     exec (parseApParams GetFBApParams) w1 = Ret (0, w2) ->
     nonzeroParams aps -> aps <> [] ->
     Z.of_nat (length aps) < UINT32_MAX / sizeof_uint32 ->
     total < UINT32_MAX / sizeof_float ->
     total <> PplDnnOutputTensorSize ->
     exec populateOutputBodyInfo w2 = Ret (0, w3) /\
     match exec (parseOutputTensorBody buf 4064 4064) w3 with
     | Ret (r4, w4) =>
         totalSize (outputBodyInfo_ (self w4)) = total /\
         if r4 =? 0
         then exec processOutputTensor w4
                = Ret (emptySsdData, logged w4 "Invalid totalSize") /\
              exec (Process GetFBApParams req) w
                = Ret ((false, req), logged w4 "Invalid totalSize")
         else exec (Process GetFBApParams req) w
                = Ret ((false, req), logged w4 "Output tensor body parsing failed!")
     | Fault f => exec (Process GetFBApParams req) w = Fault f
     end).
Proof.
  assert (Hgate : forall v, totalSize (outputBodyInfo_ (self v)) <> PplDnnOutputTensorSize ->
            exec processOutputTensor v = Ret (emptySsdData, logged v "Invalid totalSize")).
  { intros v Hv. unfold exec, processOutputTensor, mbind, this.
    destruct (Z.eqb_spec (totalSize (outputBodyInfo_ (self v))) PplDnnOutputTensorSize);
      [contradiction|reflexivity]. }
  split; [exact Hgate|]. split.
  - intros b req' w' Hrun Htotal.
    destruct (Process_cases GetFBApParams req w)
      as [[f Hf]|[[v Hv]|(w4 & v & data & dets & Hv & _ & Hdata & Hnz & _)]];
      rewrite Hrun in *.
    + discriminate.
    + injection Hv as -> -> _. auto.
    + injection Hv as -> _ ->. exfalso.
      pose proof (preserves_exec (fun t => t) _ _ _ _
                    (processOutputTensor_preserves (fun t => t)) Hdata) as Hself.
      cbv beta in Hself.
      rewrite Hgate in Hdata by now rewrite <- Hself.
      injection Hdata as <- _. now apply Hnz.
  - intros buf w1 w2 aps total w3 Hbuf Hheader Hschema Hnz Hne Hcount Hsmall Htotal.
    pose proof (populateOutputBodyInfo_run w2 Hnz Hne Hcount) as Hplan. cbv zeta in Hplan.
    fold aps total in Hplan.
    destruct (Z.ltb_spec total (UINT32_MAX / sizeof_float)) as [_|?]; [|lia].
    fold w3 in Hplan. split; [exact Hplan|].
    unfold Process. rewrite Hbuf. cbv zeta.
    rewrite exec_bind_call, Hheader. cbn [Z.eqb negb].
    rewrite exec_bind_call, Hschema. cbn [Z.eqb negb].
    rewrite exec_bind_call, Hplan. cbn [Z.eqb negb].
    rewrite exec_bind_call. change (0 + 4064) with 4064.
    destruct (exec (parseOutputTensorBody buf 4064 4064) w3) as [[r4 w4]|f] eqn:Hbody;
      [|reflexivity].
    pose proof (preserves_exec arraySize _ _ _ _
                  (parseOutputTensorBody_arraySize buf 4064 4064) Hbody) as Hsize.
    assert (Hkept : totalSize (outputBodyInfo_ (self w4)) = total).
    { unfold arraySize in Hsize. injection Hsize as _ ->. reflexivity. }
    split; [exact Hkept|].
    destruct (r4 =? 0); cbn [negb].
    + assert (Hrun : exec processOutputTensor w4
                     = Ret (emptySsdData, logged w4 "Invalid totalSize"))
        by (apply Hgate; now rewrite Hkept).
      split; [exact Hrun|].
      rewrite exec_bind_call, Hrun. reflexivity.
    + apply exec_log_return.
Qed.

(* ================================================================== *)
(** ** The further properties at concrete frames *)

Definition validHeader (apParamSize_ : Z) : DnnHeader :=
  {| frameValid := 1; frameCount := 0; maxLineLen := 100;
     apParamSize := apParamSize_; networkId := 7; tensorType := 1 |}.

(** A valid frame that carries a schema of eight bytes behind the header. *)
Definition schemaBytes : list byte := byte_of_Z <$> [10; 11; 12; 13; 14; 15; 16; 17].
Definition schemaFrame : list byte := headerBytes 100 8 7 ++ schemaBytes.

(** The same header in front of four bytes only. *)
Definition shortFrame : list byte := headerBytes 100 8 7 ++ (byte_of_Z <$> [10; 11; 12; 13]).

(** A frame whose first byte says that it is not valid. *)
Definition invalidFrame : list byte := byte_of_Z <$> [0; 0; 100; 0; 8; 0; 7; 0; 1; 0].

(** A network with another id than the header's 7. *)
Definition otherNetwork : FBNetwork :=
  {| fbn_id := 9; fbn_type := "other"; fbn_outputTensors := [] |}.

Definition ssdNetwork : FBNetwork :=
  {| fbn_id := 7; fbn_type := "ssd";
     fbn_outputTensors :=
       [ {| fbt_id := 0; fbt_name := "out"; fbt_numOfDimensions := 1;
            fbt_dimensions := [mkFBDim 0 61 0];
            fbt_bitsPerElement := 8; fbt_shift := 0; fbt_scale := fone;
            fbt_format := TYPE_UNSIGNED |} ] |}.

(** The world in which the header of network 7 has just been stored. *)
Definition headerWorld : World := newWorld (set_dnnHeader (validHeader 0) testStage).

Lemma parseHeader_contiguous_witness :
  let w' := {| self := set_apParams schemaBytes (set_dnnHeader (validHeader 8) testStage);
               errlog := [] |} in
  0 = 0 /\ apParams_ (self w') = take (Z.to_nat 8) (drop (Z.to_nat (0 + 12)) schemaFrame) /\
  dnnHeader_ (self w') = validHeader 8 /\ errlog w' = [] /\
  outputApParams_ (self w') = [] /\
  outputBodyInfo_ (self w') = outputBodyInfo_ testStage.
Proof.
  intros w'.
  apply (parseHeader_contiguous schemaFrame 0 16 (newWorld testStage) w' (validHeader 8) 0).
  - right. closed.
  - closed.
  - reflexivity.
  - closed.
  - closed.
  - vm_compute. reflexivity.
Defined.

Lemma parseHeader_truncated_witness :
  exec (parseHeader shortFrame 0 16) (newWorld testStage) = Fault OutOfBoundsRead.
Proof.
  apply (parseHeader_truncated shortFrame 0 16 (newWorld testStage) (validHeader 8)).
  - right. closed.
  - closed.
  - reflexivity.
  - closed.
  - closed.
  - closed.
Defined.

Lemma parseApParams_no_match_witness :
  let w' := {| self := set_outputApParams [] (self headerWorld); errlog := [] |} in
  0 = 0 /\ outputApParams_ (self w') = [] /\
  networkType_ (self w') = networkType_ (self headerWorld) /\ errlog w' = errlog headerWorld.
Proof.
  intros w'.
  apply (parseApParams_no_match (fun _ => [otherNetwork; otherNetwork]) headerWorld w' 0).
  - repeat constructor; vm_compute; discriminate.
  - reflexivity.
Defined.

Lemma parseApParams_first_match_witness :
  exec (parseApParams (fun _ => [otherNetwork; ssdNetwork; otherNetwork; ssdNetwork])) headerWorld
  = exec (parseApParams (fun _ => [ssdNetwork])) headerWorld.
Proof.
  apply (parseApParams_first_match _ headerWorld [otherNetwork] [otherNetwork; ssdNetwork]
           ssdNetwork).
  - reflexivity.
  - repeat constructor; vm_compute; discriminate.
  - reflexivity.
Defined.

Lemma populateOutputBodyInfo_accepts_witness :
  let w := afterSchema ssdTable ssdFrame in
  exec populateOutputBodyInfo w
  = Ret (0, planned (trueTotal (outputApParams_ (self w)))
              (length (outputApParams_ (self w))) w).
Proof.
  intros w.
  apply (populateOutputBodyInfo_accepts w).
  - repeat constructor; vm_compute; reflexivity.
  - vm_compute. discriminate.
  - vm_compute. reflexivity.
  - vm_compute. reflexivity.
Defined.

Lemma Process_invalid_frame_witness :
  let h := {| frameValid := 0; frameCount := 0; maxLineLen := 100;
              apParamSize := 8; networkId := 7; tensorType := 1 |} in
  exec (Process (fun _ => ssdTable) (requestOf invalidFrame)) (newWorld testStage)
  = Ret ((false, requestOf invalidFrame),
         {| self := set_dnnHeader h (self (newWorld testStage));
            errlog := errlog (newWorld testStage) ++ ["Header param parsing failed!"%string] |}).
Proof.
  intros h.
  apply (Process_invalid_frame (fun _ => ssdTable) (requestOf invalidFrame) invalidFrame h).
  - reflexivity.
  - reflexivity.
  - reflexivity.
Defined.

Lemma Process_no_matching_network_witness :
  exists w',
    exec (Process (fun _ => [otherNetwork]) (requestOf schemaFrame)) (newWorld testStage)
    = Ret ((false, requestOf schemaFrame), w') /\
    errlog w' = ["Invalid output tensor info (totalOutSize is 0)";
                 "Failed to populate OutputBodyInfo!"]%string.
Proof.
  eexists. split.
  - apply (Process_no_matching_network (fun _ => [otherNetwork]) (requestOf schemaFrame)
             schemaFrame (validHeader 8)).
    + reflexivity.
    + reflexivity.
    + closed.
    + closed.
    + repeat constructor; vm_compute; discriminate.
  - reflexivity.
Defined.

(** A tensor of six 8-bit elements in ordinal order, alone in a frame of
    one six-byte line, and the plan of the first pass for it. *)
Definition orderedPlan : TensorPlan :=
  {| tp_offset := 0; tp_src := 0; tp_numLines := 1; tp_outSize := 6;
     tp_serializedDim := [mkDim 0 6 0]; tp_actualDim := [mkDim 0 6 0] |}.

Definition orderedWorld : World :=
  newWorld (set_outputApParams [paramOf [mkDim 0 6 0]] (self transposedWorld)).

Definition sixBytes : list byte := byte_of_Z <$> [10; 11; 12; 13; 14; 15].
Definition sixFloats : list float := float_of_Z <$> [10; 11; 12; 13; 14; 15].

Lemma tensorTask_copies_witness :
  exists dst',
    exec (tensorTask sixBytes 6 [orderedPlan] 0 0 0 (replicate 6 fzero)) orderedWorld
      = Ret ((0, sixFloats),
             {| self := set_address dst' (self orderedWorld); errlog := [] |}) /\
    dst' !! 1%nat = Some (float_of_Z 11).
Proof.
  destruct (tensorTask_copies sixBytes 6 [orderedPlan] 0 0 0 (replicate 6 fzero)
              sixFloats orderedWorld (paramOf [mkDim 0 6 0]) orderedPlan)
    as (dst' & Hrun & _ & Hnew & _).
  - closed.
  - reflexivity.
  - reflexivity.
  - vm_compute. lia.
  - repeat constructor.
  - closed.
  - left. split; [reflexivity|]. vm_compute. reflexivity.
  - closed.
  - vm_compute. discriminate.
  - vm_compute. discriminate.
  - exists dst'. split; [exact Hrun|].
    rewrite (Hnew 1%nat) by (vm_compute; split; discriminate || reflexivity).
    reflexivity.
Defined.

(** The same tensor announced with 32 bits to the element. *)
Definition wideWorld : World :=
  newWorld
    (set_outputApParams
       [ {| id := 0; name := ""; numDimensions := 1; bitsPerElement := 32;
            vecDim := [mkDim 0 6 0]; shift := 0; scale := fone;
            format := TYPE_UNSIGNED |} ]
       (self transposedWorld)).

Lemma tensorTask_failure_writes_nothing_witness :
  -1 = -1 /\ replicate 6 fzero = replicate 6 fzero /\
  self (logged wideWorld "Invalid bitsPerElement value") = self wideWorld /\
  exists msg, errlog (logged wideWorld "Invalid bitsPerElement value")
              = errlog wideWorld ++ [msg].
Proof.
  apply (tensorTask_failure_writes_nothing sixBytes 6 [orderedPlan] 0 0 0
           (replicate 6 fzero) (replicate 6 fzero) wideWorld
           (logged wideWorld "Invalid bitsPerElement value") (-1)).
  - vm_compute. reflexivity.
  - discriminate.
Defined.

(** Three plans with one, three and two lines. *)
Definition planOfLines (n : Z) : TensorPlan :=
  {| tp_offset := 0; tp_src := 0; tp_numLines := n; tp_outSize := 1;
     tp_serializedDim := []; tp_actualDim := [] |}.

Definition threePlans : list TensorPlan := [planOfLines 1; planOfLines 3; planOfLines 2].

Lemma orderTensors_sorts_witness :
  exists idxs,
    orderTensors threePlans 3 = Ret idxs /\
    idxs ≡ₚ (Z.of_nat <$> seq 0 3) /\
    forall (p q : nat) (a b : Z),
      (p <= q)%nat -> idxs !! p = Some a -> idxs !! q = Some b ->
      lineCount threePlans b <= lineCount threePlans a.
Proof.
  apply (orderTensors_sorts threePlans 3). vm_compute. lia.
Defined.

(** The detections of the frame [ssdFrame]. *)
Definition ssdData : ObjectDetectionSsdData :=
  {| dNumDetections := 2;
     vBbox := [ {| mXmin := 0; mYmin := 0; mXmax := 639; mYmax := 479 |};
                {| mXmin := 0; mYmin := 0; mXmax := 639; mYmax := 479 |} ];
     vScores := [fone; fone];
     vClasses := [2; 4] |}.

Definition ssdWorld : World := newWorld (withAddress ssdAddress testStage).

Lemma processOutputTensor_shape_witness :
  length (vBbox ssdData) = Z.to_nat (dNumDetections ssdData) /\
  length (vScores ssdData) = Z.to_nat (dNumDetections ssdData) /\
  length (vClasses ssdData) = Z.to_nat (dNumDetections ssdData) /\
  dNumDetections ssdData <= 10 /\
  dNumDetections ssdData <= Z.max 0 (maxDetections_ (self ssdWorld)).
Proof.
  apply (processOutputTensor_shape ssdWorld ssdWorld ssdData).
  vm_compute. reflexivity.
Defined.

Lemma processOutputTensor_reads_only_witness : self ssdWorld = self ssdWorld.
Proof.
  apply (processOutputTensor_reads_only ssdWorld ssdWorld ssdData).
  vm_compute. reflexivity.
Defined.

Definition ssdDetections : list Detection :=
  [ {| category := 2; det_name := "c"; confidence := fone;
       box_x := 0; box_y := 0; box_w := 639; box_h := 479 |};
    {| category := 4; det_name := "e"; confidence := fone;
       box_x := 0; box_y := 0; box_w := 639; box_h := 479 |} ].

Lemma Process_attached_detections_witness :
  let req' := set_results ssdDetections (requestOf ssdFrame) in
  req' = requestOf ssdFrame \/
  exists dets,
    req' = set_results dets (requestOf ssdFrame) /\
    (0 < length dets <= 10)%nat /\
    Z.of_nat (length dets) <= maxDetections_ (self (newWorld testStage)) /\
    Forall (labelled (classes_ (self (newWorld testStage)))) dets.
Proof.
  intros req'.
  apply (Process_attached_detections (fun _ => ssdTable) (requestOf ssdFrame) req'
           (newWorld testStage) (afterProcess ssdTable ssdFrame) false).
  - closed.
  - vm_compute. reflexivity.
Defined.

(** A result whose only class id, 7, has no label among the five of
    [testStage]. *)
Definition unlabelledData : ObjectDetectionSsdData :=
  {| dNumDetections := 1;
     vBbox := [ {| mXmin := 0; mYmin := 0; mXmax := 639; mYmax := 479 |} ];
     vScores := [fone]; vClasses := [7] |}.

Lemma makeDetections_unlabelled_class_witness :
  makeDetections (classes_ testStage) unlabelledData
    (seq 0 (Z.to_nat (dNumDetections unlabelledData))) []
  = Fault AssertionFailed.
Proof.
  apply (makeDetections_unlabelled_class (classes_ testStage) unlabelledData 0%nat 7).
  - reflexivity.
  - reflexivity.
  - reflexivity.
  - repeat constructor. discriminate.
  - reflexivity.
  - vm_compute. discriminate.
Defined.

Lemma Process_keeps_configuration_witness :
  config (self (afterProcess ssdTable ssdFrame)) = config (self (newWorld testStage)).
Proof.
  apply (Process_keeps_configuration (fun _ => ssdTable) (requestOf ssdFrame)
           (newWorld testStage) (afterProcess ssdTable ssdFrame)
           (false, set_results ssdDetections (requestOf ssdFrame))).
  vm_compute. reflexivity.
Defined.

(** A tensor of rank three, 2 x 3 x 2, serialized with its last dimension
    first and its first dimension second, alone in a frame of one line of
    twelve bytes. *)
Definition cubeDims : list Dimensions := [mkDim 0 2 1; mkDim 1 3 2; mkDim 2 2 0].

Definition cubeParam : OutputTensorApParams :=
  {| id := 0; name := ""; numDimensions := 3; bitsPerElement := 8;
     vecDim := cubeDims; shift := 0; scale := fone; format := TYPE_UNSIGNED |}.

Definition cubePlan : TensorPlan :=
  {| tp_offset := 0; tp_src := 0; tp_numLines := 1; tp_outSize := 12;
     tp_serializedDim := [mkDim 0 2 2; mkDim 0 2 0; mkDim 0 3 1];
     tp_actualDim := [mkDim 0 2 1; mkDim 0 3 2; mkDim 0 2 0] |}.

Definition cubeWorld : World :=
  newWorld
    (set_outputBodyInfo
       {| address := replicate 12 fzero; totalSize := 12; tensorNum := 1;
          tensorDataNum := [0] |}
       (set_outputApParams [cubeParam]
          (set_dnnHeader
             {| frameValid := 1; frameCount := 0; maxLineLen := 12;
                apParamSize := 0; networkId := 7; tensorType := 1 |}
             testStage))).

Definition cubeBytes : list byte := byte_of_Z <$> seqZ 0 12.
Definition cubeFloats : list float := float_of_Z <$> seqZ 0 12.

Lemma cubeDims_serializedInOrder : serializedInOrder cubeDims.
Proof.
  split.
  - intros j d Hd. destruct j as [|[|[|j]]]; try discriminate;
      injection Hd as <-; cbn; lia.
  - compute_done.
Qed.

Lemma tensorTask_reorders_witness :
  exists dst',
    exec (tensorTask cubeBytes 12 [cubePlan] 0 0 0 (replicate 12 fzero)) cubeWorld
      = Ret ((0, cubeFloats),
             {| self := set_address dst' (self cubeWorld); errlog := [] |}) /\
    dst' !! Z.to_nat (0 + outIndex cubeDims [1; 2; 0]) = Some (float_of_Z 10).
Proof.
  destruct (tensorTask_reorders cubeBytes 12 [cubePlan] 0 0 0 (replicate 12 fzero)
              cubeFloats cubeWorld cubeParam cubePlan cubeDims)
    as (dst' & Hrun & _ & Hmap & _).
  - closed.
  - reflexivity.
  - reflexivity.
  - reflexivity.
  - reflexivity.
  - vm_compute. lia.
  - exact cubeDims_serializedInOrder.
  - vm_compute. reflexivity.
  - vm_compute. reflexivity.
  - left. split; [reflexivity|]. vm_compute. reflexivity.
  - closed.
  - vm_compute. discriminate.
  - vm_compute. discriminate.
  - vm_compute. reflexivity.
  - exists dst'. split; [exact Hrun|].
    rewrite (Hmap [1; 2; 0]) by (repeat constructor; vm_compute; discriminate || reflexivity).
    vm_compute. reflexivity.
Defined.

Lemma parseOutputTensorBody_single_tensor_witness :
  exists w',
    exec (parseOutputTensorBody cubeBytes 0 12) cubeWorld = Ret (0, w') /\
    address (outputBodyInfo_ (self w')) !! Z.to_nat (outIndex cubeDims [1; 2; 0])
    = Some (float_of_Z 10).
Proof.
  destruct (parseOutputTensorBody_single_tensor cubeBytes 0 12 cubeWorld cubeParam 1)
    as (w' & Hrun & _ & _ & Hmap).
  - reflexivity.
  - reflexivity.
  - reflexivity.
  - vm_compute. lia.
  - exact cubeDims_serializedInOrder.
  - vm_compute. reflexivity.
  - reflexivity.
  - reflexivity.
  - vm_compute. lia.
  - closed.
  - vm_compute. reflexivity.
  - vm_compute. discriminate.
  - closed.
  - closed.
  - intros k Hk. change (0 <= k < 12) in Hk.
    change (maxLineLen (dnnHeader_ (self cubeWorld))) with 12.
    change (Z.of_nat (length cubeBytes)) with 12.
    rewrite Z.div_small, Z.mod_small by lia. lia.
  - exists w'. split; [exact Hrun|].
    destruct (Hmap [1; 2; 0]) as (b & Hb & Hval).
    { repeat constructor; vm_compute; discriminate || reflexivity. }
    vm_compute in Hb. injection Hb as <-. refine (eq_trans Hval _). vm_compute. reflexivity.
Defined.

(** The worlds of the frame [ssdFrame] after the schema, after the planner
    and after the body parser. *)
Definition afterBody (table : FBApParams) (buf : list byte) : World :=
  match exec (parseOutputTensorBody buf 4064 4064) (afterPlan table buf) with
  | Ret (_, w) => w
  | Fault _ => newWorld testStage
  end.

Lemma parseOutputTensorBody_keeps_array_witness :
  let info := outputBodyInfo_ (self (afterBody ssdTable ssdFrame)) in
  Z.of_nat (length (address info)) = totalSize info /\
  totalSize info = trueTotal (outputApParams_ (self (afterSchema ssdTable ssdFrame))).
Proof.
  apply (parseOutputTensorBody_keeps_array ssdFrame 4064 4064 (afterSchema ssdTable ssdFrame)
           (afterPlan ssdTable ssdFrame) (afterBody ssdTable ssdFrame) 0).
  - repeat constructor; vm_compute; reflexivity.
  - vm_compute. reflexivity.
  - vm_compute. reflexivity.
Defined.

(** Two tensors of two and of three elements, before the first pass. *)
Definition twoTensorWorld : World :=
  newWorld
    (set_outputBodyInfo
       {| address := replicate 5 fzero; totalSize := 5; tensorNum := 2;
          tensorDataNum := [0; 0] |}
       (set_outputApParams [paramOf [mkDim 0 2 0]; paramOf [mkDim 0 3 0]]
          (self transposedWorld))).

Definition twoPlans : list TensorPlan :=
  [ {| tp_offset := 0; tp_src := 0; tp_numLines := 1; tp_outSize := 2;
       tp_serializedDim := [mkDim 0 2 0]; tp_actualDim := [mkDim 0 2 0] |};
    {| tp_offset := 2; tp_src := 6; tp_numLines := 1; tp_outSize := 3;
       tp_serializedDim := [mkDim 0 3 0]; tp_actualDim := [mkDim 0 3 0] |} ].

Definition twoTensorPlanned : World :=
  newWorld
    (set_outputBodyInfo
       {| address := replicate 5 fzero; totalSize := 5; tensorNum := 2;
          tensorDataNum := [2; 3] |}
       (self twoTensorWorld)).

Lemma planTensors_regions_witness :
  let counts := tensorDataNum (outputBodyInfo_ (self twoTensorPlanned)) in
  length twoPlans = length (outputApParams_ (self twoTensorWorld)) /\
  (forall (i : nat) p, twoPlans !! i = Some p ->
     tp_offset p = sumZ (take i counts) /\ exists c, counts !! i = Some c /\ 0 <= c) /\
  sumZ (take (length (outputApParams_ (self twoTensorWorld))) counts)
    <= totalSize (outputBodyInfo_ (self twoTensorWorld)).
Proof.
  apply (planTensors_regions 6 0 twoTensorWorld twoTensorPlanned twoPlans).
  - repeat constructor; vm_compute; discriminate || reflexivity.
  - vm_compute. split; discriminate.
  - vm_compute. reflexivity.
Defined.

(** A 16-bit tensor of rank two, 2 x 3, serialized with its second
    dimension first, alone in a frame of one line of twelve bytes. *)
Definition wideDims : list Dimensions := [mkDim 0 2 1; mkDim 1 3 0].

Definition wideParam : OutputTensorApParams :=
  {| id := 0; name := ""; numDimensions := 2; bitsPerElement := 16;
     vecDim := wideDims; shift := 0; scale := fone; format := TYPE_UNSIGNED |}.

Definition wideFrameWorld : World :=
  newWorld
    (set_outputBodyInfo
       {| address := replicate 6 fzero; totalSize := 6; tensorNum := 1;
          tensorDataNum := [0] |}
       (set_outputApParams [wideParam]
          (set_dnnHeader
             {| frameValid := 1; frameCount := 0; maxLineLen := 12;
                apParamSize := 0; networkId := 7; tensorType := 1 |}
             testStage))).

Lemma wideDims_serializedInOrder : serializedInOrder wideDims.
Proof.
  split.
  - intros j d Hd. destruct j as [|[|j]]; try discriminate;
      injection Hd as <-; cbn; lia.
  - compute_done.
Qed.

Lemma parseOutputTensorBody_single_tensor16_witness :
  exists w',
    exec (parseOutputTensorBody cubeBytes 0 12) wideFrameWorld = Ret (0, w') /\
    address (outputBodyInfo_ (self w')) !! Z.to_nat (outIndex wideDims [1; 2])
    = Some (float_of_Z 2826).
Proof.
  destruct (parseOutputTensorBody_single_tensor16 cubeBytes 0 12 wideFrameWorld wideParam 1)
    as (w' & Hrun & _ & _ & Hmap).
  - reflexivity.
  - reflexivity.
  - reflexivity.
  - vm_compute. lia.
  - exact wideDims_serializedInOrder.
  - vm_compute. reflexivity.
  - reflexivity.
  - reflexivity.
  - vm_compute. lia.
  - closed.
  - vm_compute. reflexivity.
  - vm_compute. discriminate.
  - closed.
  - closed.
  - intros k Hk. change (0 <= k < 6) in Hk.
    change (maxLineLen (dnnHeader_ (self wideFrameWorld))) with 12.
    change ((12 + 1) / 2) with 6.
    change (Z.of_nat (length cubeBytes)) with 12.
    rewrite Z.div_small, Z.mod_small by lia. lia.
  - exists w'. split; [exact Hrun|].
    destruct (Hmap [1; 2]) as (b0 & b1 & Hb0 & Hb1 & Hval).
    { repeat constructor; vm_compute; discriminate || reflexivity. }
    vm_compute in Hb0. injection Hb0 as <-.
    vm_compute in Hb1. injection Hb1 as <-.
    refine (eq_trans Hval _). vm_compute. reflexivity.
Defined.

(** The world in which the header of [buf] has just been read. *)
Definition afterHeader (buf : list byte) : World :=
  match exec (parseHeader buf 0 4064) (newWorld testStage) with
  | Ret (_, w) => w
  | Fault _ => newWorld testStage
  end.

Lemma topology_gate_witness :
  let w2 := afterSchema fiveTable fiveFrame in
  let w3 := afterPlan fiveTable fiveFrame in
  let w4 := afterBody fiveTable fiveFrame in
  exec populateOutputBodyInfo w2 = Ret (0, w3) /\
  exec (parseOutputTensorBody fiveFrame 4064 4064) w3 = Ret (0, w4) /\
  address (outputBodyInfo_ (self w4)) = float_of_Z <$> [1; 2; 3; 4; 5] /\
  exec processOutputTensor w4 = Ret (emptySsdData, logged w4 "Invalid totalSize") /\
  exec (Process (fun _ => fiveTable) (requestOf fiveFrame)) (newWorld testStage)
    = Ret ((false, requestOf fiveFrame), logged w4 "Invalid totalSize") /\
  totalSize (outputBodyInfo_ (self w4)) = 5.
Proof.
  intros w2 w3 w4.
  destruct (topology_gate (fun _ => fiveTable) (requestOf fiveFrame) (newWorld testStage))
    as (_ & Hnone & Hstages).
  destruct (Hstages fiveFrame (afterHeader fiveFrame) w2) as [Hplan Hbody].
  - reflexivity.
  - vm_compute. reflexivity.
  - vm_compute. reflexivity.
  - repeat constructor; vm_compute; discriminate.
  - vm_compute. discriminate.
  - vm_compute. reflexivity.
  - vm_compute. reflexivity.
  - vm_compute. discriminate.
  - assert (Hw3 : planned (trueTotal (outputApParams_ (self w2)))
                    (length (outputApParams_ (self w2))) w2 = w3)
      by (vm_compute; reflexivity).
    rewrite Hw3 in Hplan, Hbody.
    assert (Hrun : exec (parseOutputTensorBody fiveFrame 4064 4064) w3 = Ret (0, w4))
      by (vm_compute; reflexivity).
    rewrite Hrun in Hbody. destruct Hbody as (Htotal & Hgate & Hprocess).
    split; [exact Hplan|]. split; [exact Hrun|]. split; [vm_compute; reflexivity|].
    split; [exact Hgate|]. split; [exact Hprocess|].
    destruct (Hnone false (requestOf fiveFrame) (logged w4 "Invalid totalSize") Hprocess)
      as [_ _]; [vm_compute; discriminate|].
    exact Htotal.
Defined.
